(** * Browser-automation servers: resource registry, element resolution,
      action handlers and workflow execution

    A shallow embedding of the servers of this repository:

    - [Registry]: the three maps [browsers], [contexts], [pages] of
      [PlaywrightMCPServer] (and, with the same bodies, of
      [CopilotPlaywrightAgent] and [PlaywrightHTTPServer]) together with
      [launchBrowser], [createContext], [createPage], [closePage],
      [closeContext], [closeBrowser];
    - [Copilot]: the natural-language layer of [CopilotPlaywrightAgent]
      ([executeNaturalLanguageCommand], [executeWorkflow],
      [extractWaitCondition], [extractScrollData]);
    - [Interrupted]: what a close has done when a driver close throws;
    - [AIServer]: the socket server [AIWebAutomationServer]
      ([handleWait], [handleScroll], [findElement], [cleanupSession] with
      the listener of the page's [close] event), and [Shutdown], its signal
      handlers;
    - [Tools]: the page tools of [PlaywrightMCPServer] and its JSON-RPC
      loop ([handleRequest], [handleToolCall]);
    - [CopilotSession] and [Rest]: [startCopilotSession] and the routes of
      [CopilotPlaywrightAgent], behind the JSON body parser ([Json]);
    - [Client]: [PlaywrightCopilotClient], run against those routes;
    - [Ui]: the activity log of the web client.

    Playwright itself is an external library.  It is a record of
    operations over an abstract world; every operation may throw. *)

From Stdlib Require Import List String Ascii ZArith Lia Bool Arith.
From Stdlib Require Import DecimalString.
Import ListNotations.
Open Scope string_scope.

(** ** JavaScript [Map<string, V>]

    A [Map] iterates in insertion order and holds each key once.  It is an
    association list; [set] overwrites in place or appends, [delete] drops
    the key. *)
Module JsMap.

Definition t (V : Type) : Type := list (string * V).

Fixpoint get {V : Type} (k : string) (m : t V) : option V :=
  match m with
  | [] => None
  | (k', v) :: m' => if String.eqb k k' then Some v else get k m'
  end.

Definition has {V : Type} (k : string) (m : t V) : bool :=
  match get k m with Some _ => true | None => false end.

Fixpoint set {V : Type} (k : string) (v : V) (m : t V) : t V :=
  match m with
  | [] => [(k, v)]
  | (k', v') :: m' =>
      if String.eqb k k' then (k, v) :: m' else (k', v') :: set k v m'
  end.

Definition delete {V : Type} (k : string) (m : t V) : t V :=
  filter (fun e => negb (String.eqb k (fst e))) m.

(** [delete] for each key of a list. *)
Definition delete_all {V : Type} (ks : list string) (m : t V) : t V :=
  filter (fun e => negb (existsb (String.eqb (fst e)) ks)) m.

Definition entries {V : Type} (m : t V) : list (string * V) := m.

Definition keys {V : Type} (m : t V) : list string := map fst m.

Definition values {V : Type} (m : t V) : list V := map snd m.

(** The representation invariant of a [Map]: no key twice. *)
Definition wf {V : Type} (m : t V) : Prop := NoDup (keys m).

End JsMap.

(** ** Handles

    Playwright objects are compared with [===], that is by identity.  A
    handle carries the identity of its object and of the object that owns
    it ([context.browser()], [page.context()]). *)

Inductive EngineKind : Type := Chromium | Firefox | Webkit.

Record Browser : Type := { b_ref : nat; b_kind : EngineKind }.
Record BrowserContext : Type := { c_ref : nat; c_browser : nat }.
Record Page : Type := { p_ref : nat; p_context : nat }.

Record Viewport : Type := { vp_width : Z; vp_height : Z }.

(** The [options] object handed to [browser.newContext]. *)
Record ContextOptions : Type :=
  { opt_viewport : option Viewport; opt_userAgent : option string }.

(** ** Errors and outcomes *)

Inductive Kind : Type := KBrowser | KContext | KPage.

Inductive Error : Type :=
| NotFound (k : Kind) (id : string)
    (* `${Kind} with ID ${id} not found` *)
| AlreadyExists (k : Kind) (id : string)
    (* `${Kind} with ID ${id} already exists` *)
| UnsupportedBrowserType (browserType : string)
| DriverError (message : string).
    (* anything thrown by Playwright *)

Inductive Outcome (A : Type) : Type :=
| Returned (a : A)
| Thrown (e : Error).
Arguments Returned {A} a.
Arguments Thrown {A} e.

Definition is_returned {A : Type} (o : Outcome A) : bool :=
  match o with Returned _ => true | Thrown _ => false end.

(** A locator narrowed with [.first()]: the page and the selector text. *)
Record Locator : Type := { loc_page : Page; loc_selector : string }.

(** The functions handed to [page.evaluate] by the scroll handlers. *)
Inductive Script : Type :=
| ScrollBy (x y : Z)      (* window.scrollBy(x, y) *)
| ScrollToTop             (* window.scrollTo(0, 0) *)
| ScrollToBottom.         (* window.scrollTo(0, document.body.scrollHeight) *)

(** ** The Playwright driver

    Creation operations return the identity of the new object. *)
Record Driver (World : Type) : Type :=
  { launch : EngineKind -> bool -> World -> Outcome nat * World;
    newContext : Browser -> ContextOptions -> World -> Outcome nat * World;
    newPage : BrowserContext -> World -> Outcome nat * World;
    browser_close : Browser -> World -> Outcome unit * World;
    context_close : BrowserContext -> World -> Outcome unit * World;
    page_close : Page -> World -> Outcome unit * World;
    page_goto : Page -> string -> World -> Outcome unit * World;
    page_click : Page -> string -> World -> Outcome unit * World;
    page_fill : Page -> string -> string -> World -> Outcome unit * World;
    page_waitForSelector : Page -> string -> World -> Outcome unit * World;
    page_waitForTimeout : Page -> Z -> World -> Outcome unit * World;
    page_screenshot : Page -> bool -> World -> Outcome string * World;
    page_evaluate : Page -> Script -> World -> Outcome unit * World;
    locator_count : Locator -> World -> Outcome nat * World;
    locator_isVisible : Locator -> World -> Outcome bool * World }.

Arguments launch {World}.
Arguments newContext {World}.
Arguments newPage {World}.
Arguments browser_close {World}.
Arguments context_close {World}.
Arguments page_close {World}.
Arguments page_goto {World}.
Arguments page_click {World}.
Arguments page_fill {World}.
Arguments page_waitForSelector {World}.
Arguments page_waitForTimeout {World}.
Arguments page_screenshot {World}.
Arguments page_evaluate {World}.
Arguments locator_count {World}.
Arguments locator_isVisible {World}.

(** A page emits the event [close] when it has closed.  Whether that
    happens while a call of [page.close()] on it, or of [browser.close()] on
    its browser, is awaited is up to Playwright: in the world the call
    starts from, does the page emit [close] before the call settles? *)
Record PageEvents (World : Type) : Type :=
  { close_on_page_close : Page -> World -> bool;
    close_on_browser_close : Browser -> Page -> World -> bool }.

Arguments close_on_page_close {World}.
Arguments close_on_browser_close {World}.

(** ** A state-and-exception monad

    A method runs on the server object, which it mutates in place; what it
    changed before it throws stays changed. *)
Definition M (S A : Type) : Type := S -> Outcome A * S.

Definition ret {S A : Type} (a : A) : M S A := fun s => (Returned a, s).

Definition throw {S A : Type} (e : Error) : M S A := fun s => (Thrown e, s).

Definition bind {S A B : Type} (m : M S A) (k : A -> M S B) : M S B :=
  fun s =>
    match m s with
    | (Returned a, s') => k a s'
    | (Thrown e, s') => (Thrown e, s')
    end.

Definition try_catch {S A : Type} (body : M S A) (handler : Error -> M S A)
  : M S A :=
  fun s =>
    match body s with
    | (Returned a, s') => (Returned a, s')
    | (Thrown e, s') => handler e s'
    end.

Definition gets {S A : Type} (f : S -> A) : M S A := fun s => (Returned (f s), s).

Definition modify {S : Type} (f : S -> S) : M S unit := fun s => (Returned tt, f s).

Declare Scope js_scope.
Delimit Scope js_scope with js.
Notation "x <- c1 ;; c2" := (bind c1 (fun x => c2))
  (at level 61, c1 at next level, right associativity) : js_scope.
Notation "c1 ;; c2" := (bind c1 (fun _ => c2))
  (at level 61, right associativity) : js_scope.
Open Scope js_scope.

(** ** The resource registry of [PlaywrightMCPServer] *)
Module Registry.
Section WithDriver.

Context {World : Type}.
Variable drv : Driver World.

Record Server : Type :=
  { browsers : JsMap.t Browser;
    contexts : JsMap.t BrowserContext;
    pages : JsMap.t Page;
    world : World }.

Definition set_browsers (f : JsMap.t Browser -> JsMap.t Browser) (s : Server) :=
  {| browsers := f (browsers s); contexts := contexts s;
     pages := pages s; world := world s |}.

Definition set_contexts
  (f : JsMap.t BrowserContext -> JsMap.t BrowserContext) (s : Server) :=
  {| browsers := browsers s; contexts := f (contexts s);
     pages := pages s; world := world s |}.

Definition set_pages (f : JsMap.t Page -> JsMap.t Page) (s : Server) :=
  {| browsers := browsers s; contexts := contexts s;
     pages := f (pages s); world := world s |}.

(** [await op(...)] on a driver operation. *)
Definition native {A : Type} (op : World -> Outcome A * World) : M Server A :=
  fun s =>
    let (o, w) := op (world s) in
    (o, {| browsers := browsers s; contexts := contexts s;
           pages := pages s; world := w |}).

(** [const x = this.m.get(id); if (!x) throw new Error(`... not found`)] *)
Definition getOrThrow {V : Type} (m : Server -> JsMap.t V) (k : Kind)
  (id : string) : M Server V :=
  fun s =>
    match JsMap.get id (m s) with
    | Some v => (Returned v, s)
    | None => (Thrown (NotFound k id), s)
    end.

(** [if (this.m.has(id)) throw new Error(`... already exists`)] *)
Definition throwIfHas {V : Type} (m : Server -> JsMap.t V) (k : Kind)
  (id : string) : M Server unit :=
  fun s =>
    if JsMap.has id (m s) then (Thrown (AlreadyExists k id), s)
    else (Returned tt, s).

Definition parseBrowserType (browserType : string) : option EngineKind :=
  if String.eqb browserType "chromium" then Some Chromium
  else if String.eqb browserType "firefox" then Some Firefox
  else if String.eqb browserType "webkit" then Some Webkit
  else None.

Definition launchBrowser (browserType : string) (headless : bool)
  (browserId : string) : M Server string :=
  throwIfHas browsers KBrowser browserId ;;
  match parseBrowserType browserType with
  | Some kind =>
      ref <- native (launch drv kind headless) ;;
      modify (set_browsers
                (JsMap.set browserId {| b_ref := ref; b_kind := kind |})) ;;
      ret browserId
  | None => throw (UnsupportedBrowserType browserType)
  end.

(** [if (viewport) options.viewport = viewport;
     if (userAgent) options.userAgent = userAgent;]
    the empty string is falsy. *)
Definition contextOptions (viewport : option Viewport)
  (userAgent : option string) : ContextOptions :=
  {| opt_viewport := viewport;
     opt_userAgent :=
       match userAgent with
       | Some EmptyString => None
       | other => other
       end |}.

Definition createContext (browserId contextId : string)
  (viewport : option Viewport) (userAgent : option string)
  : M Server string :=
  browser <- getOrThrow browsers KBrowser browserId ;;
  throwIfHas contexts KContext contextId ;;
  ref <- native (newContext drv browser (contextOptions viewport userAgent)) ;;
  modify (set_contexts
            (JsMap.set contextId {| c_ref := ref; c_browser := b_ref browser |})) ;;
  ret contextId.

Definition createPage (contextId pageId : string) : M Server string :=
  context <- getOrThrow contexts KContext contextId ;;
  throwIfHas pages KPage pageId ;;
  ref <- native (newPage drv context) ;;
  modify (set_pages
            (JsMap.set pageId {| p_ref := ref; p_context := c_ref context |})) ;;
  ret pageId.

Definition closePage (pageId : string) : M Server string :=
  page <- getOrThrow pages KPage pageId ;;
  native (page_close drv page) ;;
  modify (set_pages (JsMap.delete pageId)) ;;
  ret pageId.

(** [page.context() === context] *)
Definition page_in (context : BrowserContext) (page : Page) : bool :=
  Nat.eqb (p_context page) (c_ref context).

(** [context.browser() === browser] *)
Definition context_in (browser : Browser) (context : BrowserContext) : bool :=
  Nat.eqb (c_browser context) (b_ref browser).

(** [for (const [pageId, page] of this.pages.entries())
       if (page.context() === context) {
         await page.close(); this.pages.delete(pageId); }]

    The body deletes no entry but the one the iterator has just yielded,
    so the iterator yields the entries the map had when the loop began. *)
Fixpoint closePagesOf (context : BrowserContext)
  (entries : list (string * Page)) : M Server unit :=
  match entries with
  | [] => ret tt
  | (pageId, page) :: rest =>
      (if page_in context page
       then native (page_close drv page) ;;
            modify (set_pages (JsMap.delete pageId))
       else ret tt) ;;
      closePagesOf context rest
  end.

Definition closeContext (contextId : string) : M Server string :=
  context <- getOrThrow contexts KContext contextId ;;
  entries <- gets (fun s => JsMap.entries (pages s)) ;;
  closePagesOf context entries ;;
  native (context_close drv context) ;;
  modify (set_contexts (JsMap.delete contextId)) ;;
  ret contextId.

(** The outer loop of [closeBrowser]; the inner loop starts from the
    pages the map holds when it is reached. *)
Fixpoint closeContextsOf (browser : Browser)
  (entries : list (string * BrowserContext)) : M Server unit :=
  match entries with
  | [] => ret tt
  | (contextId, context) :: rest =>
      (if context_in browser context
       then ps <- gets (fun s => JsMap.entries (pages s)) ;;
            closePagesOf context ps ;;
            native (context_close drv context) ;;
            modify (set_contexts (JsMap.delete contextId))
       else ret tt) ;;
      closeContextsOf browser rest
  end.

Definition closeBrowser (browserId : string) : M Server string :=
  browser <- getOrThrow browsers KBrowser browserId ;;
  entries <- gets (fun s => JsMap.entries (contexts s)) ;;
  closeContextsOf browser entries ;;
  native (browser_close drv browser) ;;
  modify (set_browsers (JsMap.delete browserId)) ;;
  ret browserId.

End WithDriver.
End Registry.

(** ** JavaScript strings and numbers

    Strings are sequences of ASCII characters; a number produced by
    [parseInt] is [NaN] or an integer. *)
Module Js.

Definition dq : string := String "034"%char EmptyString.

Definition isSpace (a : ascii) : bool :=
  let n := nat_of_ascii a in
  (Nat.eqb n 32) || ((9 <=? n)%nat && (n <=? 13)%nat).

Definition isLineTerminator (a : ascii) : bool :=
  let n := nat_of_ascii a in Nat.eqb n 10 || Nat.eqb n 13.

Definition isDigit (a : ascii) : bool :=
  let n := nat_of_ascii a in (48 <=? n)%nat && (n <=? 57)%nat.

Definition lowerChar (a : ascii) : ascii :=
  let n := nat_of_ascii a in
  if (65 <=? n)%nat && (n <=? 90)%nat then ascii_of_nat (n + 32) else a.

(** The string has only characters of the ASCII range, on which the
    functions below are the ones of JavaScript. *)
Definition isAscii (s : string) : bool :=
  forallb (fun a => (nat_of_ascii a <? 128)%nat) (list_ascii_of_string s).

(** [s.toLowerCase()] *)
Fixpoint toLowerCase (s : string) : string :=
  match s with
  | EmptyString => EmptyString
  | String a s' => String (lowerChar a) (toLowerCase s')
  end.

(** [hay.includes(needle)] *)
Fixpoint includes (needle hay : string) : bool :=
  if String.prefix needle hay then true
  else match hay with
       | EmptyString => false
       | String _ hay' => includes needle hay'
       end.

(** [s.startsWith(p)] *)
Definition startsWith (p s : string) : bool := String.prefix p s.

Fixpoint dropSpaces (l : list ascii) : list ascii :=
  match l with
  | a :: l' => if isSpace a then dropSpaces l' else l
  | [] => []
  end.

(** [s.trim()] *)
Definition trim (s : string) : string :=
  string_of_list_ascii
    (rev (dropSpaces (rev (dropSpaces (list_ascii_of_string s))))).

Inductive Num : Type := NaN | Int (z : Z).

Definition digitValue (a : ascii) : Z := Z.of_nat (nat_of_ascii a - 48).

Fixpoint takeDigits (l : list ascii) : list ascii :=
  match l with
  | a :: l' => if isDigit a then a :: takeDigits l' else []
  | [] => []
  end.

Definition digitsValue (ds : list ascii) : Z :=
  fold_left (fun acc d => (10 * acc + digitValue d)%Z) ds 0%Z.

(** [parseInt(s, 10)]: leading white space is skipped, one sign is read,
    then the longest run of decimal digits; no digit gives [NaN]. *)
Definition parseInt (s : string) : Num :=
  let l := dropSpaces (list_ascii_of_string s) in
  let (negative, body) :=
    match l with
    | "-"%char :: l' => (true, l')
    | "+"%char :: l' => (false, l')
    | _ => (false, l)
    end in
  match takeDigits body with
  | [] => NaN
  | ds => Int (if negative then - digitsValue ds else digitsValue ds)
  end.

(** [x || d] on numbers: [NaN] and [0] are falsy. *)
Definition orElse (x : Num) (d : Z) : Num :=
  match x with
  | NaN => Int d
  | Int z => if Z.eqb z 0 then Int d else Int z
  end.

End Js.

(** ** Regular expressions

    A backtracking matcher for the constructs the command parser uses:
    character classes, sequence, ordered alternative, greedy repetition
    and numbered capture groups.  [search] returns the captures of the
    leftmost match. *)
Module Regex.

Inductive re : Type :=
| Eps
| Chr (p : ascii -> bool)
| Seq (a b : re)
| Alt (a b : re)
| Star (a : re)
| Group (i : nat) (a : re).

Definition Caps : Type := list (nat * list ascii).

Fixpoint run (r : re) (s : list ascii) (c : Caps)
  (k : list ascii -> Caps -> option Caps) {struct r} : option Caps :=
  match r with
  | Eps => k s c
  | Chr p =>
      match s with
      | a :: s' => if p a then k s' c else None
      | [] => None
      end
  | Seq a b => run a s c (fun s' c' => run b s' c' k)
  | Alt a b =>
      match run a s c k with
      | Some res => Some res
      | None => run b s c k
      end
  | Star a =>
      (fix loop (n : nat) (s : list ascii) (c : Caps) {struct n} : option Caps :=
         match n with
         | O => k s c
         | S n' =>
             match run a s c
                     (fun s' c' =>
                        if (List.length s' <? List.length s)%nat
                        then loop n' s' c' else None) with
             | Some res => Some res
             | None => k s c
             end
         end) (List.length s) s c
  | Group i a =>
      run a s c
        (fun s' c' =>
           k s' ((i, firstn (List.length s - List.length s') s) :: c'))
  end.

Fixpoint search_from (r : re) (s : list ascii) : option Caps :=
  match run r s [] (fun _ c => Some c) with
  | Some c => Some c
  | None =>
      match s with
      | [] => None
      | _ :: s' => search_from r s'
      end
  end.

(** [s.match(r)] *)
Definition search (r : re) (s : string) : option Caps :=
  search_from r (list_ascii_of_string s).

(** [m[i]]: [None] is [undefined]. *)
Fixpoint group (i : nat) (c : Caps) : option string :=
  match c with
  | [] => None
  | (j, v) :: c' => if Nat.eqb i j then Some (string_of_list_ascii v) else group i c'
  end.

Definition plus (a : re) : re := Seq a (Star a).
Definition opt (a : re) : re := Alt a Eps.

(** A literal under the [i] flag. *)
Fixpoint lit_i (s : string) : re :=
  match s with
  | EmptyString => Eps
  | String a s' =>
      Seq (Chr (fun x => Ascii.eqb (Js.lowerChar x) (Js.lowerChar a))) (lit_i s')
  end.

Definition quote : re := Chr (fun x => Ascii.eqb x "034"%char).
Definition notQuote : re := Chr (fun x => negb (Ascii.eqb x "034"%char)).
Definition space : re := Chr Js.isSpace.
Definition digit : re := Chr Js.isDigit.
Definition dot : re := Chr (fun x => negb (Js.isLineTerminator x)).

Fixpoint seqs (l : list re) : re :=
  match l with
  | [] => Eps
  | [a] => a
  | a :: l' => Seq a (seqs l')
  end.

End Regex.

(** ** The natural-language layer of [CopilotPlaywrightAgent] *)
Module Copilot.

Import Regex.

(** The patterns of the source, with [Q] for the double quote character and
    [NQ] for the class of every other character.

    [/Q(NQ* )Q/] *)
Definition re_quoted : re := seqs [quote; Group 1 (Star notQuote); quote].

(** [/type\s+Q(NQ* )Q(?:\s+(?:in|into)\s+(.+))?/i] *)
Definition re_type : re :=
  seqs [lit_i "type"; plus space; quote; Group 1 (Star notQuote); quote;
        opt (seqs [plus space; Alt (lit_i "in") (lit_i "into"); plus space;
                   Group 2 (plus dot)])].

(** [/fill\s+(.+)\s+with\s+Q(NQ* )Q/i] *)
Definition re_fill : re :=
  seqs [lit_i "fill"; plus space; Group 1 (plus dot); plus space;
        lit_i "with"; plus space; quote; Group 2 (Star notQuote); quote].

(** [/(?:navigate|go)\s+to\s+(.+)/i] *)
Definition re_url : re :=
  seqs [Alt (lit_i "navigate") (lit_i "go"); plus space; lit_i "to";
        plus space; Group 1 (plus dot)].

(** [/wait\s+(?:for|until)\s+(.+)/i] *)
Definition re_wait_selector : re :=
  seqs [lit_i "wait"; plus space; Alt (lit_i "for") (lit_i "until");
        plus space; Group 1 (plus dot)].

(** [/wait\s+(\d+)\s*(?:ms|seconds?)/i] *)
Definition re_wait_time : re :=
  seqs [lit_i "wait"; plus space; Group 1 (plus digit); Star space;
        Alt (lit_i "ms") (Seq (lit_i "second") (opt (lit_i "s")))].

Definition extractClickTarget (command : string) : list string :=
  (if Js.includes "button" command then ["button"] else [])
  ++ (if Js.includes "submit" command
      then ["button[type=" ++ Js.dq ++ "submit" ++ Js.dq ++ "]";
            "input[type=" ++ Js.dq ++ "submit" ++ Js.dq ++ "]"]
      else [])
  ++ (if Js.includes "link" command then ["a"] else [])
  ++ match search re_quoted command with
     | Some m =>
         match group 1 m with
         | Some q => ["text=" ++ Js.dq ++ q ++ Js.dq;
                      "[aria-label=" ++ Js.dq ++ q ++ Js.dq ++ "]"]
         | None => []
         end
     | None => []
     end.

Record TypeData : Type :=
  { td_selector : option string; td_text : option string }.

Definition extractTypeData (command : string) : TypeData :=
  match search re_type command with
  | Some m =>
      {| td_text := group 1 m;
         td_selector :=
           match group 2 m with
           | Some sel => Some sel
           | None => Some "input"
           end |}
  | None =>
      match search re_fill command with
      | Some m => {| td_selector := group 1 m; td_text := group 2 m |}
      | None => {| td_selector := None; td_text := None |}
      end
  end.

Definition extractUrl (command : string) : option string :=
  match search re_url command with
  | Some m =>
      match group 1 m with
      | Some g =>
          let url := Js.trim g in
          Some (if Js.startsWith "http" url then url else "https://" ++ url)
      | None => None
      end
  | None => None
  end.

Inductive WaitCondition : Type :=
| WaitSelector (value : string)   (* { type: 'selector', value } *)
| WaitTimeout (value : Z).        (* { type: 'timeout', value } *)

Definition extractWaitCondition (command : string) : WaitCondition :=
  match search re_wait_selector command with
  | Some m =>
      match group 1 m with
      | Some sel => WaitSelector sel
      | None => WaitTimeout 1000
      end
  | None =>
      match search re_wait_time command with
      | Some m =>
          match group 1 m with
          | Some digits =>
              let time := Js.digitsValue (list_ascii_of_string digits) in
              let unit := if Js.includes "second" command then 1000%Z else 1%Z in
              WaitTimeout (time * unit)
          | None => WaitTimeout 1000
          end
      | None => WaitTimeout 1000
      end
  end.

Record ScrollData : Type := { sd_x : Z; sd_y : Z }.

Definition extractScrollData (command : string) : ScrollData :=
  if Js.includes "down" command then {| sd_x := 0; sd_y := 500 |}
  else if Js.includes "up" command then {| sd_x := 0; sd_y := -500 |}
  else if Js.includes "right" command then {| sd_x := 500; sd_y := 0 |}
  else if Js.includes "left" command then {| sd_x := -500; sd_y := 0 |}
  else {| sd_x := 0; sd_y := 500 |}.

Inductive FailureMessage : Type :=
| NotRecognized (command : string)
| NoClickableElement (command : string)
| NoTypeInformation (command : string)
| NoUrl (command : string).

Inductive CommandResult : Type :=
| Clicked (target command : string)
| Typed (selector text : string)
| Navigated (url : string)
| Waited (condition : WaitCondition)
| Screenshot (base64 : string) (fullPage : bool)
| Scrolled (x y : Z)
| Failure (message : FailureMessage).

(** The [success] field of a result. *)
Definition success (r : CommandResult) : bool :=
  match r with Failure _ => false | _ => true end.

Record Step : Type :=
  { step_name : string; step_command : string; step_context : option string }.

Inductive StepEntry : Type :=
| StepResult (step : string) (result : CommandResult)
| StepError (step : string) (error : Error).

Definition entry_step (e : StepEntry) : string :=
  match e with StepResult n _ => n | StepError n _ => n end.

(** The entry pushed for a step, by what the command did. *)
Definition entry_of (step : string) (o : Outcome CommandResult) : StepEntry :=
  match o with
  | Returned result => StepResult step result
  | Thrown error => StepError step error
  end.

Record WorkflowResult : Type :=
  { wr_success : bool; wr_workflow : list StepEntry }.

Section WithDriver.

Context {World : Type}.
Variable drv : Driver World.

Local Abbreviation Server := (@Registry.Server World).

(** [for (const target of clickTargets)
       try { await page.click(target); return {...} } catch { continue }] *)
Fixpoint clickFirst (page : Page) (command : string) (targets : list string)
  : M Server CommandResult :=
  match targets with
  | [] => ret (Failure (NoClickableElement command))
  | target :: rest =>
      try_catch
        (Registry.native (page_click drv page target) ;; ret (Clicked target command))
        (fun _ => clickFirst page command rest)
  end.

Definition handleClickCommand (page : Page) (command : string)
  : M Server CommandResult :=
  clickFirst page command (extractClickTarget command).

Definition truthy (s : option string) : option string :=
  match s with
  | Some EmptyString => None
  | other => other
  end.

Definition handleTypeCommand (page : Page) (command : string)
  : M Server CommandResult :=
  let typeData := extractTypeData command in
  match truthy (td_selector typeData), truthy (td_text typeData) with
  | Some selector, Some text =>
      Registry.native (page_fill drv page selector text) ;; ret (Typed selector text)
  | _, _ => ret (Failure (NoTypeInformation command))
  end.

Definition handleNavigateCommand (page : Page) (command : string)
  : M Server CommandResult :=
  match truthy (extractUrl command) with
  | Some url => Registry.native (page_goto drv page url) ;; ret (Navigated url)
  | None => ret (Failure (NoUrl command))
  end.

Definition handleWaitCommand (page : Page) (command : string)
  : M Server CommandResult :=
  match extractWaitCondition command with
  | WaitSelector value =>
      Registry.native (page_waitForSelector drv page value) ;;
      ret (Waited (WaitSelector value))
  | WaitTimeout value =>
      Registry.native (page_waitForTimeout drv page value) ;;
      ret (Waited (WaitTimeout value))
  end.

Definition handleScreenshotCommand (page : Page) (command : string)
  : M Server CommandResult :=
  let fullPage := Js.includes "full" command || Js.includes "entire" command in
  base64 <- Registry.native (page_screenshot drv page fullPage) ;;
  ret (Screenshot base64 fullPage).

Definition handleScrollCommand (page : Page) (command : string)
  : M Server CommandResult :=
  let scrollData := extractScrollData command in
  Registry.native (page_evaluate drv page
              (ScrollBy (sd_x scrollData) (sd_y scrollData))) ;;
  ret (Scrolled (sd_x scrollData) (sd_y scrollData)).

Definition executeNaturalLanguageCommand (command pageId : string)
  (context : option string) : M Server CommandResult :=
  page <- Registry.getOrThrow Registry.pages KPage pageId ;;
  let lowerCommand := Js.toLowerCase command in
  if Js.includes "click" lowerCommand || Js.includes "press" lowerCommand
  then handleClickCommand page command
  else if Js.includes "type" lowerCommand || Js.includes "fill" lowerCommand
          || Js.includes "enter" lowerCommand
  then handleTypeCommand page command
  else if Js.includes "navigate" lowerCommand || Js.includes "go to" lowerCommand
  then handleNavigateCommand page command
  else if Js.includes "wait" lowerCommand || Js.includes "until" lowerCommand
  then handleWaitCommand page command
  else if Js.includes "screenshot" lowerCommand
          || Js.includes "capture" lowerCommand
  then handleScreenshotCommand page command
  else if Js.includes "scroll" lowerCommand
  then handleScrollCommand page command
  else ret (Failure (NotRecognized command)).

(** [for (const step of workflow) { try {...; results.push({step, result})}
                                    catch (error) {results.push({step, error})} }] *)
Fixpoint workflowLoop (pageId : string) (steps : list Step)
  (results : list StepEntry) : M Server (list StepEntry) :=
  match steps with
  | [] => ret results
  | step :: rest =>
      results' <-
        try_catch
          (result <- executeNaturalLanguageCommand
                       (step_command step) pageId (step_context step) ;;
           ret (results ++ [StepResult (step_name step) result])%list)
          (fun error => ret (results ++ [StepError (step_name step) error])%list) ;;
      workflowLoop pageId rest results'
  end.

Definition executeWorkflow (workflow : list Step) (pageId : string)
  : M Server WorkflowResult :=
  results <- workflowLoop pageId workflow [] ;;
  ret {| wr_success := true; wr_workflow := results |}.

(** The server after the commands of a list of steps have been run on it
    one after the other, each on what the one before left, whether it
    returned or threw. *)
Definition after_steps (pageId : string) (steps : list Step) (s : Server)
  : Server :=
  fold_left
    (fun s' step =>
       snd (executeNaturalLanguageCommand (step_command step) pageId
              (step_context step) s'))
    steps s.

End WithDriver.
End Copilot.

(** ** The socket server [AIWebAutomationServer] *)
Module AIServer.

Record Socket : Type := { socket_id : string }.

Record ActionPlan : Type :=
  { action : string; target : string; value : string;
    description : string; steps : list string }.

(** One entry of [activeSessions]. *)
Record Session : Type :=
  { s_browser : option Browser;
    s_page : option Page;
    s_actionHistory : list (string * ActionPlan) }.

Inductive StatusType : Type :=
| info | success | error | warning | connection_success | browser_init.

(** The texts handed to [emitStatus], with the values spliced into them. *)
Inductive StatusMessage : Type :=
| InvalidWaitDuration (duration : string)
    (* Invalid wait duration: <duration>. Defaulting to 2000ms. *)
| Waiting (waitTime : Z)              (* Waiting <waitTime>ms... *)
| WaitComplete                        (* Wait complete *)
| Scrolling (direction : string)      (* Scrolling <direction>... *)
| UnknownScrollDirection (direction : string)
    (* Unknown scroll direction: <direction>. Use up, down, top, or bottom. *)
| ScrolledTo (direction : string)     (* Scrolled <direction> *)
| ScrollFailed (e : Error)            (* Scroll failed: <message> *)
| BrowserPageClosed.                  (* Browser page closed *)

Record StatusUpdate : Type :=
  { su_message : StatusMessage; su_type : StatusType }.

Inductive ConsoleLine : Type :=
| LogStatus (socketId : string) (m : StatusMessage)
| LogCleaningUp (socketId : string)
| LogPageClosed (socketId : string)
| ErrPageClose (socketId : string) (e : Error)
| LogBrowserClosed (socketId : string)
| ErrBrowserClose (socketId : string) (e : Error)
| LogSessionRemoved (socketId : string)
| WarnStrategyFailed (selector : string) (e : Error)
| LogPageClosedForSession (socketId : string)
    (* [Playwright] Page closed for session <socketId> *)
| LogShuttingDown (sigterm : bool).
    (* Shutting down server gracefully... /
       SIGTERM received. Shutting down gracefully... *)

(** [(page, selector) => page.locator(...).first()], in the order of the
    array [PLAYWRIGHT_SELECTOR_STRATEGIES]. *)
Definition PLAYWRIGHT_SELECTOR_STRATEGIES : list (Page -> string -> Locator) :=
  [ (fun page selector =>
       {| loc_page := page; loc_selector := selector |});
    (fun page selector =>
       {| loc_page := page; loc_selector := "text=" ++ selector |});
    (fun page selector =>
       {| loc_page := page;
          loc_selector := "[aria-label*=" ++ Js.dq ++ selector ++ Js.dq ++ " i]" |});
    (fun page selector =>
       {| loc_page := page;
          loc_selector := "[title*=" ++ Js.dq ++ selector ++ Js.dq ++ " i]" |});
    (fun page selector =>
       {| loc_page := page;
          loc_selector := "[placeholder*=" ++ Js.dq ++ selector ++ Js.dq ++ " i]" |});
    (fun page selector =>
       {| loc_page := page;
          loc_selector := "button:has-text(" ++ Js.dq ++ selector ++ Js.dq ++ ")" |});
    (fun page selector =>
       {| loc_page := page;
          loc_selector := "a:has-text(" ++ Js.dq ++ selector ++ Js.dq ++ ")" |});
    (fun page selector =>
       {| loc_page := page;
          loc_selector := "*:has-text(" ++ Js.dq ++ selector ++ Js.dq ++ ")" |}) ].

Section WithDriver.

Context {World : Type}.
Variable drv : Driver World.
Variable events : PageEvents World.

Record Server : Type :=
  { activeSessions : JsMap.t Session;
    emitted : list (string * StatusUpdate);   (* socket.emit, oldest first *)
    console : list ConsoleLine;               (* oldest first *)
    world : World }.

Definition native {A : Type} (op : World -> Outcome A * World) : M Server A :=
  fun s =>
    let (o, w) := op (world s) in
    (o, {| activeSessions := activeSessions s; emitted := emitted s;
           console := console s; world := w |}).

Definition consoleWrite (line : ConsoleLine) : M Server unit :=
  modify (fun s =>
    {| activeSessions := activeSessions s; emitted := emitted s;
       console := (console s ++ [line])%list; world := world s |}).

(** [emitStatus(socket, message, type = "info")] *)
Definition emitStatus (socket : Socket) (message : StatusMessage)
  (type : StatusType) : M Server unit :=
  consoleWrite (LogStatus (socket_id socket) message) ;;
  modify (fun s =>
    {| activeSessions := activeSessions s;
       emitted := (emitted s
                   ++ [(socket_id socket,
                        {| su_message := message; su_type := type |})])%list;
       console := console s; world := world s |}).

(** The last three statements of [handleWait]: announce, wait, confirm. *)
Definition waitFor (socket : Socket) (page : Page) (waitTime : Z)
  : M Server unit :=
  emitStatus socket (Waiting waitTime) info ;;
  native (page_waitForTimeout drv page waitTime) ;;
  emitStatus socket WaitComplete success.

(** [handleWait].  The method calls itself; [fuel] bounds the number of
    activations and [None] means the bound was reached.

    [waitTime] is [parseInt(duration, 10) || 2000]; the test
    [isNaN(waitTime) || waitTime <= 0] is taken by cases on [waitTime]. *)
Fixpoint handleWait (fuel : nat) (socket : Socket) (page : Page)
  (duration : string) (s : Server) : option (Outcome unit * Server) :=
  match fuel with
  | O => None
  | S fuel' =>
      let waitTime := Js.orElse (Js.parseInt duration) 2000 in
      let invalid :=
        match emitStatus socket (InvalidWaitDuration duration) warning s with
        | (Returned _, s1) => handleWait fuel' socket page "2000" s1
        | (Thrown e, s1) => Some (Thrown e, s1)
        end in
      match waitTime with
      | Js.NaN => invalid                                (* isNaN(waitTime) *)
      | Js.Int ms =>
          if (ms <=? 0)%Z then invalid                   (* waitTime <= 0 *)
          else Some (waitFor socket page ms s)
      end
  end.

(** The [switch] of [handleScroll]: [true] when a [case] ran and control
    left through [break], [false] when the [default] branch returned. *)
Definition scrollSwitch (socket : Socket) (page : Page) (direction : string)
  : M Server bool :=
  let scrollAmount := 500%Z in
  let d := Js.toLowerCase direction in
  if String.eqb d "down"
  then native (page_evaluate drv page (ScrollBy 0 scrollAmount)) ;; ret true
  else if String.eqb d "up"
  then native (page_evaluate drv page (ScrollBy 0 (- scrollAmount))) ;; ret true
  else if String.eqb d "top" || String.eqb d "home"
  then native (page_evaluate drv page ScrollToTop) ;; ret true
  else if String.eqb d "bottom"
  then native (page_evaluate drv page ScrollToBottom) ;; ret true
  else emitStatus socket (UnknownScrollDirection direction) warning ;; ret false.

Definition handleScroll (socket : Socket) (page : Page) (direction : string)
  : M Server unit :=
  try_catch
    (emitStatus socket (Scrolling direction) info ;;
     broke <- scrollSwitch socket page direction ;;
     if broke : bool
     then emitStatus socket (ScrolledTo direction) success
     else ret tt)
    (fun e => emitStatus socket (ScrollFailed e) error ;; throw e).

(** What [handleScroll] does with a direction it knows, [script] being the
    scroll of that direction, and with one it does not know. *)
Definition scrolled_by (script : Script) (socket : Socket) (page : Page)
  (direction : string) : M Server unit :=
  try_catch
    (emitStatus socket (Scrolling direction) info ;;
     native (page_evaluate drv page script) ;;
     emitStatus socket (ScrolledTo direction) success)
    (fun e => emitStatus socket (ScrollFailed e) error ;; throw e).

Definition scroll_refused (socket : Socket) (direction : string)
  : M Server unit :=
  emitStatus socket (Scrolling direction) info ;;
  emitStatus socket (UnknownScrollDirection direction) warning.

(** The status updates sent to a socket. *)
Definition sent_to (socket : Socket) (s : Server) : list StatusUpdate :=
  map snd
    (filter (fun e => String.eqb (fst e) (socket_id socket)) (emitted s)).

Definition is_warning (u : StatusUpdate) : bool :=
  match su_type u with warning => true | _ => false end.

(** The body of the [try] inside the loop of [findElement]: [Some element]
    is [return element], [None] falls out of the [if]s. *)
Definition probe (strategy : Page -> string -> Locator) (page : Page)
  (selector : string) : M Server (option Locator) :=
  let element := strategy page selector in
  n <- native (locator_count drv element) ;;
  if (0 <? n)%nat
  then visible <- native (locator_isVisible drv element) ;;
       if visible : bool then ret (Some element) else ret None
  else ret None.

(** One turn of the loop: the [try] with its [catch], which logs and goes
    on. *)
Definition attempt (strategy : Page -> string -> Locator) (page : Page)
  (selector : string) : M Server (option Locator) :=
  try_catch (probe strategy page selector)
    (fun e => consoleWrite (WarnStrategyFailed selector e) ;; ret None).

Fixpoint findElementIn (strategies : list (Page -> string -> Locator))
  (page : Page) (selector : string) : M Server (option Locator) :=
  match strategies with
  | [] => ret None
  | strategy :: rest =>
      found <- attempt strategy page selector ;;
      match found with
      | Some element => ret (Some element)
      | None => findElementIn rest page selector
      end
  end.

Definition findElement (page : Page) (selector : string)
  : M Server (option Locator) :=
  findElementIn PLAYWRIGHT_SELECTOR_STRATEGIES page selector.

(** The locator has at least one match and the first match is visible, as
    the driver answers in world [w]. *)
Definition visible_match (element : Locator) (w : World) : bool :=
  match locator_count drv element w with
  | (Returned n, w1) =>
      (0 <? n)%nat
      && match locator_isVisible drv element w1 with
         | (Returned visible, _) => visible
         | (Thrown _, _) => false
         end
  | (Thrown _, _) => false
  end.

(** The server after the loop has gone through a list of strategies
    without returning. *)
Fixpoint after_attempts (strategies : list (Page -> string -> Locator))
  (page : Page) (selector : string) (s : Server) : Server :=
  match strategies with
  | [] => s
  | strategy :: rest =>
      after_attempts rest page selector (snd (attempt strategy page selector s))
  end.

(** The console line that follows [session.page.close()] and the one that
    follows [session.browser.close()]. *)
Definition page_close_line (socketId : string) (o : Outcome unit)
  : ConsoleLine :=
  match o with
  | Returned _ => LogPageClosed socketId
  | Thrown e => ErrPageClose socketId e
  end.

Definition browser_close_line (socketId : string) (o : Outcome unit)
  : ConsoleLine :=
  match o with
  | Returned _ => LogBrowserClosed socketId
  | Thrown e => ErrBrowserClose socketId e
  end.

(** The world in which [session.browser.close()] runs: the one the page's
    [close] left. *)
Definition world_after_page (session : Session) (w : World) : World :=
  match s_page session with
  | Some page => snd (page_close drv page w)
  | None => w
  end.

Definition deleteSession (socketId : string) : M Server unit :=
  modify (fun s =>
    {| activeSessions := JsMap.delete socketId (activeSessions s);
       emitted := emitted s; console := console s; world := world s |}).

(** [const session = this.activeSessions.get(socket.id);
     if (session) { session.page = null; }] on the map of sessions. *)
Definition forgetIn (socketId : string) (sessions : JsMap.t Session)
  : JsMap.t Session :=
  match JsMap.get socketId sessions with
  | Some session =>
      JsMap.set socketId
        {| s_browser := s_browser session; s_page := None;
           s_actionHistory := s_actionHistory session |}
        sessions
  | None => sessions
  end.

(** The listener that [setupPageEventListeners] puts on the page of a
    session for the event [close]; [initializeBrowser] is the one place
    that gives a session its page, and it puts the listeners on it with
    the socket of that session. *)
Definition onPageClose (socket : Socket) : M Server unit :=
  emitStatus socket BrowserPageClosed info ;;
  consoleWrite (LogPageClosedForSession (socket_id socket)) ;;
  modify (fun s =>
    {| activeSessions := forgetIn (socket_id socket) (activeSessions s);
       emitted := emitted s; console := console s; world := world s |}).

(** An awaited close [op] during which the page of the session of [socket]
    emits [close] or not, as [fired] tells for the world the call starts
    from: the listener has run when the call settles. *)
Definition closing (fired : World -> bool) (socket : Socket)
  (op : World -> Outcome unit * World) : M Server unit :=
  fun s =>
    let (o, s1) := native op s in
    (o, if fired (world s) then snd (onPageClose socket s1) else s1).

(** Does the page of the session emit [close] during the first close of
    [cleanupSession], and during the second? *)
Definition page_close_fired (session : Session) (w : World) : bool :=
  match s_page session with
  | Some page => close_on_page_close events page w
  | None => false
  end.

Definition browser_close_fired (session : Session) (w : World) : bool :=
  match s_browser session, s_page session with
  | Some browser, Some page => close_on_browser_close events browser page w
  | _, _ => false
  end.

Definition cleanupSession (socketId : string) : M Server unit :=
  found <- gets (fun s => JsMap.get socketId (activeSessions s)) ;;
  match found with
  | None => ret tt
  | Some session =>
      let socket := {| socket_id := socketId |} in
      consoleWrite (LogCleaningUp socketId) ;;
      match s_page session with
      | Some page =>
          try_catch
            (closing (page_close_fired session) socket (page_close drv page) ;;
             consoleWrite (LogPageClosed socketId))
            (fun e => consoleWrite (ErrPageClose socketId e))
      | None => ret tt
      end ;;
      match s_browser session with
      | Some browser =>
          try_catch
            (closing (browser_close_fired session) socket
               (browser_close drv browser) ;;
             consoleWrite (LogBrowserClosed socketId))
            (fun e => consoleWrite (ErrBrowserClose socketId e))
      | None => ret tt
      end ;;
      deleteSession socketId ;;
      consoleWrite (LogSessionRemoved socketId)
  end.

(** What the listener writes to the console and sends to the socket when
    it runs. *)
Definition close_event_lines (socketId : string) (fired : bool)
  : list ConsoleLine :=
  if fired
  then [LogStatus socketId BrowserPageClosed; LogPageClosedForSession socketId]
  else [].

Definition close_event_updates (socketId : string) (fired : bool)
  : list (string * StatusUpdate) :=
  if fired
  then [(socketId, {| su_message := BrowserPageClosed; su_type := info |})]
  else [].

(** The console lines of one [cleanupSession] of a session, and what it
    sends to the socket. *)
Definition cleanup_lines (socketId : string) (session : Session) (w : World)
  : list ConsoleLine :=
  ([LogCleaningUp socketId]
   ++ match s_page session with
      | Some page =>
          close_event_lines socketId (page_close_fired session w)
          ++ [page_close_line socketId (fst (page_close drv page w))]
      | None => []
      end
   ++ match s_browser session with
      | Some browser =>
          close_event_lines socketId
            (browser_close_fired session (world_after_page session w))
          ++ [browser_close_line socketId
                (fst (browser_close drv browser (world_after_page session w)))]
      | None => []
      end
   ++ [LogSessionRemoved socketId])%list.

Definition cleanup_updates (socketId : string) (session : Session) (w : World)
  : list (string * StatusUpdate) :=
  (match s_page session with
   | Some _ => close_event_updates socketId (page_close_fired session w)
   | None => []
   end
   ++ match s_browser session with
      | Some _ =>
          close_event_updates socketId
            (browser_close_fired session (world_after_page session w))
      | None => []
      end)%list.

End WithDriver.
End AIServer.

(** ** Well-formed registries

    A registry reached through the creation calls holds every key once,
    every object under one key, and every handle's owner in the map above. *)
Module Hierarchy.

Fixpoint distinct_strings (l : list string) : bool :=
  match l with
  | [] => true
  | x :: l' => negb (existsb (String.eqb x) l') && distinct_strings l'
  end.

Fixpoint distinct_nats (l : list nat) : bool :=
  match l with
  | [] => true
  | x :: l' => negb (existsb (Nat.eqb x) l') && distinct_nats l'
  end.

Section WithWorld.

Context {World : Type}.

Local Abbreviation Server := (@Registry.Server World).

Definition keys_ok (s : Server) : bool :=
  distinct_strings (JsMap.keys (Registry.browsers s))
  && distinct_strings (JsMap.keys (Registry.contexts s))
  && distinct_strings (JsMap.keys (Registry.pages s)).

Definition objects_ok (s : Server) : bool :=
  distinct_nats (map b_ref (JsMap.values (Registry.browsers s)))
  && distinct_nats (map c_ref (JsMap.values (Registry.contexts s)))
  && distinct_nats (map p_ref (JsMap.values (Registry.pages s))).

Definition owners_ok (s : Server) : bool :=
  forallb (fun c => existsb (fun b => Registry.context_in b c)
                      (JsMap.values (Registry.browsers s)))
    (JsMap.values (Registry.contexts s))
  && forallb (fun p => existsb (fun c => Registry.page_in c p)
                         (JsMap.values (Registry.contexts s)))
       (JsMap.values (Registry.pages s)).

Definition valid (s : Server) : bool := keys_ok s && objects_ok s && owners_ok s.

(** The contexts of a browser and the pages below it, as the maps record
    them. *)
Definition child_contexts (b : Browser) (s : Server) : list BrowserContext :=
  filter (Registry.context_in b) (JsMap.values (Registry.contexts s)).

Definition below_browser (b : Browser) (s : Server) (p : Page) : bool :=
  existsb (fun c => Registry.page_in c p) (child_contexts b s).

(** What [closeBrowser] and [closeContext] leave of the maps when they
    return. *)
Definition closed_browser (browserId : string) (b : Browser) (s s' : Server)
  : Prop :=
  Registry.browsers s' = JsMap.delete browserId (Registry.browsers s)
  /\ Registry.contexts s'
     = filter (fun e => negb (Registry.context_in b (snd e)))
         (Registry.contexts s)
  /\ Registry.pages s'
     = filter (fun e => negb (below_browser b s (snd e))) (Registry.pages s).

Definition closed_context (contextId : string) (c : BrowserContext)
  (s s' : Server) : Prop :=
  Registry.browsers s' = Registry.browsers s
  /\ Registry.contexts s' = JsMap.delete contextId (Registry.contexts s)
  /\ Registry.pages s'
     = filter (fun e => negb (Registry.page_in c (snd e))) (Registry.pages s).


(** Nothing of the closed subtree is left: neither the key nor the object
    of the handle, nor a handle below it. *)
Definition browser_gone (browserId : string) (b : Browser) (s s' : Server)
  : Prop :=
  JsMap.get browserId (Registry.browsers s') = None
  /\ (forall k b', In (k, b') (Registry.browsers s') -> b_ref b' <> b_ref b)
  /\ (forall k c, In (k, c) (Registry.contexts s) ->
       Registry.context_in b c = true ->
       JsMap.get k (Registry.contexts s') = None)
  /\ (forall k c, In (k, c) (Registry.contexts s') ->
       Registry.context_in b c = false)
  /\ (forall k p, In (k, p) (Registry.pages s) ->
       below_browser b s p = true -> JsMap.get k (Registry.pages s') = None)
  /\ (forall k p, In (k, p) (Registry.pages s') ->
       below_browser b s p = false).

Definition context_gone (contextId : string) (c : BrowserContext)
  (s s' : Server) : Prop :=
  JsMap.get contextId (Registry.contexts s') = None
  /\ (forall k c', In (k, c') (Registry.contexts s') -> c_ref c' <> c_ref c)
  /\ (forall k p, In (k, p) (Registry.pages s) ->
       Registry.page_in c p = true -> JsMap.get k (Registry.pages s') = None)
  /\ (forall k p, In (k, p) (Registry.pages s') ->
       Registry.page_in c p = false).

(** What a close that throws leaves: the entry of the handle it was asked
    to close, and every entry outside the subtree of that handle; the maps
    gain nothing. *)
Definition kept_outside_browser (b : Browser) (s s' : Server) : Prop :=
  Registry.browsers s' = Registry.browsers s
  /\ incl (Registry.contexts s') (Registry.contexts s)
  /\ incl (Registry.pages s') (Registry.pages s)
  /\ (forall k c, In (k, c) (Registry.contexts s) ->
       Registry.context_in b c = false -> In (k, c) (Registry.contexts s'))
  /\ (forall k p, In (k, p) (Registry.pages s) ->
       below_browser b s p = false -> In (k, p) (Registry.pages s')).

Definition kept_outside_context (c : BrowserContext) (s s' : Server) : Prop :=
  Registry.browsers s' = Registry.browsers s
  /\ Registry.contexts s' = Registry.contexts s
  /\ incl (Registry.pages s') (Registry.pages s)
  /\ (forall k p, In (k, p) (Registry.pages s) ->
       Registry.page_in c p = false -> In (k, p) (Registry.pages s')).

(** The three maps are the same in both states. *)
Definition same_maps (s s' : Server) : Prop :=
  Registry.browsers s' = Registry.browsers s
  /\ Registry.contexts s' = Registry.contexts s
  /\ Registry.pages s' = Registry.pages s.


(** No driver close operation throws. *)
Definition closes_succeed (drv : Driver World) : Prop :=
  (forall p w, fst (page_close drv p w) = Returned tt)
  /\ (forall c w, fst (context_close drv c w) = Returned tt)
  /\ (forall b w, fst (browser_close drv b w) = Returned tt).

End WithWorld.
End Hierarchy.

(** ** A close that a throwing driver call interrupts

    What the close methods have done by the time a driver close throws, told
    by the closes they made: which ones returned, in which order and from
    which world, and which one threw. *)
Module Interrupted.
Section WithDriver.

Context {World : Type}.
Variable drv : Driver World.

Local Abbreviation Server := (@Registry.Server World).







(** A handle of the registry, with the key it is stored under. *)
Inductive Handle : Type :=
| HPage (k : string) (p : Page)
| HContext (k : string) (c : BrowserContext)
| HBrowser (k : string) (b : Browser).


(** The driver close of a handle. *)
Definition close_of (h : Handle) : World -> Outcome unit * World :=
  match h with
  | HPage _ p => page_close drv p
  | HContext _ c => context_close drv c
  | HBrowser _ b => browser_close drv b
  end.



End WithDriver.
End Interrupted.

(** ** A small driver to run the servers on

    The world counts the objects made so far, lists the objects whose
    [close] throws, the selectors that match a visible element and the
    selectors that cannot be clicked or filled, and records the scripts
    evaluated and the timeouts waited for, oldest first. *)
Module Sample.

Record World : Type :=
  { made : nat;
    stuck : list nat;
    visible : list string;
    absent : list string;
    scripts : list Script;
    waits : list Z }.

Definition fresh (w : World) : Outcome nat * World :=
  (Returned (made w),
   {| made := S (made w); stuck := stuck w;
      visible := visible w; absent := absent w;
      scripts := scripts w; waits := waits w |}).

Definition close_of (ref : nat) (w : World) : Outcome unit * World :=
  if existsb (Nat.eqb ref) (stuck w)
  then (Thrown (DriverError "Target closed"), w)
  else (Returned tt, w).

Definition act_on (selector : string) (w : World) : Outcome unit * World :=
  if existsb (String.eqb selector) (absent w)
  then (Thrown (DriverError "Timeout exceeded"), w)
  else (Returned tt, w).

Definition driver : Driver World :=
  {| launch := fun _ _ => fresh;
     newContext := fun _ _ => fresh;
     newPage := fun _ => fresh;
     browser_close := fun b => close_of (b_ref b);
     context_close := fun c => close_of (c_ref c);
     page_close := fun p => close_of (p_ref p);
     page_goto := fun _ _ w => (Returned tt, w);
     page_click := fun _ selector => act_on selector;
     page_fill := fun _ selector _ => act_on selector;
     page_waitForSelector := fun _ selector => act_on selector;
     page_waitForTimeout :=
       fun _ ms w =>
         (Returned tt,
          {| made := made w; stuck := stuck w; visible := visible w;
             absent := absent w; scripts := scripts w;
             waits := (waits w ++ [ms])%list |});
     page_screenshot := fun _ _ w => (Returned "iVBORw0KGgo=", w);
     page_evaluate :=
       fun _ script w =>
         (Returned tt,
          {| made := made w; stuck := stuck w; visible := visible w;
             absent := absent w; scripts := (scripts w ++ [script])%list;
             waits := waits w |});
     locator_count :=
       fun l w =>
         (Returned (if existsb (String.eqb (loc_selector l)) (visible w)
                    then 1%nat else 0%nat), w);
     locator_isVisible :=
       fun l w =>
         (Returned (existsb (String.eqb (loc_selector l)) (visible w)), w) |}.

(** The same driver with closes that never throw. *)
Definition steady : Driver World :=
  {| launch := launch driver;
     newContext := newContext driver;
     newPage := newPage driver;
     browser_close := fun _ w => (Returned tt, w);
     context_close := fun _ w => (Returned tt, w);
     page_close := fun _ w => (Returned tt, w);
     page_goto := page_goto driver;
     page_click := page_click driver;
     page_fill := page_fill driver;
     page_waitForSelector := page_waitForSelector driver;
     page_waitForTimeout := page_waitForTimeout driver;
     page_screenshot := page_screenshot driver;
     page_evaluate := page_evaluate driver;
     locator_count := locator_count driver;
     locator_isVisible := locator_isVisible driver |}.

(** The page emits [close] during its own close when that returns, and
    during the close of its browser when that returns and the page's own
    close would not. *)
Definition events : PageEvents World :=
  {| close_on_page_close :=
       fun p w => negb (existsb (Nat.eqb (p_ref p)) (stuck w));
     close_on_browser_close :=
       fun b p w =>
         negb (existsb (Nat.eqb (b_ref b)) (stuck w))
         && existsb (Nat.eqb (p_ref p)) (stuck w) |}.

Definition calm : World :=
  {| made := 10; stuck := []; visible := []; absent := [];
     scripts := []; waits := [] |}.

Definition b1 : Browser := {| b_ref := 1; b_kind := Chromium |}.
Definition b2 : Browser := {| b_ref := 2; b_kind := Firefox |}.
Definition c1 : BrowserContext := {| c_ref := 3; c_browser := 1 |}.
Definition c2 : BrowserContext := {| c_ref := 4; c_browser := 2 |}.
Definition p1 : Page := {| p_ref := 5; p_context := 3 |}.
Definition p2 : Page := {| p_ref := 6; p_context := 3 |}.
Definition p3 : Page := {| p_ref := 7; p_context := 4 |}.

(** Two browsers; the first owns context [c1] with pages [p1] and [p2], the
    second owns context [c2] with page [p3]. *)
Definition registry (w : World) : Registry.Server :=
  {| Registry.browsers := [("b1", b1); ("b2", b2)];
     Registry.contexts := [("c1", c1); ("c2", c2)];
     Registry.pages := [("p1", p1); ("p2", p2); ("p3", p3)];
     Registry.world := w |}.

(** A registry with nothing in it, and the one built from it by the
    calls of a session start: one browser, one context, one page. *)
Definition nothing (w : World) : Registry.Server :=
  {| Registry.browsers := []; Registry.contexts := [];
     Registry.pages := []; Registry.world := w |}.

Definition started (w : World) : Registry.Server :=
  snd (Registry.createPage driver "ctx" "page"
         (snd (Registry.createContext driver "main" "ctx"
                 (Some {| vp_width := 1920; vp_height := 1080 |}) None
                 (snd (Registry.launchBrowser driver "chromium" true "main"
                         (nothing w)))))).

(** A socket server with one session that holds browser [b1] and page
    [p1]. *)
Definition socket : AIServer.Socket := {| AIServer.socket_id := "sock" |}.

Definition session : AIServer.Session :=
  {| AIServer.s_browser := Some b1; AIServer.s_page := Some p1;
     AIServer.s_actionHistory := [] |}.

Definition ai_server (w : World) : AIServer.Server :=
  {| AIServer.activeSessions := [("sock", session)];
     AIServer.emitted := [];
     AIServer.console := [];
     AIServer.world := w |}.

(** A world where closing page [p1] throws. *)
Definition p1_stuck : World :=
  {| made := 10; stuck := [5]; visible := []; absent := [];
     scripts := []; waits := [] |}.

(** A world whose page shows a link with the text Login. *)
Definition login_page : World :=
  {| made := 10; stuck := [];
     visible := ["text=Login";
                 "a:has-text(" ++ Js.dq ++ "Login" ++ Js.dq ++ ")"];
     absent := []; scripts := []; waits := [] |}.

(** A workflow of three steps; the second one fills a field that the
    world [no_email] does not have. *)
Definition workflow : list Copilot.Step :=
  [ {| Copilot.step_name := "open"; Copilot.step_command := "go to example.com";
       Copilot.step_context := None |};
    {| Copilot.step_name := "email";
       Copilot.step_command := "fill #email with " ++ Js.dq ++ "a@b.c" ++ Js.dq;
       Copilot.step_context := None |};
    {| Copilot.step_name := "down"; Copilot.step_command := "scroll down";
       Copilot.step_context := None |} ].

Definition no_email : World :=
  {| made := 10; stuck := []; visible := []; absent := ["#email"];
     scripts := []; waits := [] |}.

(** The same registry on a world where closing page [p2] throws. *)
Definition p2_stuck : World :=
  {| made := 10; stuck := [6]; visible := []; absent := [];
     scripts := []; waits := [] |}.

End Sample.

(** ** The page tools of [PlaywrightMCPServer] and its JSON-RPC loop *)
Module Tools.

(** The driver operations that only these tools use.  [page.screenshot]
    answers with a buffer, of which the tool reports the length; [evaluate]
    answers with a value, kept here as its JSON text. *)
Record PageDriver (World : Type) : Type :=
  { page_textContent : Page -> string -> World -> Outcome (option string) * World;
    page_screenshotTo :
      Page -> bool -> option string -> World -> Outcome nat * World;
    page_waitForSelectorIn : Page -> string -> Z -> World -> Outcome unit * World;
    page_evaluateScript : Page -> string -> World -> Outcome string * World }.

Arguments page_textContent {World}.
Arguments page_screenshotTo {World}.
Arguments page_waitForSelectorIn {World}.
Arguments page_evaluateScript {World}.

(** The [arguments] object of a [tools/call] request, every field a tool
    may read; a tool ignores the fields it does not read.  The fields that
    some tool requires hold a string; the optional ones may be missing. *)
Record Args : Type :=
  { a_browser : string;
    a_headless : option bool;
    a_browserId : string;
    a_contextId : string;
    a_pageId : string;
    a_viewport : option Viewport;
    a_userAgent : option string;
    a_url : string;
    a_selector : string;
    a_value : string;
    a_path : option string;
    a_fullPage : option bool;
    a_timeout : option Z;
    a_script : string }.

(** What a tool returns; [success: true] is in all of them. *)
Inductive ToolResult : Type :=
| BrowserLaunched (browserId browserType : string)
| ContextCreated (contextId : string)
| PageCreated (pageId : string)
| Navigated (url : string)
| Clicked (selector : string)
| Filled (selector value : string)
| TextOf (text : option string)
| ScreenshotTaken (path : string) (size : nat)
| SelectorAppeared (selector : string)
| Evaluated (result : string)
| PageClosed (pageId : string)
| ContextClosed (contextId : string)
| BrowserClosed (browserId : string).

(** What the [catch] of [handleToolCall] may receive: the error of the
    [default] branch, or what a tool threw. *)
Inductive ToolError : Type :=
| UnknownTool (name : string)     (* `Unknown tool: ${name}` *)
| ToolThrew (e : Error).

Inductive RequestId : Type :=
| IdNumber (n : Z)
| IdString (s : string).

(** A request; [params] is [{ name, arguments }]. *)
Record Request : Type :=
  { req_id : RequestId;
    req_method : string;
    req_name : string;
    req_arguments : Args }.

Inductive Failure : Type :=
| MethodNotFound (method : string)          (* `Method not found: ${method}` *)
| ToolExecutionFailed (e : ToolError)       (* `Tool execution failed: ...` *)
| InternalError (e : Error).                (* `Internal error: ...` *)

(** One line written to the standard output. *)
Inductive Message : Type :=
| InitializeResult (id : RequestId)
| ToolsListResult (id : RequestId) (tools : list (string * list string))
| ToolCallResult (id : RequestId) (result : ToolResult)
| ErrorResponse (id : RequestId) (code : Z) (failure : Failure).

Definition message_id (m : Message) : RequestId :=
  match m with
  | InitializeResult id => id
  | ToolsListResult id _ => id
  | ToolCallResult id _ => id
  | ErrorResponse id _ _ => id
  end.

(** The tools that [handleToolsList] advertises, each with the [required]
    list of its input schema. *)
Definition tools : list (string * list string) :=
  [ ("launch_browser", ["browser"; "browserId"]);
    ("create_context", ["browserId"; "contextId"]);
    ("create_page", ["contextId"; "pageId"]);
    ("navigate", ["pageId"; "url"]);
    ("click", ["pageId"; "selector"]);
    ("fill", ["pageId"; "selector"; "value"]);
    ("get_text", ["pageId"; "selector"]);
    ("screenshot", ["pageId"]);
    ("wait_for_selector", ["pageId"; "selector"]);
    ("evaluate", ["pageId"; "script"]);
    ("close_page", ["pageId"]);
    ("close_context", ["contextId"]);
    ("close_browser", ["browserId"]) ].

Section WithDriver.

Context {World : Type}.
Variable drv : Driver World.
Variable pdrv : PageDriver World.

Local Abbreviation Server := (@Registry.Server World).

Definition navigate (pageId url : string) : M Server ToolResult :=
  page <- Registry.getOrThrow Registry.pages KPage pageId ;;
  Registry.native (page_goto drv page url) ;;
  ret (Navigated url).

Definition click (pageId selector : string) : M Server ToolResult :=
  page <- Registry.getOrThrow Registry.pages KPage pageId ;;
  Registry.native (page_click drv page selector) ;;
  ret (Clicked selector).

Definition fill (pageId selector value : string) : M Server ToolResult :=
  page <- Registry.getOrThrow Registry.pages KPage pageId ;;
  Registry.native (page_fill drv page selector value) ;;
  ret (Filled selector value).

Definition getText (pageId selector : string) : M Server ToolResult :=
  page <- Registry.getOrThrow Registry.pages KPage pageId ;;
  text <- Registry.native (page_textContent pdrv page selector) ;;
  ret (TextOf text).

(** [const options = { fullPage }; if (path) options.path = path;]
    and the reply has [path || "screenshot taken"]. *)
Definition screenshot (pageId : string) (path : option string)
  (fullPage : option bool) : M Server ToolResult :=
  let fullPage := match fullPage with Some b => b | None => false end in
  let path := Copilot.truthy path in
  page <- Registry.getOrThrow Registry.pages KPage pageId ;;
  size <- Registry.native (page_screenshotTo pdrv page fullPage path) ;;
  ret (ScreenshotTaken
         (match path with Some p => p | None => "screenshot taken" end) size).

Definition waitForSelector (pageId selector : string) (timeout : option Z)
  : M Server ToolResult :=
  let timeout := match timeout with Some t => t | None => 30000%Z end in
  page <- Registry.getOrThrow Registry.pages KPage pageId ;;
  Registry.native (page_waitForSelectorIn pdrv page selector timeout) ;;
  ret (SelectorAppeared selector).

Definition evaluate (pageId script : string) : M Server ToolResult :=
  page <- Registry.getOrThrow Registry.pages KPage pageId ;;
  result <- Registry.native (page_evaluateScript pdrv page script) ;;
  ret (Evaluated result).

(** The [switch (name)] of [handleToolCall]. *)
Definition dispatch (name : string) (args : Args)
  : option (M Server ToolResult) :=
  if String.eqb name "launch_browser"
  then Some (Registry.launchBrowser drv (a_browser args)
               (match a_headless args with Some b => b | None => true end)
               (a_browserId args) ;;
             ret (BrowserLaunched (a_browserId args) (a_browser args)))
  else if String.eqb name "create_context"
  then Some (Registry.createContext drv (a_browserId args) (a_contextId args)
               (a_viewport args) (a_userAgent args) ;;
             ret (ContextCreated (a_contextId args)))
  else if String.eqb name "create_page"
  then Some (Registry.createPage drv (a_contextId args) (a_pageId args) ;;
             ret (PageCreated (a_pageId args)))
  else if String.eqb name "navigate"
  then Some (navigate (a_pageId args) (a_url args))
  else if String.eqb name "click"
  then Some (click (a_pageId args) (a_selector args))
  else if String.eqb name "fill"
  then Some (fill (a_pageId args) (a_selector args) (a_value args))
  else if String.eqb name "get_text"
  then Some (getText (a_pageId args) (a_selector args))
  else if String.eqb name "screenshot"
  then Some (screenshot (a_pageId args) (a_path args) (a_fullPage args))
  else if String.eqb name "wait_for_selector"
  then Some (waitForSelector (a_pageId args) (a_selector args)
               (a_timeout args))
  else if String.eqb name "evaluate"
  then Some (evaluate (a_pageId args) (a_script args))
  else if String.eqb name "close_page"
  then Some (Registry.closePage drv (a_pageId args) ;;
             ret (PageClosed (a_pageId args)))
  else if String.eqb name "close_context"
  then Some (Registry.closeContext drv (a_contextId args) ;;
             ret (ContextClosed (a_contextId args)))
  else if String.eqb name "close_browser"
  then Some (Registry.closeBrowser drv (a_browserId args) ;;
             ret (BrowserClosed (a_browserId args)))
  else None.

(** The server: the registry and what it has written. *)
Record Mcp : Type :=
  { registry : Server;
    stdout : list Message }.   (* oldest first *)

(** [sendResponse] and [sendError]: one [console.log]. *)
Definition send (m : Message) : M Mcp unit :=
  modify (fun st => {| registry := registry st;
                       stdout := (stdout st ++ [m])%list |}).

(** A method of the registry, run on the server. *)
Definition onRegistry {A : Type} (m : M Server A) : M Mcp A :=
  fun st =>
    let (o, r) := m (registry st) in
    (o, {| registry := r; stdout := stdout st |}).

(** The [try] block of [handleToolCall] with its [catch]. *)
Definition handleToolCall (request : Request) : M Mcp unit :=
  match dispatch (req_name request) (req_arguments request) with
  | Some tool =>
      try_catch
        (result <- onRegistry tool ;;
         send (ToolCallResult (req_id request) result))
        (fun e =>
           send (ErrorResponse (req_id request) (-32603)
                   (ToolExecutionFailed (ToolThrew e))))
  | None =>
      send (ErrorResponse (req_id request) (-32603)
              (ToolExecutionFailed (UnknownTool (req_name request))))
  end.

Definition handleInitialize (request : Request) : M Mcp unit :=
  send (InitializeResult (req_id request)).

Definition handleToolsList (request : Request) : M Mcp unit :=
  send (ToolsListResult (req_id request) tools).

Definition handleRequest (request : Request) : M Mcp unit :=
  try_catch
    (if String.eqb (req_method request) "initialize"
     then handleInitialize request
     else if String.eqb (req_method request) "tools/list"
     then handleToolsList request
     else if String.eqb (req_method request) "tools/call"
     then handleToolCall request
     else if String.eqb (req_method request)
               "notifications/tools/list_changed"
     then ret tt
     else send (ErrorResponse (req_id request) (-32601)
                  (MethodNotFound (req_method request))))
    (fun e =>
       send (ErrorResponse (req_id request) (-32603) (InternalError e))).

End WithDriver.
End Tools.

(** ** Names for the seven page tools, to speak of all of them at once *)
Module PageCalls.

Inductive PageCall : Type :=
| DoNavigate (url : string)
| DoClick (selector : string)
| DoFill (selector value : string)
| DoGetText (selector : string)
| DoScreenshot (path : option string) (fullPage : option bool)
| DoWaitForSelector (selector : string) (timeout : option Z)
| DoEvaluate (script : string).

Definition run {World : Type} (drv : Driver World)
  (pdrv : Tools.PageDriver World) (pageId : string) (call : PageCall)
  : M (@Registry.Server World) Tools.ToolResult :=
  match call with
  | DoNavigate url => Tools.navigate drv pageId url
  | DoClick selector => Tools.click drv pageId selector
  | DoFill selector value => Tools.fill drv pageId selector value
  | DoGetText selector => Tools.getText pdrv pageId selector
  | DoScreenshot path fullPage => Tools.screenshot pdrv pageId path fullPage
  | DoWaitForSelector selector timeout =>
      Tools.waitForSelector pdrv pageId selector timeout
  | DoEvaluate script => Tools.evaluate pdrv pageId script
  end.

End PageCalls.

(** ** More of the small driver *)
Module Fixtures.

(** Page operations that always answer. *)
Definition page_driver : Tools.PageDriver Sample.World :=
  {| Tools.page_textContent := fun _ _ w => (Returned (Some "Hello"), w);
     Tools.page_screenshotTo := fun _ _ _ w => (Returned 2048%nat, w);
     Tools.page_waitForSelectorIn := fun _ selector _ => Sample.act_on selector;
     Tools.page_evaluateScript := fun _ _ w => (Returned "null", w) |}.

Definition no_args : Tools.Args :=
  {| Tools.a_browser := EmptyString; Tools.a_headless := None;
     Tools.a_browserId := EmptyString; Tools.a_contextId := EmptyString;
     Tools.a_pageId := EmptyString; Tools.a_viewport := None;
     Tools.a_userAgent := None; Tools.a_url := EmptyString;
     Tools.a_selector := EmptyString; Tools.a_value := EmptyString;
     Tools.a_path := None; Tools.a_fullPage := None;
     Tools.a_timeout := None; Tools.a_script := EmptyString |}.

(** [tools/call] of [close_context] on context [c1], as request 7. *)
Definition close_c1 : Tools.Request :=
  {| Tools.req_id := Tools.IdNumber 7;
     Tools.req_method := "tools/call";
     Tools.req_name := "close_context";
     Tools.req_arguments :=
       {| Tools.a_browser := EmptyString; Tools.a_headless := None;
          Tools.a_browserId := EmptyString; Tools.a_contextId := "c1";
          Tools.a_pageId := EmptyString; Tools.a_viewport := None;
          Tools.a_userAgent := None; Tools.a_url := EmptyString;
          Tools.a_selector := EmptyString; Tools.a_value := EmptyString;
          Tools.a_path := None; Tools.a_fullPage := None;
          Tools.a_timeout := None; Tools.a_script := EmptyString |} |}.

Definition mcp (w : Sample.World) : Tools.Mcp :=
  {| Tools.registry := Sample.registry w; Tools.stdout := [] |}.

End Fixtures.

(** ** Process shutdown of [AIWebAutomationServer] *)
Module Shutdown.
Section WithDriver.

Context {World : Type}.
Variable drv : Driver World.
Variable events : PageEvents World.

Local Abbreviation Server := (@AIServer.Server World).

(** [for (const socketId of server.activeSessions.keys())
       await server.cleanupSession(socketId);]
    [cleanupSession] deletes the key the iterator has just yielded. *)
Fixpoint cleanupEach (socketIds : list string) : M Server unit :=
  match socketIds with
  | [] => ret tt
  | socketId :: rest =>
      AIServer.cleanupSession drv events socketId ;; cleanupEach rest
  end.

(** The handlers of [SIGINT] ([sigterm] is [false]) and of [SIGTERM], up to
    the call [server.server.close(...)], whose callback ends the process. *)
Definition shutdown (sigterm : bool) : M Server unit :=
  AIServer.consoleWrite (AIServer.LogShuttingDown sigterm) ;;
  socketIds <- gets (fun s => JsMap.keys (AIServer.activeSessions s)) ;;
  cleanupEach socketIds.

End WithDriver.
End Shutdown.

(** ** Copilot sessions ([CopilotPlaywrightAgent.startCopilotSession]) *)
Module CopilotSession.

(** The ids of the reply: [{ success: true, sessionId, browserId, contextId,
    pageId, message }]. *)
Record SessionStart : Type :=
  { ss_sessionId : string;
    ss_browserId : string;
    ss_contextId : string;
    ss_pageId : string }.

Definition browserIdOf (sessionId : string) : string :=
  "copilot-" ++ sessionId.
Definition contextIdOf (sessionId : string) : string :=
  "copilot-context-" ++ sessionId.
Definition pageIdOf (sessionId : string) : string :=
  "copilot-page-" ++ sessionId.

Section WithDriver.

Context {World : Type}.
Variable drv : Driver World.

Local Abbreviation Server := (@Registry.Server World).

(** Three awaited calls in a row, with no [try]: the first that throws ends
    the function, and what the earlier ones stored stays. *)
Definition startCopilotSession (sessionId browserType : string)
  (headless : bool) : M Server SessionStart :=
  let browserId := browserIdOf sessionId in
  let contextId := contextIdOf sessionId in
  let pageId := pageIdOf sessionId in
  Registry.launchBrowser drv browserType headless browserId ;;
  Registry.createContext drv browserId contextId
    (Some {| vp_width := 1920; vp_height := 1080 |}) None ;;
  Registry.createPage drv contextId pageId ;;
  ret {| ss_sessionId := sessionId; ss_browserId := browserId;
         ss_contextId := contextId; ss_pageId := pageId |}.

(** The session a returned [startCopilotSession] has stored. *)
Definition stored (sessionId browserType : string) (s s' : Server) : Prop :=
  exists b c p,
    Registry.parseBrowserType browserType = Some (b_kind b)
    /\ c_browser c = b_ref b /\ p_context p = c_ref c
    /\ JsMap.get (browserIdOf sessionId) (Registry.browsers s) = None
    /\ JsMap.get (contextIdOf sessionId) (Registry.contexts s) = None
    /\ JsMap.get (pageIdOf sessionId) (Registry.pages s) = None
    /\ Registry.browsers s' = (Registry.browsers s ++ [(browserIdOf sessionId, b)])%list
    /\ Registry.contexts s' = (Registry.contexts s ++ [(contextIdOf sessionId, c)])%list
    /\ Registry.pages s' = (Registry.pages s ++ [(pageIdOf sessionId, p)])%list.

End WithDriver.
End CopilotSession.

(** ** JSON text

    [JSON.stringify] on strings, arrays and objects, and the number of bytes
    of a text in UTF-8.  A character above 127 stands for the code point of
    the same number. *)
Module Json.

Definition backslash : string := String "092"%char EmptyString.

Definition hexDigit (n : nat) : ascii :=
  if (n <? 10)%nat then ascii_of_nat (48 + n) else ascii_of_nat (87 + n).

(** One character inside a JSON string: the quote, the backslash and the
    control characters are escaped. *)
Definition escapeChar (a : ascii) : string :=
  let n := nat_of_ascii a in
  if Nat.eqb n 34 then backslash ++ Js.dq
  else if Nat.eqb n 92 then backslash ++ backslash
  else if Nat.eqb n 8 then backslash ++ "b"
  else if Nat.eqb n 9 then backslash ++ "t"
  else if Nat.eqb n 10 then backslash ++ "n"
  else if Nat.eqb n 12 then backslash ++ "f"
  else if Nat.eqb n 13 then backslash ++ "r"
  else if (n <? 32)%nat
  then backslash ++ "u00"
       ++ String (hexDigit (n / 16)) (String (hexDigit (n mod 16)) EmptyString)
  else String a EmptyString.

Fixpoint escape (s : string) : string :=
  match s with
  | EmptyString => EmptyString
  | String a s' => escapeChar a ++ escape s'
  end.

(** [JSON.stringify(s)] for a string [s]. *)
Definition str (s : string) : string := Js.dq ++ escape s ++ Js.dq.

Fixpoint commas (items : list string) : string :=
  match items with
  | [] => EmptyString
  | [item] => item
  | item :: rest => item ++ "," ++ commas rest
  end.

(** An array of JSON texts, and an object of keys with JSON texts. *)
Definition array (items : list string) : string := "[" ++ commas items ++ "]".

Definition object (fields : list (string * string)) : string :=
  "{" ++ commas (map (fun f => str (fst f) ++ ":" ++ snd f) fields) ++ "}".

Definition bool (b : Datatypes.bool) : string :=
  if b then "true" else "false".

Fixpoint utf8Size (s : string) : N :=
  match s with
  | EmptyString => 0%N
  | String a s' =>
      ((if (nat_of_ascii a <? 128)%nat then 1 else 2) + utf8Size s')%N
  end.

End Json.

(** ** The HTTP routes of [CopilotPlaywrightAgent] that the client calls

    [app.use(express.json())] comes first: a request whose body is larger
    than the parser's limit of 100kb is answered with status 413 and a page
    that is no JSON, and no route runs.  Otherwise
    [try { res.json(await this.method(...)) }
     catch (error) { res.status(500).json({ error: error.message }) }].
    A route is given the text of the body and the fields parsed from it. *)
Module Rest.

Inductive HttpReply (A : Type) : Type :=
| Ok (body : A)                  (* 200, the method's result *)
| ServerError (error : Error)    (* 500, [{ error }] *)
| PayloadTooLarge.               (* 413, not JSON *)

Arguments Ok {A} body.
Arguments ServerError {A} error.
Arguments PayloadTooLarge {A}.

(** The limit of [express.json()], in bytes. *)
Definition bodyLimit : N := 102400.

Definition fits (body : string) : Datatypes.bool :=
  (Json.utf8Size body <=? bodyLimit)%N.

Section WithDriver.

Context {World : Type}.
Variable drv : Driver World.

Local Abbreviation Server := (@Registry.Server World).

Definition respond {A : Type} (m : M Server A)
  : Server -> HttpReply A * Server :=
  fun s =>
    match m s with
    | (Returned body, s') => (Ok body, s')
    | (Thrown error, s') => (ServerError error, s')
    end.

(** A route behind the JSON body parser. *)
Definition parsed {A : Type} (body : string) (m : M Server A)
  : Server -> HttpReply A * Server :=
  fun s => if fits body then respond m s else (PayloadTooLarge, s).

(** [POST /copilot/command] *)
Definition postCommand (body : string) (command pageId : string)
  (context : option string)
  : Server -> HttpReply Copilot.CommandResult * Server :=
  parsed body
    (Copilot.executeNaturalLanguageCommand drv command pageId context).

(** [POST /copilot/session/start], with
    [{ sessionId, browserType = 'chromium', headless = false } = req.body]. *)
Definition postSessionStart (body : string) (sessionId : string)
  (browserType : option string) (headless : option Datatypes.bool)
  : Server -> HttpReply CopilotSession.SessionStart * Server :=
  parsed body
    (CopilotSession.startCopilotSession drv sessionId
       (match browserType with Some t => t | None => "chromium" end)
       (match headless with Some h => h | None => false end)).

(** [POST /copilot/workflow] *)
Definition postWorkflow (body : string) (workflow : list Copilot.Step)
  (pageId : string)
  : Server -> HttpReply Copilot.WorkflowResult * Server :=
  parsed body (Copilot.executeWorkflow drv workflow pageId).

(** [DELETE /browser/:browserId]; the request has no body. *)
Definition deleteBrowser (browserId : string)
  : Server -> HttpReply string * Server :=
  respond (Registry.closeBrowser drv browserId).

End WithDriver.
End Rest.

(** ** [PlaywrightCopilotClient]

    The client and the agent it talks to are one system, and the network
    between them delivers: a [fetch] is the call of the route, and
    [response.json()] is the body of its reply, or throws when the reply is
    no JSON, which sends the client to its [catch]. *)
Module Client.

Record Client : Type :=
  { currentSession : option string;
    currentPageId : option string }.

(** The strings the client functions return, by their template. *)
Inductive Reply : Type :=
| NoActiveSession
| NoSessionToClose
| BrowserLaunched (sessionId : string)
| LaunchFailed (error : Error)
| NavigatedTo (url : string)
| NavigationFailed (message : option Copilot.FailureMessage)
| ClickedOn (description : string)
| ClickFailed (message : option Copilot.FailureMessage)
| TypedText (text : string)
| TypeFailed (message : option Copilot.FailureMessage)
| ScreenshotTaken
| ScreenshotFailed (message : option Copilot.FailureMessage)
| WaitMet (condition : string)
| WaitFailed (message : option Copilot.FailureMessage)
| CommandExecuted (command : string)
| CommandFailed (message : option Copilot.FailureMessage)
| WorkflowExecuted (summary : list (string * Datatypes.bool))
| WorkflowFailed
| BrowserClosed
| CloseFailed (error : Error)
(* the answers of the [catch] branches, Error ...: <what was thrown> *)
| ErrorLaunching
| ErrorNavigating
| ErrorClicking
| ErrorTyping
| ErrorScreenshot
| ErrorWaiting
| ErrorExecuting
| ErrorWorkflow
| ErrorClosing.

(** [result.message]: only a result with [success: false] has one. *)
Definition message (r : Copilot.CommandResult)
  : option Copilot.FailureMessage :=
  match r with
  | Copilot.Failure m => Some m
  | _ => None
  end.

(** [`step-${index + 1}`] *)
Definition stepName (index : nat) : string :=
  "step-" ++ NilZero.string_of_uint (Nat.to_uint (index + 1)).

(** [steps.map((step, index) => ({ name: `step-${index + 1}`, command: step }))] *)
Fixpoint namedFrom (index : nat) (steps : list string) : list Copilot.Step :=
  match steps with
  | [] => []
  | step :: rest =>
      {| Copilot.step_name := stepName index;
         Copilot.step_command := step;
         Copilot.step_context := None |} :: namedFrom (S index) rest
  end.

(** [`${w.step}: ${w.result?.success ? ok : failed}`] *)
Definition summaryLine (w : Copilot.StepEntry) : string * Datatypes.bool :=
  match w with
  | Copilot.StepResult step result => (step, Copilot.success result)
  | Copilot.StepError step _ => (step, false)
  end.

(** The request bodies: [JSON.stringify({ command, pageId })],
    [JSON.stringify({ sessionId, browserType, headless })] and
    [JSON.stringify({ workflow, pageId })]. *)
Definition commandBody (command pageId : string) : string :=
  Json.object [("command", Json.str command); ("pageId", Json.str pageId)].

Definition sessionBody (sessionId browserType : string)
  (headless : Datatypes.bool) : string :=
  Json.object [("sessionId", Json.str sessionId);
               ("browserType", Json.str browserType);
               ("headless", Json.bool headless)].

Definition workflowBody (workflow : list Copilot.Step) (pageId : string)
  : string :=
  Json.object
    [("workflow",
      Json.array
        (map (fun step =>
                Json.object
                  [("name", Json.str (Copilot.step_name step));
                   ("command", Json.str (Copilot.step_command step))])
           workflow));
     ("pageId", Json.str pageId)].

Section WithDriver.

Context {World : Type}.
Variable drv : Driver World.

Record System : Type :=
  { client : Client;
    agent : @Registry.Server World }.

Definition with_agent (sys : System) (a : @Registry.Server World) : System :=
  {| client := client sys; agent := a |}.

(** What the command functions share: the guard on [currentPageId], the
    [POST] of [{ command, pageId }] and the answer read off
    [result.success].  The body of a 500 reply has neither [success] nor
    [message]; a reply that is no JSON makes [response.json()] throw, and
    the [catch] answers with [caught]. *)
Definition sendCommand (command : string) (done : Reply)
  (failed : option Copilot.FailureMessage -> Reply) (caught : Reply)
  : System -> Reply * System :=
  fun sys =>
    match Copilot.truthy (currentPageId (client sys)) with
    | None => (NoActiveSession, sys)
    | Some pageId =>
        match Rest.postCommand drv (commandBody command pageId)
                command pageId None (agent sys) with
        | (Rest.Ok result, a) =>
            (if Copilot.success result then done else failed (message result),
             with_agent sys a)
        | (Rest.ServerError _, a) => (failed None, with_agent sys a)
        | (Rest.PayloadTooLarge, a) => (caught, with_agent sys a)
        end
    end.

(** [now] is the decimal of [Date.now()]. *)
Definition launchBrowser (now : string) (browserType : option string)
  (headless : option Datatypes.bool) : System -> Reply * System :=
  fun sys =>
    let browserType :=
      match browserType with Some t => t | None => "chromium" end in
    let headless := match headless with Some h => h | None => false end in
    let sessionId := "session-" ++ now in
    match Rest.postSessionStart drv
            (sessionBody sessionId browserType headless)
            sessionId (Some browserType) (Some headless) (agent sys) with
    | (Rest.Ok result, a) =>
        (BrowserLaunched sessionId,
         {| client :=
              {| currentSession := Some sessionId;
                 currentPageId := Some (CopilotSession.ss_pageId result) |};
            agent := a |})
    | (Rest.ServerError error, a) => (LaunchFailed error, with_agent sys a)
    | (Rest.PayloadTooLarge, a) => (ErrorLaunching, with_agent sys a)
    end.

Definition navigateTo (url : string) : System -> Reply * System :=
  sendCommand ("navigate to " ++ url) (NavigatedTo url) NavigationFailed
    ErrorNavigating.

Definition clickElement (description : string) : System -> Reply * System :=
  sendCommand ("click " ++ description) (ClickedOn description) ClickFailed
    ErrorClicking.

Definition typeText (text : string) (field : option string)
  : System -> Reply * System :=
  let command :=
    match Copilot.truthy field with
    | Some field => "type " ++ Js.dq ++ text ++ Js.dq ++ " into " ++ field
    | None => "type " ++ Js.dq ++ text ++ Js.dq
    end in
  sendCommand command (TypedText text) TypeFailed ErrorTyping.

Definition takeScreenshot (fullPage : Datatypes.bool)
  : System -> Reply * System :=
  sendCommand
    (if fullPage then "take full page screenshot" else "take screenshot")
    ScreenshotTaken ScreenshotFailed ErrorScreenshot.

Definition waitFor (condition : string) : System -> Reply * System :=
  sendCommand ("wait for " ++ condition) (WaitMet condition) WaitFailed
    ErrorWaiting.

Definition executeCommand (command : string) : System -> Reply * System :=
  sendCommand command (CommandExecuted command) CommandFailed ErrorExecuting.

Definition executeWorkflow (steps : list string) : System -> Reply * System :=
  fun sys =>
    match Copilot.truthy (currentPageId (client sys)) with
    | None => (NoActiveSession, sys)
    | Some pageId =>
        let workflow := namedFrom 0 steps in
        match Rest.postWorkflow drv (workflowBody workflow pageId)
                workflow pageId (agent sys) with
        | (Rest.Ok result, a) =>
            (if Copilot.wr_success result
             then WorkflowExecuted (map summaryLine (Copilot.wr_workflow result))
             else WorkflowFailed,
             with_agent sys a)
        | (Rest.ServerError _, a) => (WorkflowFailed, with_agent sys a)
        | (Rest.PayloadTooLarge, a) => (ErrorWorkflow, with_agent sys a)
        end
    end.

(** The [DELETE] has no body, and the id in its path is that of a session
    the client has launched. *)
Definition closeBrowser : System -> Reply * System :=
  fun sys =>
    match Copilot.truthy (currentSession (client sys)) with
    | None => (NoSessionToClose, sys)
    | Some session =>
        match Rest.deleteBrowser drv ("copilot-" ++ session) (agent sys) with
        | (Rest.Ok _, a) =>
            (BrowserClosed,
             {| client := {| currentSession := None; currentPageId := None |};
                agent := a |})
        | (Rest.ServerError error, a) => (CloseFailed error, with_agent sys a)
        | (Rest.PayloadTooLarge, a) => (ErrorClosing, with_agent sys a)
        end
    end.

End WithDriver.
End Client.

(** A client in session [session-1] on page [p1] of the sample registry,
    and a client that has not launched a browser yet. *)
Module ClientSample.

Definition in_session (w : Sample.World) : @Client.System Sample.World :=
  {| Client.client :=
       {| Client.currentSession := Some "session-1";
          Client.currentPageId := Some "p1" |};
     Client.agent := Sample.registry w |}.

Definition idle (w : Sample.World) : @Client.System Sample.World :=
  {| Client.client :=
       {| Client.currentSession := None; Client.currentPageId := None |};
     Client.agent := Sample.registry w |}.

End ClientSample.

(** ** The activity log of the web client ([client-io.js]) *)
Module Ui.

Record LogEntry : Type :=
  { log_id : Z;
    log_type : string;
    log_message : string;
    log_details : string;
    log_timestamp : Z }.

(** [useState([{ id: 1, type: "info", message: "System initialized", ... }])],
    created at [timestamp]. *)
Definition initialLog (timestamp : Z) : list LogEntry :=
  [{| log_id := 1; log_type := "info"; log_message := "System initialized";
      log_details := "NeuraFlow AI automation session started";
      log_timestamp := timestamp |}].

(** [l.slice(-n)]: the last [n] elements, all of them when there are fewer. *)
Definition slice_last {A : Type} (n : nat) (l : list A) : list A :=
  skipn (List.length l - n) l.

(** One call [addActivityLog(message, type)]; [now] is what [Date.now()]
    gives and [timestamp] what [new Date()] gives. *)
Record Call : Type :=
  { call_now : Z;
    call_timestamp : Z;
    call_message : string;
    call_type : option string }.

Definition newLog (c : Call) : LogEntry :=
  let type := match call_type c with Some t => t | None => "info" end in
  {| log_id := call_now c;
     log_type := type;
     log_message := call_message c;
     log_details :=
       if String.eqb type "error" then "Error occurred"
       else if String.eqb type "success" then "Operation successful"
       else "System notification";
     log_timestamp := call_timestamp c |}.

(** [setActivityLog((prev) => [...prev.slice(-8), newLog])] *)
Definition addActivityLog (c : Call) (prev : list LogEntry) : list LogEntry :=
  (slice_last 8 prev ++ [newLog c])%list.

(** The state after a series of calls. *)
Definition after (calls : list Call) (log : list LogEntry) : list LogEntry :=
  fold_left (fun prev c => addActivityLog c prev) calls log.

End Ui.

(** * Proofs *)

(** * Facts about maps *)
Module JsMapFacts.
Section Facts.

Context {V : Type}.
Implicit Types (m : JsMap.t V) (k : string) (v : V).

Lemma get_delete_same k m : JsMap.get k (JsMap.delete k m) = None.
Proof.
  induction m as [|[k' v'] m IH]; simpl; auto.
  destruct (String.eqb k k') eqn:E; simpl; auto.
  now rewrite E.
Qed.

Lemma get_delete_other k k' m :
  k <> k' -> JsMap.get k' (JsMap.delete k m) = JsMap.get k' m.
Proof.
  intros Hne. induction m as [|[k0 v0] m IH]; simpl; auto.
  destruct (String.eqb k k0) eqn:E; simpl.
  - apply String.eqb_eq in E. subst k0.
    destruct (String.eqb k' k) eqn:E'; auto.
    apply String.eqb_eq in E'. congruence.
  - now rewrite IH.
Qed.

Lemma in_delete k m k' v :
  In (k', v) (JsMap.delete k m) <-> In (k', v) m /\ k <> k'.
Proof.
  unfold JsMap.delete. rewrite filter_In. simpl.
  rewrite negb_true_iff, String.eqb_neq. tauto.
Qed.

Lemma get_in k m v : JsMap.get k m = Some v -> In (k, v) m.
Proof.
  induction m as [|[k' v'] m IH]; simpl; [discriminate|].
  destruct (String.eqb k k') eqn:E.
  - apply String.eqb_eq in E. intros [= ->]. subst. now left.
  - intros H. right. auto.
Qed.

Lemma get_none_not_in k m v : JsMap.get k m = None -> ~ In (k, v) m.
Proof.
  induction m as [|[k' v'] m IH]; simpl; [tauto|].
  destruct (String.eqb k k') eqn:E; [discriminate|].
  apply String.eqb_neq in E.
  intros H [[= -> ->]|Hin]; [congruence | now apply IH].
Qed.


Lemma has_false_iff k m : JsMap.has k m = false <-> JsMap.get k m = None.
Proof.
  unfold JsMap.has. destruct (JsMap.get k m); split; congruence.
Qed.

Lemma get_set_same k v m : JsMap.get k (JsMap.set k v m) = Some v.
Proof.
  induction m as [|[k' v'] m IH]; simpl.
  - now rewrite String.eqb_refl.
  - destruct (String.eqb k k') eqn:E; simpl.
    + now rewrite String.eqb_refl.
    + now rewrite E.
Qed.

Lemma get_set_other k k' v m :
  k <> k' -> JsMap.get k' (JsMap.set k v m) = JsMap.get k' m.
Proof.
  intros Hne. induction m as [|[k0 v0] m IH]; simpl.
  - destruct (String.eqb k' k) eqn:E; auto.
    apply String.eqb_eq in E. congruence.
  - destruct (String.eqb k k0) eqn:E; simpl.
    + apply String.eqb_eq in E. subst k0.
      destruct (String.eqb k' k) eqn:E'; auto.
      apply String.eqb_eq in E'. congruence.
    + now rewrite IH.
Qed.

(** A key that is absent is appended: the map grows by one entry. *)
Lemma set_absent k v m :
  JsMap.get k m = None -> JsMap.set k v m = (m ++ [(k, v)])%list.
Proof.
  induction m as [|[k' v'] m IH]; simpl; auto.
  destruct (String.eqb k k'); [discriminate|].
  intros H. now rewrite IH.
Qed.

Lemma delete_absent k m : JsMap.get k m = None -> JsMap.delete k m = m.
Proof.
  induction m as [|[k' v'] m IH]; simpl; auto.
  destruct (String.eqb k k') eqn:E; [discriminate|]. simpl.
  intros H. now rewrite IH.
Qed.

End Facts.
End JsMapFacts.

Module JsMapWf.
Import JsMapFacts.
Section Facts.
Context {V : Type}.
Implicit Types (m : JsMap.t V) (k : string) (v : V).

Lemma delete_all_nil m : JsMap.delete_all [] m = m.
Proof.
  unfold JsMap.delete_all. induction m as [|e m IH]; simpl; auto.
  f_equal. exact IH.
Qed.

Lemma delete_all_delete k ks m :
  JsMap.delete_all ks (JsMap.delete k m) = JsMap.delete_all (k :: ks) m.
Proof.
  unfold JsMap.delete_all, JsMap.delete.
  induction m as [|[k' v'] m IH]; simpl; auto.
  rewrite (String.eqb_sym k' k).
  destruct (String.eqb k k'); simpl; rewrite IH; reflexivity.
Qed.

Lemma delete_all_app ks1 ks2 m :
  JsMap.delete_all ks2 (JsMap.delete_all ks1 m) = JsMap.delete_all (ks1 ++ ks2) m.
Proof.
  unfold JsMap.delete_all.
  induction m as [|[k' v'] m IH]; simpl; auto.
  rewrite existsb_app.
  destruct (existsb (String.eqb k') ks1); simpl; rewrite IH; reflexivity.
Qed.

Lemma in_delete_all ks m k v :
  In (k, v) (JsMap.delete_all ks m) <-> In (k, v) m /\ ~ In k ks.
Proof.
  unfold JsMap.delete_all. rewrite filter_In. simpl.
  rewrite negb_true_iff.
  split; intros [H1 H2]; split; auto.
  - intros Hin. assert (existsb (String.eqb k) ks = true).
    { apply existsb_exists. exists k. split; auto. apply String.eqb_refl. }
    congruence.
  - destruct (existsb (String.eqb k) ks) eqn:E; auto.
    apply existsb_exists in E. destruct E as [k' [Hin E]].
    apply String.eqb_eq in E. subst. contradiction.
Qed.

Lemma delete_is_delete_all k m : JsMap.delete k m = JsMap.delete_all [k] m.
Proof.
  rewrite <- delete_all_delete. now rewrite delete_all_nil.
Qed.

Lemma distinct_strings_NoDup (l : list string) :
  Hierarchy.distinct_strings l = true <-> NoDup l.
Proof.
  induction l as [|x l IH]; simpl.
  - split; auto using NoDup_nil.
  - rewrite andb_true_iff, negb_true_iff, IH. split.
    + intros [Hx Hl]. constructor; auto.
      intros Hin. assert (existsb (String.eqb x) l = true).
      { apply existsb_exists. exists x. split; auto. apply String.eqb_refl. }
      congruence.
    + intros H. inversion H; subst. split; auto.
      destruct (existsb (String.eqb x) l) eqn:E; auto.
      apply existsb_exists in E. destruct E as [y [Hin E]].
      apply String.eqb_eq in E. subst. contradiction.
Qed.

Lemma distinct_nats_NoDup (l : list nat) :
  Hierarchy.distinct_nats l = true <-> NoDup l.
Proof.
  induction l as [|x l IH]; simpl.
  - split; auto using NoDup_nil.
  - rewrite andb_true_iff, negb_true_iff, IH. split.
    + intros [Hx Hl]. constructor; auto.
      intros Hin. assert (existsb (Nat.eqb x) l = true).
      { apply existsb_exists. exists x. split; auto. apply Nat.eqb_refl. }
      congruence.
    + intros H. inversion H; subst. split; auto.
      destruct (existsb (Nat.eqb x) l) eqn:E; auto.
      apply existsb_exists in E. destruct E as [y [Hin E]].
      apply Nat.eqb_eq in E. subst. contradiction.
Qed.

(** In a map a key has one value. *)
Lemma wf_in_unique m k v v' :
  JsMap.wf m -> In (k, v) m -> In (k, v') m -> v = v'.
Proof.
  unfold JsMap.wf, JsMap.keys.
  induction m as [|[k0 v0] m IH]; simpl; [tauto|].
  intros Hnd. inversion Hnd as [|? ? Hnotin Hnd']; subst.
  intros [[= -> ->]|H1] [[= E]|H2]; auto.
  - exfalso. apply Hnotin. apply (in_map fst) in H2. exact H2.
  - subst. exfalso. apply Hnotin. apply (in_map fst) in H1. exact H1.
Qed.

Lemma wf_in_get m k v : JsMap.wf m -> In (k, v) m -> JsMap.get k m = Some v.
Proof.
  intros Hwf Hin. destruct (JsMap.get k m) as [v'|] eqn:E.
  - apply get_in in E. f_equal. eapply wf_in_unique; eauto.
  - exfalso. eapply get_none_not_in; eauto.
Qed.

Lemma wf_filter (f : string * V -> bool) m : JsMap.wf m -> JsMap.wf (filter f m).
Proof.
  unfold JsMap.wf, JsMap.keys.
  induction m as [|e m IH]; simpl; auto.
  intros Hnd. inversion Hnd as [|? ? Hnotin Hnd']; subst.
  destruct (f e); simpl; auto.
  constructor; auto.
  intros Hin. apply Hnotin. apply in_map_iff in Hin.
  destruct Hin as [e' [Heq Hin]]. apply filter_In in Hin.
  apply in_map_iff. exists e'. tauto.
Qed.

(** Deleting the keys of the entries that satisfy [P] leaves the entries
    that do not. *)
Lemma delete_all_exact (P : V -> bool) ks m :
  JsMap.wf m ->
  (forall k, In k ks -> exists v, In (k, v) m /\ P v = true) ->
  (forall k v, In (k, v) m -> P v = true -> In k ks) ->
  JsMap.delete_all ks m = filter (fun e => negb (P (snd e))) m.
Proof.
  intros Hwf Hsound Hcomplete. unfold JsMap.delete_all.
  apply filter_ext_in. intros [k v] Hin. simpl. f_equal.
  destruct (P v) eqn:EP.
  - apply existsb_exists. exists k. split; [eauto | apply String.eqb_refl].
  - destruct (existsb (String.eqb k) ks) eqn:E; auto.
    apply existsb_exists in E. destruct E as [k' [Hk E]].
    apply String.eqb_eq in E. subst k'.
    destruct (Hsound _ Hk) as [v' [Hin' HP]].
    assert (v = v') by (eapply wf_in_unique; eauto). congruence.
Qed.

(** With one entry per key, [delete] takes out one entry. *)
Lemma wf_delete_split m k v :
  JsMap.wf m -> JsMap.get k m = Some v ->
  exists l1 l2, m = (l1 ++ (k, v) :: l2)%list
                /\ JsMap.delete k m = (l1 ++ l2)%list.
Proof.
  unfold JsMap.wf, JsMap.keys.
  induction m as [|[k0 v0] m IH]; simpl; [discriminate|].
  intros Hnd. inversion Hnd as [|? ? Hnotin Hnd']; subst.
  destruct (String.eqb k k0) eqn:E.
  - intros [= ->]. apply String.eqb_eq in E. subst k0.
    exists [], m. split; auto. simpl.
    f_equal. apply delete_absent.
    destruct (JsMap.get k m) as [v'|] eqn:G; auto.
    apply get_in in G. exfalso. apply Hnotin.
    apply (in_map fst) in G. exact G.
  - intros G. destruct (IH Hnd' G) as [l1 [l2 [-> Hd]]].
    exists ((k0, v0) :: l1), l2. split; auto.
    simpl. now rewrite Hd.
Qed.

End Facts.
End JsMapWf.

(** * The close cascade *)
Module Cascade.
Import JsMapFacts JsMapWf Registry Hierarchy.

(** Unfold one monadic step. *)
Ltac step :=
  unfold bind, ret, throw, gets, modify, getOrThrow, throwIfHas, native,
    set_pages, set_contexts, set_browsers in *; simpl in *.

Section WithDriver.

Context {World : Type}.
Variable drv : Driver World.
Local Abbreviation Server := (@Registry.Server World).
Implicit Types (s : Server).

(** The inner loop deletes keys of pages of the context, all of them when
    it returns, and touches no other map. *)
Lemma closePagesOf_run (c : BrowserContext) entries s o s' :
  closePagesOf drv c entries s = (o, s') ->
  browsers s' = browsers s /\ contexts s' = contexts s
  /\ exists ks,
       pages s' = JsMap.delete_all ks (pages s)
       /\ (forall k, In k ks -> exists p, In (k, p) entries /\ page_in c p = true)
       /\ (is_returned o = true ->
           forall k p, In (k, p) entries -> page_in c p = true -> In k ks).
Proof.
  revert s o s'. induction entries as [|[k p] rest IH]; intros s o s' H.
  - step. inversion H; subst. repeat split; auto.
    exists []. rewrite delete_all_nil.
    repeat split; auto; simpl; intros; contradiction.
  - simpl in H. unfold bind at 1 in H.
    destruct (page_in c p) eqn:Ein.
    + unfold bind at 1 in H. unfold native at 1 in H.
      destruct (page_close drv p (world s)) as [[[]|e] w] eqn:Ec.
      * simpl in H. apply IH in H. simpl in H.
        destruct H as [Hb [Hc [ks [Hp [Hs Hr]]]]].
        split; [exact Hb|]. split; [exact Hc|].
        exists (k :: ks). rewrite <- delete_all_delete. split; auto. split.
        -- intros k' [<-|Hk]; [exists p; split; auto; now left|].
           destruct (Hs _ Hk) as [p' [Hin Hp']]. exists p'. split; [now right | auto].
        -- intros Ho k' p' [[= <- <-]|Hin] Hp'; [now left|].
           right. eapply Hr; eauto.
      * inversion H; subst. simpl. repeat split; auto.
        exists []. rewrite delete_all_nil.
        repeat split; auto; simpl; intros; (contradiction || discriminate).
    + step. apply IH in H. destruct H as [Hb [Hc [ks [Hp [Hs Hr]]]]].
      split; [exact Hb|]. split; [exact Hc|].
      exists ks. split; auto. split.
      * intros k' Hk. destruct (Hs _ Hk) as [p' [Hin Hp']].
        exists p'. split; [now right | auto].
      * intros Ho k' p' [[= <- <-]|Hin] Hp'; [congruence|]. eapply Hr; eauto.
Qed.

(** When it throws, the error is the one a page's [close] threw. *)
Lemma closePagesOf_thrown (c : BrowserContext) entries s e s' :
  closePagesOf drv c entries s = (Thrown e, s') ->
  exists k p w, In (k, p) entries /\ page_in c p = true
                /\ fst (page_close drv p w) = Thrown e.
Proof.
  revert s. induction entries as [|[k p] rest IH]; intros s H.
  - step. discriminate.
  - simpl in H. unfold bind at 1 in H.
    destruct (page_in c p) eqn:Ein.
    + unfold bind at 1 in H. unfold native at 1 in H.
      destruct (page_close drv p (world s)) as [[[]|e'] w] eqn:Ec.
      * simpl in H. apply IH in H. destruct H as [k' [p' [w' [Hin H]]]].
        exists k', p', w'. split; [now right | exact H].
      * inversion H; subst. exists k, p, (world s).
        rewrite Ec. repeat split; auto. now left.
    + step. apply IH in H. destruct H as [k' [p' [w' [Hin H]]]].
      exists k', p', w'. split; [now right | exact H].
Qed.

(** With closes that do not throw the inner loop returns. *)
Lemma closePagesOf_returns (c : BrowserContext) entries s :
  closes_succeed drv ->
  is_returned (fst (closePagesOf drv c entries s)) = true.
Proof.
  intros [Hp _]. revert s. induction entries as [|[k p] rest IH]; intros s.
  - reflexivity.
  - simpl. unfold bind at 1. destruct (page_in c p).
    + unfold bind at 1. unfold native at 1.
      specialize (Hp p (world s)).
      destruct (page_close drv p (world s)) as [o w]. simpl in Hp. subst o.
      simpl. apply IH.
    + step. apply IH.
Qed.

End WithDriver.
End Cascade.

Module CascadeOuter.
Import JsMapFacts JsMapWf Registry Hierarchy Cascade.

Section WithDriver.

Context {World : Type}.
Variable drv : Driver World.
Local Abbreviation Server := (@Registry.Server World).
Implicit Types (s : Server).

(** The outer loop deletes keys of contexts of the browser and keys of
    their pages, all of them when it returns. *)
Lemma closeContextsOf_run (b : Browser) entries s o s' :
  closeContextsOf drv b entries s = (o, s') ->
  browsers s' = browsers s
  /\ exists cks pks,
       contexts s' = JsMap.delete_all cks (contexts s)
       /\ pages s' = JsMap.delete_all pks (pages s)
       /\ (forall k, In k cks ->
           exists c, In (k, c) entries /\ context_in b c = true)
       /\ (forall k, In k pks ->
           exists p cid c, In (k, p) (pages s) /\ In (cid, c) entries
                           /\ context_in b c = true /\ page_in c p = true)
       /\ (is_returned o = true ->
           (forall k c, In (k, c) entries -> context_in b c = true -> In k cks)
           /\ (forall k p cid c,
                 In (k, p) (pages s) -> In (cid, c) entries ->
                 context_in b c = true -> page_in c p = true -> In k pks)).
Proof.
  revert s o s'. induction entries as [|[cid c] rest IH]; intros s o s' H.
  - step. inversion H; subst. split; auto.
    exists [], []. rewrite !delete_all_nil.
    repeat split; auto; simpl; intros; contradiction.
  - simpl in H. unfold bind at 1 in H.
    destruct (context_in b c) eqn:Ein.
    + unfold bind at 1 in H. unfold gets at 1 in H.
      unfold bind at 1 in H.
      destruct (closePagesOf drv c (JsMap.entries (pages s)) s)
        as [[[]|e] s1] eqn:E1.
      * apply closePagesOf_run in E1.
        destruct E1 as [Hb1 [Hc1 [ks1 [Hp1 [Hs1 Hr1]]]]].
        unfold bind at 1 in H. unfold native at 1 in H.
        destruct (context_close drv c (world s1)) as [[[]|e] w] eqn:Ec.
        -- simpl in H. apply IH in H. simpl in H.
           destruct H as [Hb [cks [pks [Hc [Hp [Hsc [Hsp Hr]]]]]]].
           split; [congruence|].
           exists (cid :: cks), (ks1 ++ pks)%list.
           split; [rewrite Hc, Hc1; apply delete_all_delete|].
           split; [rewrite Hp, Hp1; apply delete_all_app|].
           split; [|split].
           ++ intros k [<-|Hk]; [exists c; split; auto; now left|].
              destruct (Hsc _ Hk) as [c' [Hin Hc']].
              exists c'. split; [now right | auto].
           ++ intros k Hk. apply in_app_or in Hk. destruct Hk as [Hk|Hk].
              ** destruct (Hs1 _ Hk) as [p [Hin Hp']].
                 exists p, cid, c. repeat split; auto with datatypes.
              ** destruct (Hsp _ Hk) as [p [cid' [c' [Hin [Hin' [Hc' Hp']]]]]].
                 exists p, cid', c'. repeat split; auto.
                 --- rewrite Hp1 in Hin. apply in_delete_all in Hin. tauto.
                 --- now right.
           ++ intros Ho. destruct (Hr Ho) as [Hrc Hrp]. split.
              ** intros k c' [[= <- <-]|Hin] Hc'; [now left|].
                 right. eapply Hrc; eauto.
              ** intros k p cid' c' Hin [[= <- <-]|Hin'] Hc' Hp'.
                 --- apply in_or_app. left. eapply Hr1; eauto.
                 --- apply in_or_app.
                     destruct (in_dec string_dec k ks1) as [Hk|Hk]; [now left|].
                     right. eapply Hrp; eauto.
                     rewrite Hp1. apply in_delete_all. tauto.
        -- inversion H; subst. simpl.
           split; [congruence|].
           exists [], ks1. rewrite delete_all_nil.
           repeat split; auto; simpl; intros; try (contradiction || discriminate).
           destruct (Hs1 _ H0) as [p [Hin Hp']].
           exists p, cid, c. repeat split; auto.
      * inversion H; subst.
        apply closePagesOf_run in E1.
        destruct E1 as [Hb1 [Hc1 [ks1 [Hp1 [Hs1 Hr1]]]]].
        split; [congruence|].
        exists [], ks1. rewrite delete_all_nil.
        repeat split; auto; simpl; intros; try (contradiction || discriminate).
        destruct (Hs1 _ H0) as [p [Hin Hp']].
        exists p, cid, c. repeat split; auto.
    + step. apply IH in H.
      destruct H as [Hb [cks [pks [Hc [Hp [Hsc [Hsp Hr]]]]]]].
      split; [exact Hb|]. exists cks, pks.
      split; [exact Hc|]. split; [exact Hp|]. split; [|split].
      * intros k Hk. destruct (Hsc _ Hk) as [c' [Hin Hc']].
        exists c'. split; [now right | auto].
      * intros k Hk.
        destruct (Hsp _ Hk) as [p [cid' [c' [Hin [Hin' [Hc' Hp']]]]]].
        exists p, cid', c'. repeat split; auto with datatypes.
      * intros Ho. destruct (Hr Ho) as [Hrc Hrp]. split.
        -- intros k c' [[= <- <-]|Hin] Hc'; [congruence|]. eapply Hrc; eauto.
        -- intros k p cid' c' Hin [[= <- <-]|Hin'] Hc' Hp'; [congruence|].
           eapply Hrp; eauto.
Qed.

Lemma closeContextsOf_returns (b : Browser) entries s :
  closes_succeed drv ->
  is_returned (fst (closeContextsOf drv b entries s)) = true.
Proof.
  intros Hok. revert s. induction entries as [|[cid c] rest IH]; intros s.
  - reflexivity.
  - simpl. unfold bind at 1. destruct (context_in b c).
    + unfold bind at 1. unfold gets at 1. unfold bind at 1.
      pose proof (closePagesOf_returns drv c (JsMap.entries (pages s)) s Hok) as Hr.
      destruct (closePagesOf drv c (JsMap.entries (pages s)) s) as [[[]|e] s1];
        [|discriminate].
      unfold bind at 1. unfold native at 1.
      destruct Hok as [_ [Hc _]]. specialize (Hc c (world s1)).
      destruct (context_close drv c (world s1)) as [o w]. simpl in Hc. subst o.
      simpl. apply IH.
    + step. apply IH.
Qed.

End WithDriver.
End CascadeOuter.

Module CascadeCalls.
Import JsMapFacts JsMapWf Registry Hierarchy Cascade CascadeOuter.

Section WithDriver.

Context {World : Type}.
Variable drv : Driver World.
Local Abbreviation Server := (@Registry.Server World).
Implicit Types (s : Server).

Lemma keys_ok_wf s :
  keys_ok s = true ->
  JsMap.wf (browsers s) /\ JsMap.wf (contexts s) /\ JsMap.wf (pages s).
Proof.
  unfold keys_ok. rewrite !andb_true_iff, !distinct_strings_NoDup.
  unfold JsMap.wf. tauto.
Qed.

Lemma in_values {V : Type} (m : JsMap.t V) v :
  In v (JsMap.values m) <-> exists k, In (k, v) m.
Proof.
  unfold JsMap.values. rewrite in_map_iff. split.
  - intros [[k v'] [Heq Hin]]. simpl in Heq. subst. eauto.
  - intros [k Hin]. exists (k, v). auto.
Qed.

Lemma below_browser_iff b s p :
  below_browser b s p = true <->
  exists cid c, In (cid, c) (contexts s) /\ context_in b c = true
                /\ page_in c p = true.
Proof.
  unfold below_browser, child_contexts. rewrite existsb_exists. split.
  - intros [c [Hin Hp]]. apply filter_In in Hin. destruct Hin as [Hin Hc].
    apply in_values in Hin. destruct Hin as [cid Hin]. eauto.
  - intros [cid [c [Hin [Hc Hp]]]]. exists c. split; auto.
    apply filter_In. split; auto. apply in_values. eauto.
Qed.

(** [closePage]: not found, or the driver's answer decides. *)
Lemma closePage_cases pageId s :
  match JsMap.get pageId (pages s) with
  | None => closePage drv pageId s = (Thrown (NotFound KPage pageId), s)
  | Some page =>
      match page_close drv page (world s) with
      | (Returned _, w) =>
          closePage drv pageId s
          = (Returned pageId,
             {| browsers := browsers s; contexts := contexts s;
                pages := JsMap.delete pageId (pages s); world := w |})
      | (Thrown e, w) =>
          closePage drv pageId s
          = (Thrown e,
             {| browsers := browsers s; contexts := contexts s;
                pages := pages s; world := w |})
      end
  end.
Proof.
  unfold closePage. step.
  destruct (JsMap.get pageId (pages s)) as [page|]; auto.
  destruct (page_close drv page (world s)) as [[[]|e] w]; auto.
Qed.

(** [closeContext] on a context that is present. *)
Lemma closeContext_cases contextId c s o s' :
  JsMap.wf (pages s) ->
  JsMap.get contextId (contexts s) = Some c ->
  closeContext drv contextId s = (o, s') ->
  match o with
  | Returned r => r = contextId /\ closed_context contextId c s s'
  | Thrown e =>
      kept_outside_context c s s'
      /\ exists w, (exists k p, In (k, p) (pages s) /\ page_in c p = true
                                /\ fst (page_close drv p w) = Thrown e)
                   \/ fst (context_close drv c w) = Thrown e
  end.
Proof.
  intros Hwf Hget H. unfold closeContext in H.
  unfold bind at 1 in H. unfold getOrThrow in H. rewrite Hget in H.
  unfold bind at 1 in H. unfold gets at 1 in H.
  unfold bind at 1 in H.
  destruct (closePagesOf drv c (JsMap.entries (pages s)) s)
    as [[[]|e] s1] eqn:E1.
  - apply closePagesOf_run in E1.
    destruct E1 as [Hb1 [Hc1 [ks [Hp1 [Hs1 Hr1]]]]].
    assert (Hexact : pages s1
                     = filter (fun e => negb (page_in c (snd e))) (pages s)).
    { rewrite Hp1. apply delete_all_exact; auto.
      intros k p. apply Hr1. reflexivity. }
    unfold bind at 1 in H. unfold native at 1 in H.
    destruct (context_close drv c (world s1)) as [[[]|e] w] eqn:Ec.
    + step. inversion H; subst. simpl. split; auto.
      unfold closed_context. simpl. rewrite Hb1, Hc1. auto.
    + inversion H; subst. simpl. split.
      * unfold kept_outside_context. simpl.
        split; [auto|]. split; [auto|]. rewrite Hexact. split.
        -- intros x Hx. apply filter_In in Hx. tauto.
        -- intros k p Hin Hp. apply filter_In. simpl. rewrite Hp. auto.
      * exists (world s1). right. now rewrite Ec.
  - inversion H; subst.
    pose proof (closePagesOf_thrown drv _ _ _ _ _ E1) as [k [p [w [Hin Hth]]]].
    apply closePagesOf_run in E1.
    destruct E1 as [Hb1 [Hc1 [ks [Hp1 [Hs1 Hr1]]]]].
    split.
    + unfold kept_outside_context.
      split; [auto|]. split; [auto|]. rewrite Hp1. split.
      * intros [k' p'] Hx. apply in_delete_all in Hx. tauto.
      * intros k' p' Hin' Hp'. apply in_delete_all. split; auto.
        intros Hk. destruct (Hs1 _ Hk) as [p'' [Hin'' Hp'']].
        assert (p' = p'') by (eapply wf_in_unique; eauto). congruence.
    + exists w. left. exists k, p. tauto.
Qed.

Lemma closeContext_not_found contextId s :
  JsMap.get contextId (contexts s) = None ->
  closeContext drv contextId s = (Thrown (NotFound KContext contextId), s).
Proof.
  intros Hget. unfold closeContext, bind, getOrThrow. now rewrite Hget.
Qed.

Lemma closeContext_returns contextId c s :
  closes_succeed drv ->
  JsMap.get contextId (contexts s) = Some c ->
  is_returned (fst (closeContext drv contextId s)) = true.
Proof.
  intros Hok Hget. unfold closeContext.
  unfold bind at 1. unfold getOrThrow. rewrite Hget.
  unfold bind at 1. unfold gets at 1. unfold bind at 1.
  pose proof (closePagesOf_returns drv c (JsMap.entries (pages s)) s Hok) as Hr.
  destruct (closePagesOf drv c (JsMap.entries (pages s)) s) as [[[]|e] s1];
    [|discriminate].
  unfold bind at 1. unfold native at 1.
  destruct Hok as [_ [Hc _]]. specialize (Hc c (world s1)).
  destruct (context_close drv c (world s1)) as [o w]. simpl in Hc. subst o.
  reflexivity.
Qed.

(** [closeBrowser] on a browser that is present. *)
Lemma closeBrowser_cases browserId b s o s' :
  JsMap.wf (contexts s) -> JsMap.wf (pages s) ->
  JsMap.get browserId (browsers s) = Some b ->
  closeBrowser drv browserId s = (o, s') ->
  match o with
  | Returned r => r = browserId /\ closed_browser browserId b s s'
  | Thrown e => kept_outside_browser b s s'
  end.
Proof.
  intros Hwfc Hwfp Hget H. unfold closeBrowser in H.
  unfold bind at 1 in H. unfold getOrThrow in H. rewrite Hget in H.
  unfold bind at 1 in H. unfold gets at 1 in H.
  unfold bind at 1 in H.
  destruct (closeContextsOf drv b (JsMap.entries (contexts s)) s)
    as [o1 s1] eqn:E1.
  apply closeContextsOf_run in E1.
  destruct E1 as [Hb1 [cks [pks [Hc1 [Hp1 [Hsc [Hsp Hr]]]]]]].
  assert (Hkept : kept_outside_browser b s s1).
  { unfold kept_outside_browser. split; [auto|].
    rewrite Hc1, Hp1. repeat split.
    - intros [k c] Hx. apply in_delete_all in Hx. tauto.
    - intros [k p] Hx. apply in_delete_all in Hx. tauto.
    - intros k c Hin Hc. apply in_delete_all. split; auto.
      intros Hk. destruct (Hsc _ Hk) as [c' [Hin' Hc']].
      assert (c = c') by (eapply wf_in_unique; eauto). congruence.
    - intros k p Hin Hp. apply in_delete_all. split; auto.
      intros Hk. destruct (Hsp _ Hk) as [p' [cid [c [Hin' [Hinc [Hc Hp']]]]]].
      assert (p = p') by (eapply wf_in_unique; eauto). subst p'.
      assert (below_browser b s p = true)
        by (apply below_browser_iff; eauto).
      congruence. }
  destruct o1 as [[]|e].
  - destruct (Hr eq_refl) as [Hrc Hrp].
    unfold bind at 1 in H. unfold native at 1 in H.
    destruct (browser_close drv b (world s1)) as [[[]|e] w] eqn:Ec.
    + step. inversion H; subst. simpl. split; auto.
      unfold closed_browser. simpl. rewrite Hb1. split; [auto|]. split.
      * rewrite Hc1. apply delete_all_exact; auto.
      * rewrite Hp1. apply delete_all_exact; auto.
        -- intros k Hk.
           destruct (Hsp _ Hk) as [p [cid [c [Hin [Hinc [Hc Hp]]]]]].
           exists p. split; auto. apply below_browser_iff. eauto.
        -- intros k p Hin Hp. apply below_browser_iff in Hp.
           destruct Hp as [cid [c [Hinc [Hc Hp]]]]. eapply Hrp; eauto.
    + inversion H; subst. exact Hkept.
  - inversion H; subst. exact Hkept.
Qed.

Lemma closeBrowser_not_found browserId s :
  JsMap.get browserId (browsers s) = None ->
  closeBrowser drv browserId s = (Thrown (NotFound KBrowser browserId), s).
Proof.
  intros Hget. unfold closeBrowser, bind, getOrThrow. now rewrite Hget.
Qed.

Lemma closeBrowser_returns browserId b s :
  closes_succeed drv ->
  JsMap.get browserId (browsers s) = Some b ->
  is_returned (fst (closeBrowser drv browserId s)) = true.
Proof.
  intros Hok Hget. unfold closeBrowser.
  unfold bind at 1. unfold getOrThrow. rewrite Hget.
  unfold bind at 1. unfold gets at 1. unfold bind at 1.
  pose proof (closeContextsOf_returns drv b (JsMap.entries (contexts s)) s Hok)
    as Hr.
  destruct (closeContextsOf drv b (JsMap.entries (contexts s)) s)
    as [[[]|e] s1]; [|discriminate].
  unfold bind at 1. unfold native at 1.
  destruct Hok as [_ [_ Hb]]. specialize (Hb b (world s1)).
  destruct (browser_close drv b (world s1)) as [o w]. simpl in Hb. subst o.
  reflexivity.
Qed.

End WithDriver.
End CascadeCalls.

Module Validity.
Import JsMapFacts JsMapWf Registry Hierarchy Cascade CascadeOuter CascadeCalls.

Section WithWorld.

Context {World : Type}.
Local Abbreviation Server := (@Registry.Server World).
Implicit Types (s : Server).

Lemma valid_parts s :
  valid s = true ->
  keys_ok s = true /\ objects_ok s = true /\ owners_ok s = true.
Proof. unfold valid. rewrite !andb_true_iff. tauto. Qed.

Lemma owners_ok_iff s :
  owners_ok s = true <->
  (forall c, In c (JsMap.values (contexts s)) ->
     exists b, In b (JsMap.values (browsers s)) /\ context_in b c = true)
  /\ (forall p, In p (JsMap.values (pages s)) ->
        exists c, In c (JsMap.values (contexts s)) /\ page_in c p = true).
Proof.
  unfold owners_ok. rewrite andb_true_iff, !forallb_forall.
  split; intros [H1 H2]; split; intros x Hx.
  - apply existsb_exists. auto.
  - apply existsb_exists. auto.
  - apply existsb_exists. auto.
  - apply existsb_exists. auto.
Qed.

Lemma NoDup_map_filter {A B : Type} (f : A -> B) (g : A -> bool) (l : list A) :
  NoDup (map f l) -> NoDup (map f (filter g l)).
Proof.
  induction l as [|x l IH]; simpl; auto.
  intros H. inversion H as [|? ? Hnotin Hnd]; subst.
  destruct (g x); simpl; auto.
  constructor; auto.
  intros Hin. apply Hnotin. apply in_map_iff in Hin.
  destruct Hin as [y [Heq Hin]]. apply filter_In in Hin.
  apply in_map_iff. exists y. tauto.
Qed.

Lemma NoDup_map_eq {A B : Type} (f : A -> B) (l : list A) x y :
  NoDup (map f l) -> In x l -> In y l -> f x = f y -> x = y.
Proof.
  induction l as [|z l IH]; simpl; [tauto|].
  intros H. inversion H as [|? ? Hnotin Hnd]; subst.
  intros [->|Hx] [->|Hy] Heq; auto.
  - exfalso. apply Hnotin. rewrite Heq. now apply in_map.
  - exfalso. apply Hnotin. rewrite <- Heq. now apply in_map.
Qed.

(** One object sits under one key. *)
Lemma object_one_key {V : Type} (ref : V -> nat) (m : JsMap.t V) k v k' v' :
  distinct_nats (map ref (JsMap.values m)) = true ->
  In (k, v) m -> In (k', v') m -> ref v = ref v' -> k = k'.
Proof.
  rewrite distinct_nats_NoDup. unfold JsMap.values. rewrite map_map.
  intros Hnd Hin Hin' Heq.
  assert ((k, v) = (k', v')) as [= -> ->]; auto.
  eapply (NoDup_map_eq (fun e => ref (snd e))); eauto.
Qed.

Lemma values_filter_distinct {V : Type} (ref : V -> nat) (m : JsMap.t V) g :
  distinct_nats (map ref (JsMap.values m)) = true ->
  distinct_nats (map ref (JsMap.values (filter g m))) = true.
Proof.
  rewrite !distinct_nats_NoDup. unfold JsMap.values. rewrite !map_map.
  apply NoDup_map_filter.
Qed.

Lemma keys_filter_distinct {V : Type} (m : JsMap.t V) g :
  distinct_strings (JsMap.keys m) = true ->
  distinct_strings (JsMap.keys (filter g m)) = true.
Proof.
  rewrite !distinct_strings_NoDup. apply wf_filter.
Qed.

Lemma closed_browser_gone browserId b s s' :
  valid s = true ->
  JsMap.get browserId (browsers s) = Some b ->
  closed_browser browserId b s s' ->
  browser_gone browserId b s s'.
Proof.
  intros Hv Hget [Hb [Hc Hp]].
  destruct (valid_parts _ Hv) as [Hk [Ho _]].
  destruct (keys_ok_wf _ Hk) as [Hwb [Hwc Hwp]].
  unfold objects_ok in Ho. rewrite !andb_true_iff in Ho.
  destruct Ho as [[Hob Hoc] Hop].
  unfold browser_gone. rewrite Hb, Hc, Hp.
  split; [apply get_delete_same|]. split; [|split; [|split; [|split]]].
  - intros k b' Hin Href. apply in_delete in Hin. destruct Hin as [Hin Hne].
    apply Hne. symmetry.
    eapply (object_one_key b_ref); eauto using get_in.
  - intros k c Hin Hcb.
    destruct (JsMap.get k _) as [c'|] eqn:G; auto.
    apply get_in in G. apply filter_In in G. simpl in G. destruct G as [G1 G2].
    assert (c = c') by (eapply wf_in_unique; eauto). subst.
    rewrite Hcb in G2. discriminate.
  - intros k c Hin. apply filter_In in Hin. simpl in Hin.
    destruct Hin as [_ Hin]. now apply negb_true_iff in Hin.
  - intros k p Hin Hpb.
    destruct (JsMap.get k _) as [p'|] eqn:G; auto.
    apply get_in in G. apply filter_In in G. simpl in G. destruct G as [G1 G2].
    assert (p = p') by (eapply wf_in_unique; eauto). subst.
    rewrite Hpb in G2. discriminate.
  - intros k p Hin. apply filter_In in Hin. simpl in Hin.
    destruct Hin as [_ Hin]. now apply negb_true_iff in Hin.
Qed.

Lemma closed_context_gone contextId c s s' :
  valid s = true ->
  JsMap.get contextId (contexts s) = Some c ->
  closed_context contextId c s s' ->
  context_gone contextId c s s'.
Proof.
  intros Hv Hget [Hb [Hc Hp]].
  destruct (valid_parts _ Hv) as [Hk [Ho _]].
  destruct (keys_ok_wf _ Hk) as [Hwb [Hwc Hwp]].
  unfold objects_ok in Ho. rewrite !andb_true_iff in Ho.
  destruct Ho as [[Hob Hoc] Hop].
  unfold context_gone. rewrite Hc, Hp.
  split; [apply get_delete_same|]. split; [|split].
  - intros k c' Hin Href. apply in_delete in Hin. destruct Hin as [Hin Hne].
    apply Hne. symmetry.
    eapply (object_one_key c_ref); eauto using get_in.
  - intros k p Hin Hpc.
    destruct (JsMap.get k _) as [p'|] eqn:G; auto.
    apply get_in in G. apply filter_In in G. simpl in G. destruct G as [G1 G2].
    assert (p = p') by (eapply wf_in_unique; eauto). subst.
    rewrite Hpc in G2. discriminate.
  - intros k p Hin. apply filter_In in Hin. simpl in Hin.
    destruct Hin as [_ Hin]. now apply negb_true_iff in Hin.
Qed.

(** Closing a browser leaves a well-formed registry: no handle outlives
    its owner. *)
Lemma closed_browser_valid browserId b s s' :
  valid s = true ->
  JsMap.get browserId (browsers s) = Some b ->
  closed_browser browserId b s s' ->
  valid s' = true.
Proof.
  intros Hv Hget [Hb [Hc Hp]].
  destruct (valid_parts _ Hv) as [Hk [Ho Hw]].
  destruct (keys_ok_wf _ Hk) as [Hwb [Hwc Hwp]].
  unfold valid, keys_ok, objects_ok in *.
  rewrite !andb_true_iff in *.
  destruct Hk as [[Hkb Hkc] Hkp]. destruct Ho as [[Hob Hoc] Hop].
  rewrite Hb, Hc, Hp. unfold JsMap.delete.
  repeat split;
    try (apply keys_filter_distinct; assumption);
    try (apply values_filter_distinct; assumption).
  apply owners_ok_iff in Hw. destruct Hw as [Hw1 Hw2].
  apply owners_ok_iff. rewrite Hb, Hc, Hp. unfold JsMap.delete. split.
  - intros c Hin. apply in_values in Hin. destruct Hin as [k Hin].
    apply filter_In in Hin. simpl in Hin. destruct Hin as [Hin Hnc].
    apply negb_true_iff in Hnc.
    destruct (Hw1 c) as [b' [Hinb Hcb]]; [apply in_values; eauto|].
    exists b'. split; auto.
    apply in_values in Hinb. destruct Hinb as [k' Hinb].
    apply in_values. exists k'. apply filter_In. split; auto. simpl.
    apply negb_true_iff. apply String.eqb_neq. intros <-.
    assert (b = b') by (eapply wf_in_unique; eauto using get_in). congruence.
  - intros p Hin. apply in_values in Hin. destruct Hin as [k Hin].
    apply filter_In in Hin. simpl in Hin. destruct Hin as [Hin Hnp].
    apply negb_true_iff in Hnp.
    destruct (Hw2 p) as [c [Hinc Hpc]]; [apply in_values; eauto|].
    exists c. split; auto.
    apply in_values in Hinc. destruct Hinc as [k' Hinc].
    apply in_values. exists k'. apply filter_In. split; auto. simpl.
    apply negb_true_iff. destruct (context_in b c) eqn:Ecb; auto.
    assert (below_browser b s p = true)
      by (apply below_browser_iff; eauto).
    congruence.
Qed.

Lemma closed_context_valid contextId c s s' :
  valid s = true ->
  JsMap.get contextId (contexts s) = Some c ->
  closed_context contextId c s s' ->
  valid s' = true.
Proof.
  intros Hv Hget [Hb [Hc Hp]].
  destruct (valid_parts _ Hv) as [Hk [Ho Hw]].
  destruct (keys_ok_wf _ Hk) as [Hwb [Hwc Hwp]].
  unfold valid, keys_ok, objects_ok in *.
  rewrite !andb_true_iff in *.
  destruct Hk as [[Hkb Hkc] Hkp]. destruct Ho as [[Hob Hoc] Hop].
  rewrite Hb, Hc, Hp. unfold JsMap.delete.
  repeat split; auto;
    try (apply keys_filter_distinct; assumption);
    try (apply values_filter_distinct; assumption).
  apply owners_ok_iff in Hw. destruct Hw as [Hw1 Hw2].
  apply owners_ok_iff. rewrite Hb, Hc, Hp. unfold JsMap.delete. split.
  - intros c' Hin. apply in_values in Hin. destruct Hin as [k Hin].
    apply filter_In in Hin. destruct Hin as [Hin _].
    apply Hw1. apply in_values. eauto.
  - intros p Hin. apply in_values in Hin. destruct Hin as [k Hin].
    apply filter_In in Hin. simpl in Hin. destruct Hin as [Hin Hnp].
    apply negb_true_iff in Hnp.
    destruct (Hw2 p) as [c' [Hinc Hpc]]; [apply in_values; eauto|].
    exists c'. split; auto.
    apply in_values in Hinc. destruct Hinc as [k' Hinc].
    apply in_values. exists k'. apply filter_In. split; auto. simpl.
    apply negb_true_iff. apply String.eqb_neq. intros <-.
    assert (c = c') by (eapply wf_in_unique; eauto using get_in). congruence.
Qed.

End WithWorld.
End Validity.

Module CloseErrors.
Import JsMapFacts JsMapWf Registry Hierarchy Cascade CascadeOuter CascadeCalls Validity.

Section WithDriver.

Context {World : Type}.
Variable drv : Driver World.
Local Abbreviation Server := (@Registry.Server World).
Implicit Types (s : Server).

(** * [cleanupSession] *)

Variable events : PageEvents World.
Local Abbreviation AI := (@AIServer.Server World).

Lemma delete_set_same {V : Type} k (v : V) (m : JsMap.t V) :
  JsMap.delete k (JsMap.set k v m) = JsMap.delete k m.
Proof.
  unfold JsMap.delete. induction m as [|[k' v'] m IH]; simpl.
  - now rewrite String.eqb_refl.
  - destruct (String.eqb k k') eqn:E; simpl.
    + now rewrite String.eqb_refl.
    + rewrite E. simpl. now rewrite IH.
Qed.

Lemma delete_forgetIn socketId (m : JsMap.t AIServer.Session) :
  JsMap.delete socketId (AIServer.forgetIn socketId m)
  = JsMap.delete socketId m.
Proof.
  unfold AIServer.forgetIn. destruct (JsMap.get socketId m); auto.
  apply delete_set_same.
Qed.

Lemma get_forgetIn_other socketId other (m : JsMap.t AIServer.Session) :
  other <> socketId ->
  JsMap.get other (AIServer.forgetIn socketId m) = JsMap.get other m.
Proof.
  intros Hne. unfold AIServer.forgetIn. destruct (JsMap.get socketId m); auto.
  apply get_set_other. congruence.
Qed.

(** An awaited close, with its listener. *)
Lemma closing_run fired socket op (a : AI) :
  AIServer.closing fired socket op a
  = (fst (op (AIServer.world a)),
     {| AIServer.activeSessions :=
          if fired (AIServer.world a)
          then AIServer.forgetIn (AIServer.socket_id socket)
                 (AIServer.activeSessions a)
          else AIServer.activeSessions a;
        AIServer.emitted :=
          (AIServer.emitted a
           ++ AIServer.close_event_updates (AIServer.socket_id socket)
                (fired (AIServer.world a)))%list;
        AIServer.console :=
          (AIServer.console a
           ++ AIServer.close_event_lines (AIServer.socket_id socket)
                (fired (AIServer.world a)))%list;
        AIServer.world := snd (op (AIServer.world a)) |}).
Proof.
  unfold AIServer.closing, AIServer.native, AIServer.onPageClose,
    AIServer.emitStatus, AIServer.consoleWrite, bind, modify.
  destruct (op (AIServer.world a)) as [o w]. simpl.
  destruct (fired (AIServer.world a)); simpl.
  - now rewrite <- app_assoc.
  - now rewrite !app_nil_r.
Qed.

Lemma cleanupSession_run socketId (a : AI) :
  exists a',
    AIServer.cleanupSession drv events socketId a = (Returned tt, a')
    /\ JsMap.get socketId (AIServer.activeSessions a') = None
    /\ AIServer.activeSessions a'
       = JsMap.delete socketId (AIServer.activeSessions a)
    /\ match JsMap.get socketId (AIServer.activeSessions a) with
       | None => a' = a
       | Some session =>
           AIServer.console a'
           = (AIServer.console a
              ++ AIServer.cleanup_lines drv events socketId session
                   (AIServer.world a))%list
           /\ AIServer.emitted a'
              = (AIServer.emitted a
                 ++ AIServer.cleanup_updates drv events socketId session
                      (AIServer.world a))%list
       end.
Proof.
  unfold AIServer.cleanupSession, AIServer.cleanup_lines,
    AIServer.cleanup_updates, AIServer.world_after_page.
  unfold bind at 1. unfold gets at 1.
  destruct (JsMap.get socketId (AIServer.activeSessions a))
    as [[browser page history]|] eqn:G.
  - cbn [AIServer.s_page AIServer.s_browser].
    unfold bind, try_catch, AIServer.consoleWrite, AIServer.deleteSession,
      modify, ret.
    destruct page as [page|]; destruct browser as [browser|];
      rewrite ?closing_run; cbn [fst snd AIServer.world AIServer.console
        AIServer.emitted AIServer.activeSessions AIServer.socket_id].
    + destruct (page_close drv page (AIServer.world a)) as [[[]|e1] w1];
        cbn [fst snd]; rewrite ?closing_run;
        cbn [fst snd AIServer.world AIServer.console AIServer.emitted
             AIServer.activeSessions AIServer.socket_id];
        destruct (browser_close drv browser w1) as [[[]|e2] w2];
        cbn [fst snd AIServer.world AIServer.console AIServer.emitted
             AIServer.activeSessions AIServer.socket_id];
        eexists; (split; [reflexivity|]);
        cbn [AIServer.world AIServer.console AIServer.emitted
             AIServer.activeSessions AIServer.page_close_line
             AIServer.browser_close_line];
        repeat match goal with
               | |- context [if ?b then _ else _] => destruct b
               end;
        rewrite ?delete_forgetIn, <- ?app_assoc; cbn [app];
        auto using get_delete_same.
    + destruct (page_close drv page (AIServer.world a)) as [[[]|e1] w1];
        cbn [fst snd AIServer.world AIServer.console AIServer.emitted
             AIServer.activeSessions AIServer.socket_id];
        eexists; (split; [reflexivity|]);
        cbn [AIServer.world AIServer.console AIServer.emitted
             AIServer.activeSessions AIServer.page_close_line
             AIServer.browser_close_line];
        repeat match goal with
               | |- context [if ?b then _ else _] => destruct b
               end;
        rewrite ?delete_forgetIn, <- ?app_assoc, ?app_nil_r; cbn [app];
        auto using get_delete_same.
    + destruct (browser_close drv browser (AIServer.world a))
        as [[[]|e2] w2];
        cbn [fst snd AIServer.world AIServer.console AIServer.emitted
             AIServer.activeSessions AIServer.socket_id];
        eexists; (split; [reflexivity|]);
        cbn [AIServer.world AIServer.console AIServer.emitted
             AIServer.activeSessions AIServer.page_close_line
             AIServer.browser_close_line];
        repeat match goal with
               | |- context [if ?b then _ else _] => destruct b
               end;
        rewrite ?delete_forgetIn, <- ?app_assoc, ?app_nil_r; cbn [app];
        auto using get_delete_same.
    + eexists; (split; [reflexivity|]);
        cbn [AIServer.world AIServer.console AIServer.emitted
             AIServer.activeSessions];
        rewrite <- ?app_assoc, ?app_nil_r; cbn [app];
        auto using get_delete_same.
  - exists a. unfold ret. repeat split; auto.
    symmetry. now apply delete_absent.
Qed.

End WithDriver.
End CloseErrors.

(** * Interrupted closes *)
Module Interruptions.
Import JsMapFacts JsMapWf Registry Hierarchy Interrupted Cascade CascadeOuter
  CascadeCalls.

Section WithDriver.

Context {World : Type}.
Variable drv : Driver World.
Local Abbreviation Server := (@Registry.Server World).
Implicit Types (s : Server).





End WithDriver.
End Interruptions.

Module Stopped.
Import JsMapFacts JsMapWf Registry Hierarchy Interrupted Cascade CascadeOuter
  CascadeCalls Interruptions.

Section WithDriver.

Context {World : Type}.
Variable drv : Driver World.
Local Abbreviation Server := (@Registry.Server World).
Implicit Types (s : Server).




Lemma get_delete_all_in {V : Type} ks (m : JsMap.t V) k :
  In k ks -> JsMap.get k (JsMap.delete_all ks m) = None.
Proof.
  intros Hin. destruct (JsMap.get k (JsMap.delete_all ks m)) as [v|] eqn:E;
    [|reflexivity].
  apply get_in in E. apply in_delete_all in E. tauto.
Qed.




End WithDriver.
End Stopped.

Module CascadeClaims.
Import JsMapFacts JsMapWf Registry Hierarchy Interrupted Cascade CascadeOuter
  CascadeCalls Validity Interruptions.

(** C1.  Cascade completeness.  In a well-formed registry [closeBrowser]
    on a browser that is present returns whenever no driver close throws,
    and whenever it returns it leaves the browsers without that key, the
    contexts without the contexts of the browser and the pages without the
    pages of those contexts: neither the handle nor a handle below it is
    left in a map, and the registry is well formed again.  [closeContext]
    does the same one level down. *)
Theorem cascade_completeness {World : Type} (drv : Driver World)
  (s : @Registry.Server World) :
  valid s = true ->
  (forall browserId b,
     JsMap.get browserId (browsers s) = Some b ->
     (closes_succeed drv ->
      is_returned (fst (closeBrowser drv browserId s)) = true)
     /\ (forall r s',
           closeBrowser drv browserId s = (Returned r, s') ->
           r = browserId
           /\ closed_browser browserId b s s'
           /\ browser_gone browserId b s s'
           /\ valid s' = true))
  /\ (forall contextId c,
        JsMap.get contextId (contexts s) = Some c ->
        (closes_succeed drv ->
         is_returned (fst (closeContext drv contextId s)) = true)
        /\ (forall r s',
              closeContext drv contextId s = (Returned r, s') ->
              r = contextId
              /\ closed_context contextId c s s'
              /\ context_gone contextId c s s'
              /\ valid s' = true)).
Proof.
  intros Hv.
  destruct (valid_parts _ Hv) as [Hk _].
  destruct (keys_ok_wf _ Hk) as [Hwb [Hwc Hwp]].
  split.
  - intros browserId b Hget. split.
    + intros Hok. now apply closeBrowser_returns with (b := b).
    + intros r s' E.
      pose proof (closeBrowser_cases drv _ _ _ _ _ Hwc Hwp Hget E) as [-> Hc].
      split; [reflexivity|]. split; [exact Hc|].
      split; [eapply closed_browser_gone | eapply closed_browser_valid]; eauto.
  - intros contextId c Hget. split.
    + intros Hok. now apply closeContext_returns with (c := c).
    + intros r s' E.
      pose proof (closeContext_cases drv _ _ _ _ _ Hwp Hget E) as [-> Hc].
      split; [reflexivity|]. split; [exact Hc|].
      split; [eapply closed_context_gone | eapply closed_context_valid]; eauto.
Qed.

(** The theorem on the sample registry: closing browser [b1] leaves the
    second browser with its context and page. *)
Lemma cascade_completeness_witness :
  valid (Sample.registry Sample.calm) = true
  /\ JsMap.get "b1" (browsers (Sample.registry Sample.calm)) = Some Sample.b1
  /\ closes_succeed Sample.steady
  /\ is_returned
       (fst (closeBrowser Sample.steady "b1" (Sample.registry Sample.calm)))
     = true
  /\ closed_browser "b1" Sample.b1 (Sample.registry Sample.calm)
       {| browsers := [("b2", Sample.b2)];
          contexts := [("c2", Sample.c2)];
          pages := [("p3", Sample.p3)];
          world := Sample.calm |}
  /\ browser_gone "b1" Sample.b1 (Sample.registry Sample.calm)
       {| browsers := [("b2", Sample.b2)];
          contexts := [("c2", Sample.c2)];
          pages := [("p3", Sample.p3)];
          world := Sample.calm |}.
Proof.
  assert (Hv : valid (Sample.registry Sample.calm) = true) by reflexivity.
  assert (Hok : closes_succeed Sample.steady) by (repeat split).
  destruct (proj1 (cascade_completeness Sample.steady
                     (Sample.registry Sample.calm) Hv)
              "b1" Sample.b1 eq_refl) as [Hret Hgone].
  destruct (Hgone "b1" _ eq_refl) as [_ [Hclosed [Hg _]]].
  split; [exact Hv|]. split; [reflexivity|]. split; [exact Hok|].
  split; [exact (Hret Hok)|]. split; [exact Hclosed | exact Hg].
Defined.




End CascadeClaims.

Module CloseClaims.
Import JsMapFacts JsMapWf Registry Hierarchy Interrupted Cascade CascadeOuter
  CascadeCalls Validity CloseErrors Interruptions Stopped.




(** C10.  [closePage] on a page that is present changes neither the
    browsers nor the contexts nor any other page entry.  When the driver's
    close returns, the call returns and the pages are the old ones without
    that key: with one entry per key, exactly that entry is taken out.
    When the driver's close throws, the call throws and the pages are
    unchanged. *)
Theorem closePage_frame {World : Type} (drv : Driver World)
  (s : @Registry.Server World) pageId page :
  JsMap.get pageId (pages s) = Some page ->
  exists o s',
    closePage drv pageId s = (o, s')
    /\ browsers s' = browsers s
    /\ contexts s' = contexts s
    /\ (forall k, k <> pageId ->
        JsMap.get k (pages s') = JsMap.get k (pages s))
    /\ match fst (page_close drv page (world s)) with
       | Returned _ =>
           o = Returned pageId
           /\ pages s' = JsMap.delete pageId (pages s)
           /\ JsMap.get pageId (pages s') = None
           /\ (JsMap.wf (pages s) ->
               exists l1 l2,
                 pages s = (l1 ++ (pageId, page) :: l2)%list
                 /\ pages s' = (l1 ++ l2)%list)
       | Thrown e => o = Thrown e /\ pages s' = pages s
       end.
Proof.
  intros Hget. pose proof (closePage_cases drv pageId s) as H.
  rewrite Hget in H.
  destruct (page_close drv page (world s)) as [[[]|e] w]; simpl;
    rewrite H; do 2 eexists; (split; [reflexivity|]); simpl.
  - split; auto. split; auto. split.
    + intros k Hne. apply get_delete_other. congruence.
    + split; auto. split; auto. split; [apply get_delete_same|].
      intros Hwf. now apply wf_delete_split.
  - auto.
Qed.

Lemma closePage_frame_witness :
  JsMap.get "p1" (pages (Sample.registry Sample.calm)) = Some Sample.p1
  /\ exists o s',
       closePage Sample.driver "p1" (Sample.registry Sample.calm) = (o, s')
       /\ browsers s' = [("b1", Sample.b1); ("b2", Sample.b2)]
       /\ contexts s' = [("c1", Sample.c1); ("c2", Sample.c2)]
       /\ pages s' = [("p2", Sample.p2); ("p3", Sample.p3)].
Proof.
  split; [reflexivity|].
  destruct (closePage_frame Sample.driver (Sample.registry Sample.calm)
              "p1" Sample.p1 eq_refl)
    as [o [s' [E [Hb [Hc [_ [_ [Hp _]]]]]]]].
  exists o, s'. repeat split; assumption.
Defined.

End CloseClaims.

Module Creation.
Import JsMapFacts JsMapWf Registry Hierarchy Cascade CascadeOuter CascadeCalls.

Section WithDriver.

Context {World : Type}.
Variable drv : Driver World.
Local Abbreviation Server := (@Registry.Server World).
Implicit Types (s : Server).

Lemma closePage_returned_frees pageId s r s1 :
  closePage drv pageId s = (Returned r, s1) ->
  JsMap.has pageId (pages s1) = false.
Proof.
  intros H. pose proof (closePage_cases drv pageId s) as C.
  destruct (JsMap.get pageId (pages s)) as [page|]; [|congruence].
  destruct (page_close drv page (world s)) as [[[]|e] w]; rewrite C in H;
    inversion H; subst; simpl.
  apply has_false_iff. apply get_delete_same.
Qed.

Lemma closeContext_returned_frees contextId s r s1 :
  closeContext drv contextId s = (Returned r, s1) ->
  JsMap.has contextId (contexts s1) = false.
Proof.
  unfold closeContext. unfold bind at 1. unfold getOrThrow.
  destruct (JsMap.get contextId (contexts s)) as [c|]; [|discriminate].
  unfold bind at 1. unfold gets at 1. unfold bind at 1.
  destruct (closePagesOf drv c (JsMap.entries (pages s)) s)
    as [[[]|e] s0] eqn:E1; [|discriminate].
  unfold bind at 1. unfold native at 1.
  destruct (context_close drv c (world s0)) as [[[]|e] w]; [|discriminate].
  step. intros H. inversion H; subst. simpl.
  apply has_false_iff. apply get_delete_same.
Qed.

Lemma closeBrowser_returned_frees browserId s r s1 :
  closeBrowser drv browserId s = (Returned r, s1) ->
  JsMap.has browserId (browsers s1) = false.
Proof.
  unfold closeBrowser. unfold bind at 1. unfold getOrThrow.
  destruct (JsMap.get browserId (browsers s)) as [b|]; [|discriminate].
  unfold bind at 1. unfold gets at 1. unfold bind at 1.
  destruct (closeContextsOf drv b (JsMap.entries (contexts s)) s)
    as [[[]|e] s0] eqn:E1; [|discriminate].
  unfold bind at 1. unfold native at 1.
  destruct (browser_close drv b (world s0)) as [[[]|e] w]; [|discriminate].
  step. intros H. inversion H; subst. simpl.
  apply has_false_iff. apply get_delete_same.
Qed.

(** A creation call on a free id goes through to the driver and stores
    what the driver made. *)
Lemma launchBrowser_fresh browserType kind headless browserId s ref w :
  JsMap.has browserId (browsers s) = false ->
  parseBrowserType browserType = Some kind ->
  launch drv kind headless (world s) = (Returned ref, w) ->
  exists s',
    launchBrowser drv browserType headless browserId s = (Returned browserId, s')
    /\ JsMap.get browserId (browsers s')
       = Some {| b_ref := ref; b_kind := kind |}.
Proof.
  intros Hfree Hkind Hlaunch. unfold launchBrowser.
  unfold bind at 1. unfold throwIfHas. rewrite Hfree, Hkind.
  unfold bind at 1. unfold native at 1. rewrite Hlaunch.
  step. eexists. split; [reflexivity|]. simpl. apply get_set_same.
Qed.

Lemma createContext_fresh browserId b contextId viewport userAgent s ref w :
  JsMap.has contextId (contexts s) = false ->
  JsMap.get browserId (browsers s) = Some b ->
  newContext drv b (contextOptions viewport userAgent) (world s)
  = (Returned ref, w) ->
  exists s',
    createContext drv browserId contextId viewport userAgent s
    = (Returned contextId, s')
    /\ JsMap.get contextId (contexts s')
       = Some {| c_ref := ref; c_browser := b_ref b |}.
Proof.
  intros Hfree Hget Hnew. unfold createContext.
  unfold bind at 1. unfold getOrThrow. rewrite Hget.
  unfold bind at 1. unfold throwIfHas. rewrite Hfree.
  unfold bind at 1. unfold native at 1. rewrite Hnew.
  step. eexists. split; [reflexivity|]. simpl. apply get_set_same.
Qed.

Lemma createPage_fresh contextId c pageId s ref w :
  JsMap.has pageId (pages s) = false ->
  JsMap.get contextId (contexts s) = Some c ->
  newPage drv c (world s) = (Returned ref, w) ->
  exists s',
    createPage drv contextId pageId s = (Returned pageId, s')
    /\ JsMap.get pageId (pages s')
       = Some {| p_ref := ref; p_context := c_ref c |}.
Proof.
  intros Hfree Hget Hnew. unfold createPage.
  unfold bind at 1. unfold getOrThrow. rewrite Hget.
  unfold bind at 1. unfold throwIfHas. rewrite Hfree.
  unfold bind at 1. unfold native at 1. rewrite Hnew.
  step. eexists. split; [reflexivity|]. simpl. apply get_set_same.
Qed.

End WithDriver.

(** The registry that the three creation calls build is well formed, and
    closing its browser empties it. *)
Example started_registry_valid :
  Hierarchy.valid (Sample.started Sample.calm) = true
  /\ JsMap.keys (pages (Sample.started Sample.calm)) = ["page"]
  /\ same_maps (Sample.nothing Sample.calm)
       (snd (closeBrowser Sample.driver "main" (Sample.started Sample.calm))).
Proof. repeat split. Qed.

(** C8, as the code has it.  A creation call whose id is already in the
    map of its kind throws and leaves the registry as it was.  The error is
    [AlreadyExists] for [launchBrowser], and for [createContext] and
    [createPage] when the owner id is present; the owner is looked up
    first, so with an absent owner the error is the owner's [NotFound].  An
    id deleted by a close that returned is free: the creation call passes
    the check, calls the driver and stores the new handle. *)
Theorem duplicate_id_rejected {World : Type} (drv : Driver World)
  (s : @Registry.Server World) :
  (forall browserType headless browserId,
     JsMap.has browserId (browsers s) = true ->
     launchBrowser drv browserType headless browserId s
     = (Thrown (AlreadyExists KBrowser browserId), s))
  /\ (forall browserId contextId viewport userAgent,
        JsMap.has contextId (contexts s) = true ->
        createContext drv browserId contextId viewport userAgent s
        = (Thrown (match JsMap.get browserId (browsers s) with
                   | Some _ => AlreadyExists KContext contextId
                   | None => NotFound KBrowser browserId
                   end), s))
  /\ (forall contextId pageId,
        JsMap.has pageId (pages s) = true ->
        createPage drv contextId pageId s
        = (Thrown (match JsMap.get contextId (contexts s) with
                   | Some _ => AlreadyExists KPage pageId
                   | None => NotFound KContext contextId
                   end), s))
  /\ (forall browserId r s1 browserType kind headless ref w,
        closeBrowser drv browserId s = (Returned r, s1) ->
        parseBrowserType browserType = Some kind ->
        launch drv kind headless (world s1) = (Returned ref, w) ->
        exists s2,
          launchBrowser drv browserType headless browserId s1
          = (Returned browserId, s2)
          /\ JsMap.get browserId (browsers s2)
             = Some {| b_ref := ref; b_kind := kind |})
  /\ (forall contextId r s1 browserId b viewport userAgent ref w,
        closeContext drv contextId s = (Returned r, s1) ->
        JsMap.get browserId (browsers s1) = Some b ->
        newContext drv b (contextOptions viewport userAgent) (world s1)
        = (Returned ref, w) ->
        exists s2,
          createContext drv browserId contextId viewport userAgent s1
          = (Returned contextId, s2)
          /\ JsMap.get contextId (contexts s2)
             = Some {| c_ref := ref; c_browser := b_ref b |})
  /\ (forall pageId r s1 contextId c ref w,
        closePage drv pageId s = (Returned r, s1) ->
        JsMap.get contextId (contexts s1) = Some c ->
        newPage drv c (world s1) = (Returned ref, w) ->
        exists s2,
          createPage drv contextId pageId s1 = (Returned pageId, s2)
          /\ JsMap.get pageId (pages s2)
             = Some {| p_ref := ref; p_context := c_ref c |}).
Proof.
  repeat split.
  - intros browserType headless browserId Hhas.
    unfold launchBrowser, bind, throwIfHas. now rewrite Hhas.
  - intros browserId contextId viewport userAgent Hhas.
    unfold createContext, bind, getOrThrow, throwIfHas.
    destruct (JsMap.get browserId (browsers s)); auto. now rewrite Hhas.
  - intros contextId pageId Hhas.
    unfold createPage, bind, getOrThrow, throwIfHas.
    destruct (JsMap.get contextId (contexts s)); auto. now rewrite Hhas.
  - intros. eapply launchBrowser_fresh; eauto using closeBrowser_returned_frees.
  - intros. eapply createContext_fresh; eauto using closeContext_returned_frees.
  - intros. eapply createPage_fresh; eauto using closePage_returned_frees.
Qed.

Lemma duplicate_id_rejected_witness :
  JsMap.has "p1" (pages (Sample.registry Sample.calm)) = true
  /\ createPage Sample.driver "c1" "p1" (Sample.registry Sample.calm)
     = (Thrown (AlreadyExists KPage "p1"), Sample.registry Sample.calm)
  /\ closePage Sample.driver "p1" (Sample.registry Sample.calm)
     = (Returned "p1",
        snd (closePage Sample.driver "p1" (Sample.registry Sample.calm)))
  /\ exists s2,
       createPage Sample.driver "c1" "p1"
         (snd (closePage Sample.driver "p1" (Sample.registry Sample.calm)))
       = (Returned "p1", s2)
       /\ JsMap.get "p1" (pages s2)
          = Some {| p_ref := 10; p_context := 3 |}.
Proof.
  pose proof (duplicate_id_rejected Sample.driver
                (Sample.registry Sample.calm)) as [_ [_ [Hdup [_ [_ Hfree]]]]].
  split; [reflexivity|].
  split; [exact (Hdup "c1" "p1" eq_refl)|].
  split; [reflexivity|].
  exact (Hfree "p1" "p1" _ "c1" Sample.c1 10%nat _ eq_refl eq_refl eq_refl).
Defined.

(** C8 fails when the owner is absent: [createContext] with the id of a
    context that exists and the id of a browser that does not throws the
    browser's [NotFound], not [AlreadyExists]. *)
Lemma duplicate_context_under_absent_browser :
  JsMap.has "c1" (contexts (Sample.registry Sample.calm)) = true
  /\ fst (createContext Sample.driver "nope" "c1" None None
            (Sample.registry Sample.calm))
     = Thrown (NotFound KBrowser "nope")
  /\ fst (createContext Sample.driver "nope" "c1" None None
            (Sample.registry Sample.calm))
     <> Thrown (AlreadyExists KContext "c1").
Proof.
  split; [reflexivity|]. split; [reflexivity|]. discriminate.
Qed.

End Creation.

(** * Element resolution *)
Module Resolution.
Import AIServer.

Section WithDriver.

Context {World : Type}.
Variable drv : Driver World.
Local Abbreviation Server := (@AIServer.Server World).

(** One turn never throws, and it yields the locator when the locator
    matches a visible element. *)
Lemma attempt_run strategy page selector (s : Server) :
  fst (attempt drv strategy page selector s)
  = Returned (if visible_match drv (strategy page selector) (world s)
              then Some (strategy page selector) else None).
Proof.
  unfold attempt, try_catch, probe, visible_match.
  unfold bind at 1. unfold native at 1.
  destruct (locator_count drv (strategy page selector) (world s))
    as [[n|e] w1]; simpl; [|reflexivity].
  destruct (0 <? n)%nat; simpl; [|reflexivity].
  unfold bind, native; simpl.
  destruct (locator_isVisible drv (strategy page selector) w1)
    as [[[]|e] w2]; reflexivity.
Qed.

Lemma findElementIn_run strategies page selector (s : Server) :
  exists r s',
    findElementIn drv strategies page selector s = (Returned r, s')
    /\ match r with
       | Some element =>
           exists n strategy,
             nth_error strategies n = Some strategy
             /\ element = strategy page selector
             /\ visible_match drv element
                  (world (after_attempts drv (firstn n strategies)
                            page selector s)) = true
             /\ (forall m earlier,
                   (m < n)%nat -> nth_error strategies m = Some earlier ->
                   visible_match drv (earlier page selector)
                     (world (after_attempts drv (firstn m strategies)
                               page selector s)) = false)
             /\ s' = after_attempts drv (firstn (S n) strategies)
                       page selector s
       | None =>
           (forall m strategy,
              nth_error strategies m = Some strategy ->
              visible_match drv (strategy page selector)
                (world (after_attempts drv (firstn m strategies)
                          page selector s)) = false)
           /\ s' = after_attempts drv strategies page selector s
       end.
Proof.
  revert s. induction strategies as [|strategy rest IH]; intros s.
  - exists None, s. split; [reflexivity|]. split; auto.
    intros [|m] st; discriminate.
  - cbn [findElementIn]. unfold bind at 1.
    pose proof (attempt_run strategy page selector s) as Hrun.
    destruct (attempt drv strategy page selector s) as [o s1] eqn:E.
    simpl in Hrun. subst o.
    destruct (visible_match drv (strategy page selector) (world s)) eqn:Ev.
    + exists (Some (strategy page selector)), s1. split; [reflexivity|].
      exists 0%nat, strategy. cbn [firstn after_attempts nth_error].
      rewrite E. repeat split; auto.
      intros m earlier Hm. lia.
    + destruct (IH s1) as [r [s' [Hfind Hr]]].
      exists r, s'. split; [exact Hfind|].
      destruct r as [element|].
      * destruct Hr as [n [st [Hn [He [Hv [Hearlier Hs']]]]]].
        exists (S n), st. cbn [firstn after_attempts nth_error].
        rewrite E. cbn [snd].
        repeat split; auto.
        intros [|m] earlier Hm Hnth; cbn [firstn after_attempts nth_error] in *.
        -- inversion Hnth; subst. exact Ev.
        -- rewrite E. cbn [snd]. apply Hearlier; auto. lia.
      * destruct Hr as [Hall Hs']. split.
        -- intros [|m] st Hnth; cbn [firstn after_attempts nth_error] in *.
           ++ inversion Hnth; subst. exact Ev.
           ++ rewrite E. cbn [snd]. apply Hall; auto.
        -- cbn [after_attempts]. rewrite E. exact Hs'.
Qed.

End WithDriver.

(** C4.  [findElement] goes through the eight strategies in their order:
    the selector itself, text, aria-label, title, placeholder, button with
    the text, link with the text, any element with the text.  It never
    throws.  When it returns an element, that element is the locator of a
    strategy that had a visible match when it was tried, every strategy
    before it had none when it was tried, and the server is as the turn of
    that strategy left it: no later strategy was tried.  When it returns
    [None], no strategy had a visible match when it was tried. *)
Theorem findElement_precedence {World : Type} (drv : Driver World)
  page selector (s : @AIServer.Server World) :
  map (fun strategy => loc_selector (strategy page selector))
    PLAYWRIGHT_SELECTOR_STRATEGIES
  = [ selector;
      "text=" ++ selector;
      "[aria-label*=" ++ Js.dq ++ selector ++ Js.dq ++ " i]";
      "[title*=" ++ Js.dq ++ selector ++ Js.dq ++ " i]";
      "[placeholder*=" ++ Js.dq ++ selector ++ Js.dq ++ " i]";
      "button:has-text(" ++ Js.dq ++ selector ++ Js.dq ++ ")";
      "a:has-text(" ++ Js.dq ++ selector ++ Js.dq ++ ")";
      "*:has-text(" ++ Js.dq ++ selector ++ Js.dq ++ ")" ]
  /\ exists r s',
       findElement drv page selector s = (Returned r, s')
       /\ match r with
          | Some element =>
              exists n strategy,
                nth_error PLAYWRIGHT_SELECTOR_STRATEGIES n = Some strategy
                /\ element = strategy page selector
                /\ visible_match drv element
                     (world (after_attempts drv
                               (firstn n PLAYWRIGHT_SELECTOR_STRATEGIES)
                               page selector s)) = true
                /\ (forall m earlier,
                      (m < n)%nat ->
                      nth_error PLAYWRIGHT_SELECTOR_STRATEGIES m = Some earlier ->
                      visible_match drv (earlier page selector)
                        (world (after_attempts drv
                                  (firstn m PLAYWRIGHT_SELECTOR_STRATEGIES)
                                  page selector s)) = false)
                /\ s' = after_attempts drv
                          (firstn (S n) PLAYWRIGHT_SELECTOR_STRATEGIES)
                          page selector s
          | None =>
              (forall m strategy,
                 nth_error PLAYWRIGHT_SELECTOR_STRATEGIES m = Some strategy ->
                 visible_match drv (strategy page selector)
                   (world (after_attempts drv
                             (firstn m PLAYWRIGHT_SELECTOR_STRATEGIES)
                             page selector s)) = false)
              /\ s' = after_attempts drv PLAYWRIGHT_SELECTOR_STRATEGIES
                        page selector s
          end.
Proof.
  split; [reflexivity|]. apply findElementIn_run.
Qed.

(** The theorem on a page that shows a link with the text Login: the
    text strategy, the second one, has a visible match. *)
Lemma findElement_precedence_witness :
  exists r s',
    findElement Sample.driver Sample.p1 "Login"
      (Sample.ai_server Sample.login_page) = (Returned r, s')
    /\ r = Some {| loc_page := Sample.p1; loc_selector := "text=Login" |}.
Proof.
  destruct (proj2 (findElement_precedence Sample.driver Sample.p1 "Login"
                     (Sample.ai_server Sample.login_page)))
    as [r [s' [E _]]].
  exists r, s'. split; [exact E|].
  cbv in E. now inversion E.
Defined.

End Resolution.

(** * Workflows *)
Module Workflow.
Import Copilot.

Section WithDriver.

Context {World : Type}.
Variable drv : Driver World.
Local Abbreviation Server := (@Registry.Server World).

(** What one turn of the loop pushes, and the server it leaves. *)
Lemma workflowLoop_cons pageId step rest results (s : Server) :
  workflowLoop drv pageId (step :: rest) results s
  = workflowLoop drv pageId rest
      (results
       ++ [entry_of (step_name step)
             (fst (executeNaturalLanguageCommand drv (step_command step)
                     pageId (step_context step) s))])%list
      (snd (executeNaturalLanguageCommand drv (step_command step)
              pageId (step_context step) s)).
Proof.
  cbn [workflowLoop]. unfold bind at 1. unfold try_catch.
  unfold bind at 1.
  destruct (executeNaturalLanguageCommand drv (step_command step) pageId
              (step_context step) s) as [[result|error] s1]; reflexivity.
Qed.

(** The loop only appends to [results]. *)
Lemma workflowLoop_appends pageId steps results (s : Server) :
  exists entries s',
    workflowLoop drv pageId steps results s
    = (Returned (results ++ entries)%list, s')
    /\ workflowLoop drv pageId steps [] s = (Returned entries, s').
Proof.
  revert results s. induction steps as [|step rest IH]; intros results s.
  - exists [], s. simpl. unfold ret. now rewrite app_nil_r.
  - rewrite !workflowLoop_cons.
    set (e := entry_of _ _). set (s1 := snd _).
    destruct (IH (results ++ [e])%list s1) as [entries [s' [H1 H2]]].
    destruct (IH ([] ++ [e])%list s1) as [entries' [s'' [H3 H4]]].
    rewrite H2 in H4. inversion H4; subst.
    exists (e :: entries'), s''. rewrite H1, H3.
    split; [now rewrite <- app_assoc | reflexivity].
Qed.

Lemma executeWorkflow_loop workflow pageId (s : Server) :
  exists entries s',
    workflowLoop drv pageId workflow [] s = (Returned entries, s')
    /\ executeWorkflow drv workflow pageId s
       = (Returned {| wr_success := true; wr_workflow := entries |}, s').
Proof.
  destruct (workflowLoop_appends pageId workflow [] s)
    as [entries [s' [H _]]].
  exists entries, s'. split; [exact H|].
  unfold executeWorkflow, bind. now rewrite H.
Qed.

Lemma workflowLoop_entries pageId workflow (s : Server) entries s' :
  workflowLoop drv pageId workflow [] s = (Returned entries, s') ->
  map entry_step entries = map step_name workflow
  /\ forall i step,
       nth_error workflow i = Some step ->
       nth_error entries i
       = Some (entry_of (step_name step)
                 (fst (executeNaturalLanguageCommand drv (step_command step)
                         pageId (step_context step)
                         (snd (executeWorkflow drv (firstn i workflow)
                                 pageId s))))).
Proof.
  revert s entries s'. induction workflow as [|step rest IH];
    intros s entries s' H.
  - simpl in H. inversion H; subst. split; auto.
    intros [|i] step; discriminate.
  - rewrite workflowLoop_cons in H.
    set (e := entry_of _ _) in H. set (s1 := snd _) in H.
    destruct (workflowLoop_appends pageId rest ([] ++ [e])%list s1)
      as [es [s2 [H1 H2]]].
    rewrite H1 in H. inversion H; subst entries s2.
    destruct (IH _ _ _ H2) as [Hnames Hnth]. split.
    + simpl. f_equal; auto. unfold e.
      destruct (fst _); reflexivity.
    + intros [|i] st Hst.
      * simpl in Hst. inversion Hst; subst st. reflexivity.
      * simpl in Hst. cbn [app nth_error]. rewrite (Hnth _ _ Hst).
        do 3 f_equal.
        destruct (executeWorkflow_loop (firstn i rest) pageId s1)
          as [a [sa [Ha1 Ha2]]].
        destruct (executeWorkflow_loop (firstn (S i) (step :: rest)) pageId s)
          as [b [sb [Hb1 Hb2]]].
        rewrite Ha2, Hb2. cbn [snd].
        cbn [firstn] in Hb1. rewrite workflowLoop_cons in Hb1.
        fold e in Hb1. fold s1 in Hb1.
        destruct (workflowLoop_appends pageId (firstn i rest)
                    ([] ++ [e])%list s1) as [c [sc [Hc1 Hc2]]].
        congruence.
Qed.

(** The server a workflow leaves is the one its steps leave in turn. *)
Lemma workflowLoop_state pageId steps results (s : Server) :
  snd (workflowLoop drv pageId steps results s) = after_steps drv pageId steps s.
Proof.
  revert results s. induction steps as [|step rest IH]; intros results s.
  - reflexivity.
  - rewrite workflowLoop_cons, IH. reflexivity.
Qed.

Lemma executeWorkflow_state workflow pageId (s : Server) :
  snd (executeWorkflow drv workflow pageId s)
  = after_steps drv pageId workflow s.
Proof.
  destruct (executeWorkflow_loop workflow pageId s)
    as [entries [s' [Hloop Hexec]]].
  rewrite Hexec. cbn [snd].
  rewrite <- (workflowLoop_state pageId workflow [] s), Hloop. reflexivity.
Qed.

End WithDriver.

(** C5.  [executeWorkflow] always returns, with [success: true] and one
    entry per step in the order of the steps.  Every step is carried out:
    the server the call leaves is the one on which the commands of all the
    steps have been run in turn.  The entry of a step is the result of its
    command when the command returned and its error when the command threw,
    the command being run on the server as the commands of the steps before
    it left it: a step that throws stops no later step. *)
Theorem workflow_step_isolation {World : Type} (drv : Driver World)
  workflow pageId (s : @Registry.Server World) :
  exists entries,
    executeWorkflow drv workflow pageId s
    = (Returned {| wr_success := true; wr_workflow := entries |},
       after_steps drv pageId workflow s)
    /\ map entry_step entries = map step_name workflow
    /\ forall i step,
         nth_error workflow i = Some step ->
         nth_error entries i
         = Some (entry_of (step_name step)
                   (fst (executeNaturalLanguageCommand drv (step_command step)
                           pageId (step_context step)
                           (after_steps drv pageId (firstn i workflow) s)))).
Proof.
  destruct (executeWorkflow_loop drv workflow pageId s)
    as [entries [s' [Hloop Hexec]]].
  exists entries.
  rewrite <- (executeWorkflow_state drv workflow pageId s).
  rewrite Hexec. split; [reflexivity|].
  destruct (workflowLoop_entries drv _ _ _ _ _ Hloop) as [Hnames Hnth].
  split; [exact Hnames|].
  intros i step Hstep. rewrite (Hnth i step Hstep).
  now rewrite executeWorkflow_state.
Qed.

(** The theorem on the sample workflow: the second step throws, the third
    still runs, and its scroll reaches the page. *)
Lemma workflow_step_isolation_witness :
  exists entries,
    executeWorkflow Sample.driver Sample.workflow "p1"
      (Sample.registry Sample.no_email)
    = (Returned {| wr_success := true; wr_workflow := entries |},
       after_steps Sample.driver "p1" Sample.workflow
         (Sample.registry Sample.no_email))
    /\ map entry_step entries = ["open"; "email"; "down"]
    /\ nth_error entries 1
       = Some (StepError "email" (DriverError "Timeout exceeded"))
    /\ nth_error entries 2 = Some (StepResult "down" (Scrolled 0 500))
    /\ Sample.scripts
         (Registry.world
            (after_steps Sample.driver "p1" Sample.workflow
               (Sample.registry Sample.no_email)))
       = [ScrollBy 0 500].
Proof.
  destruct (workflow_step_isolation Sample.driver Sample.workflow "p1"
              (Sample.registry Sample.no_email))
    as [entries [Hexec [Hnames Hnth]]].
  exists entries. split; [exact Hexec|]. split; [exact Hnames|].
  split; [exact (Hnth 1%nat _ eq_refl)|].
  split; [exact (Hnth 2%nat _ eq_refl) | reflexivity].
Defined.

End Workflow.

(** * Action handlers of the socket server *)
Module Handlers.
Import AIServer.

Section WithDriver.

Context {World : Type}.
Variable drv : Driver World.
Local Abbreviation Server := (@AIServer.Server World).

Lemma parseInt_default : Js.parseInt "2000" = Js.Int 2000.
Proof. reflexivity. Qed.

Lemma emitStatus_run socket message type (s : Server) :
  emitStatus socket message type s
  = (Returned tt,
     {| activeSessions := activeSessions s;
        emitted := (emitted s
                    ++ [(socket_id socket,
                         {| su_message := message; su_type := type |})])%list;
        console := (console s ++ [LogStatus (socket_id socket) message])%list;
        world := world s |}).
Proof. reflexivity. Qed.

(** [waitFor] sends no warning; it waits once, for the time it is given. *)
Lemma waitFor_run socket page ms (s : Server) :
  exists added,
    emitted (snd (waitFor drv socket page ms s)) = (emitted s ++ added)%list
    /\ forallb (fun e => negb (is_warning (snd e))) added = true
    /\ In (socket_id socket, {| su_message := Waiting ms; su_type := info |})
         added
    /\ fst (waitFor drv socket page ms s)
       = fst (page_waitForTimeout drv page ms (world s))
    /\ world (snd (waitFor drv socket page ms s))
       = snd (page_waitForTimeout drv page ms (world s)).
Proof.
  unfold waitFor, bind. rewrite emitStatus_run. unfold native. simpl.
  destruct (page_waitForTimeout drv page ms (world s)) as [[[]|e] w]; simpl.
  - eexists. rewrite <- app_assoc. simpl. split; [reflexivity|].
    simpl. auto.
  - eexists. split; [reflexivity|]. simpl. auto.
Qed.

(** One activation of [handleWait], by what [parseInt] gives. *)
Lemma handleWait_step fuel socket page duration (s : Server) :
  handleWait drv (S fuel) socket page duration s
  = match Js.parseInt duration with
    | Js.NaN => Some (waitFor drv socket page 2000 s)
    | Js.Int z =>
        if (z =? 0)%Z then Some (waitFor drv socket page 2000 s)
        else if (z <? 0)%Z
             then handleWait drv fuel socket page "2000"
                    (snd (emitStatus socket (InvalidWaitDuration duration)
                            warning s))
             else Some (waitFor drv socket page z s)
    end.
Proof.
  cbn [handleWait]. destruct (Js.parseInt duration) as [|z]; cbn [Js.orElse].
  - reflexivity.
  - destruct (Z.eqb_spec z 0) as [->|Hz]; [reflexivity|].
    destruct (Z.ltb_spec z 0) as [Hneg|Hpos].
    + destruct (Z.leb_spec z 0); [|lia]. now rewrite emitStatus_run.
    + destruct (Z.leb_spec z 0); [lia|]. reflexivity.
Qed.

Lemma handleWait_default fuel socket page (s : Server) :
  handleWait drv (S fuel) socket page "2000" s
  = Some (waitFor drv socket page 2000 s).
Proof. rewrite handleWait_step. reflexivity. Qed.

End WithDriver.

(** C9.  [handleWait] returns for every duration within two activations,
    and more fuel changes nothing.  One activation is not enough exactly
    when [parseInt] gives a negative number: a duration that is not a
    number, or zero, is replaced by 2000 before the test, a negative one
    passes through the test into the call on the text 2000, and that call
    needs no further one. *)
Theorem handleWait_terminates {World : Type} (drv : Driver World)
  socket page duration (s : @AIServer.Server World) :
  (exists r,
     handleWait drv 2 socket page duration s = Some r
     /\ forall fuel, (2 <= fuel)%nat ->
          handleWait drv fuel socket page duration s = Some r)
  /\ (handleWait drv 1 socket page duration s = None
      <-> exists z, Js.parseInt duration = Js.Int z /\ (z < 0)%Z)
  /\ (forall s1, handleWait drv 1 socket page "2000" s1
                 = Some (waitFor drv socket page 2000 s1)).
Proof.
  split; [|split].
  - destruct (Js.parseInt duration) as [|z] eqn:E.
    + eexists. split; [rewrite handleWait_step, E; reflexivity|].
      intros [|[|fuel]] H; try lia. now rewrite handleWait_step, E.
    + destruct (Z.eqb_spec z 0) as [Hz|Hz];
        [|destruct (Z.ltb_spec z 0) as [Hneg|Hpos]].
      * eexists. split.
        -- rewrite handleWait_step, E.
           destruct (Z.eqb_spec z 0); [reflexivity|contradiction].
        -- intros [|[|fuel]] H; try lia. rewrite handleWait_step, E.
           destruct (Z.eqb_spec z 0); [reflexivity|contradiction].
      * eexists. split.
        -- rewrite handleWait_step, E.
           destruct (Z.eqb_spec z 0); [contradiction|].
           destruct (Z.ltb_spec z 0); [|lia].
           apply handleWait_default.
        -- intros [|[|fuel]] H; try lia. rewrite handleWait_step, E.
           destruct (Z.eqb_spec z 0); [contradiction|].
           destruct (Z.ltb_spec z 0); [|lia].
           apply handleWait_default.
      * eexists. split.
        -- rewrite handleWait_step, E.
           destruct (Z.eqb_spec z 0); [contradiction|].
           destruct (Z.ltb_spec z 0); [lia|]. reflexivity.
        -- intros [|[|fuel]] H; try lia. rewrite handleWait_step, E.
           destruct (Z.eqb_spec z 0); [contradiction|].
           destruct (Z.ltb_spec z 0); [lia|]. reflexivity.
  - rewrite handleWait_step. destruct (Js.parseInt duration) as [|z].
    + split; [discriminate | intros [z [[=] _]]].
    + destruct (Z.eqb_spec z 0) as [Hz|Hz].
      * split; [discriminate|]. intros [z' [[= <-] Hneg]]. lia.
      * destruct (Z.ltb_spec z 0) as [Hneg|Hpos].
        -- split; [eauto | reflexivity].
        -- split; [discriminate|]. intros [z' [[= <-] Hneg]]. lia.
  - intros s1. apply handleWait_default.
Qed.

Lemma handleWait_terminates_witness :
  (2 <= 5)%nat
  /\ handleWait Sample.driver 5 Sample.socket Sample.p1 "-5"
       (Sample.ai_server Sample.calm)
     = handleWait Sample.driver 2 Sample.socket Sample.p1 "-5"
         (Sample.ai_server Sample.calm)
  /\ handleWait Sample.driver 1 Sample.socket Sample.p1 "-5"
       (Sample.ai_server Sample.calm) = None.
Proof.
  pose proof (handleWait_terminates Sample.driver Sample.socket Sample.p1 "-5"
                (Sample.ai_server Sample.calm)) as [[r [H2 Hmore]] [Hone _]].
  split; [lia|]. split.
  - rewrite H2. apply Hmore. lia.
  - apply Hone. exists (-5)%Z. split; [reflexivity | lia].
Defined.

(** C6 at durations that are not numbers, and at zero.  [handleWait]
    waits 2000 ms and sends the socket no warning: the fallback [|| 2000]
    has replaced the value before the test that guards the warning. *)
Theorem handleWait_silent_fallback {World : Type} (drv : Driver World)
  socket page duration (s : @AIServer.Server World) :
  Js.parseInt duration = Js.NaN \/ Js.parseInt duration = Js.Int 0 ->
  exists o s',
    handleWait drv 2 socket page duration s = Some (o, s')
    /\ o = fst (page_waitForTimeout drv page 2000 (world s))
    /\ world s' = snd (page_waitForTimeout drv page 2000 (world s))
    /\ exists added,
         emitted s' = (emitted s ++ added)%list
         /\ forallb (fun e => negb (is_warning (snd e))) added = true.
Proof.
  intros H.
  assert (E : handleWait drv 2 socket page duration s
              = Some (waitFor drv socket page 2000 s)).
  { rewrite handleWait_step. destruct H as [-> | ->]; reflexivity. }
  destruct (waitFor_run drv socket page 2000 s)
    as [added [He [Hw [_ [Ho Hworld]]]]].
  destruct (waitFor drv socket page 2000 s) as [o s'] eqn:Ew.
  exists o, s'. simpl in *. repeat split; auto.
  exists added. auto.
Qed.

Lemma handleWait_silent_fallback_witness :
  Js.parseInt "abc" = Js.NaN
  /\ exists o s',
       handleWait Sample.driver 2 Sample.socket Sample.p1 "abc"
         (Sample.ai_server Sample.calm) = Some (o, s')
       /\ o = fst (page_waitForTimeout Sample.driver Sample.p1 2000 Sample.calm)
       /\ world s'
          = snd (page_waitForTimeout Sample.driver Sample.p1 2000 Sample.calm)
       /\ exists added,
            emitted s' = added
            /\ forallb (fun e => negb (is_warning (snd e))) added = true.
Proof.
  split; [reflexivity|].
  exact (handleWait_silent_fallback Sample.driver Sample.socket Sample.p1
           "abc" (Sample.ai_server Sample.calm) (or_introl eq_refl)).
Defined.

(** The input [abc] on the sample server: one wait of 2000 ms, an [info]
    and a [success] update, no warning. *)
Example handleWait_abc :
  exists s',
    handleWait Sample.driver 2 Sample.socket Sample.p1 "abc"
      (Sample.ai_server Sample.calm) = Some (Returned tt, s')
    /\ Sample.waits (world s') = [2000%Z]
    /\ sent_to Sample.socket s'
       = [ {| su_message := Waiting 2000; su_type := info |};
           {| su_message := WaitComplete; su_type := success |} ]
    /\ existsb is_warning (sent_to Sample.socket s') = false.
Proof. eexists. repeat split. Qed.

(** A negative duration does get the warning, then the wait of 2000 ms. *)
Example handleWait_negative :
  exists s',
    handleWait Sample.driver 2 Sample.socket Sample.p1 "-5"
      (Sample.ai_server Sample.calm) = Some (Returned tt, s')
    /\ Sample.waits (world s') = [2000%Z]
    /\ sent_to Sample.socket s'
       = [ {| su_message := InvalidWaitDuration "-5"; su_type := warning |};
           {| su_message := Waiting 2000; su_type := info |};
           {| su_message := WaitComplete; su_type := success |} ].
Proof. eexists. repeat split. Qed.

End Handlers.

Module Scrolling.
Import AIServer Handlers.

Section WithDriver.

Context {World : Type}.
Variable drv : Driver World.
Local Abbreviation Server := (@AIServer.Server World).

(** A positive duration is waited for as it is. *)
Lemma handleWait_positive fuel socket page duration z (s : Server) :
  Js.parseInt duration = Js.Int z -> (0 < z)%Z ->
  handleWait drv (S fuel) socket page duration s
  = Some (waitFor drv socket page z s).
Proof.
  intros E Hz. rewrite handleWait_step, E.
  destruct (Z.eqb_spec z 0); [lia|].
  destruct (Z.ltb_spec z 0); [lia|]. reflexivity.
Qed.

Lemma handleScroll_known script socket page direction (s : Server) :
  scrollSwitch drv socket page direction
  = (native (page_evaluate drv page script) ;; ret true) ->
  handleScroll drv socket page direction s
  = scrolled_by drv script socket page direction s.
Proof.
  intros H. unfold handleScroll, scrolled_by, try_catch.
  unfold bind at 1. unfold bind at 3. rewrite !emitStatus_run.
  rewrite H. unfold bind at 1. unfold bind at 1. unfold bind at 2.
  unfold native. cbn [world].
  destruct (page_evaluate drv page script (world s)) as [[[]|e] w];
    reflexivity.
Qed.

Lemma handleScroll_unknown socket page direction (s : Server) :
  scrollSwitch drv socket page direction
  = (emitStatus socket (UnknownScrollDirection direction) warning ;; ret false) ->
  handleScroll drv socket page direction s
  = scroll_refused socket direction s.
Proof.
  intros H. unfold handleScroll, scroll_refused, try_catch.
  unfold bind at 1. rewrite !emitStatus_run. rewrite H.
  reflexivity.
Qed.

End WithDriver.

(** C7, as the code has it.  [handleScroll] compares the direction in
    lower case: [down] scrolls by 500 down, [up] by 500 up, [top] and [home]
    to the top edge, [bottom] to the bottom edge; every other direction,
    [left] and [right] among them, gets a warning, the call returns and the
    driver is not called.  [extractScrollData] looks for a word in the
    command: [down] gives (0, 500), else [up] gives (0, -500), else [right]
    gives (500, 0), else [left] gives (-500, 0), and a command with none of
    them gives (0, 500). *)
Theorem scroll_direction_mapping {World : Type} (drv : Driver World)
  socket page direction (s : @AIServer.Server World) :
  (Js.toLowerCase direction = "down" ->
   handleScroll drv socket page direction s
   = scrolled_by drv (ScrollBy 0 500) socket page direction s)
  /\ (Js.toLowerCase direction = "up" ->
      handleScroll drv socket page direction s
      = scrolled_by drv (ScrollBy 0 (-500)) socket page direction s)
  /\ (Js.toLowerCase direction = "top" \/ Js.toLowerCase direction = "home" ->
      handleScroll drv socket page direction s
      = scrolled_by drv ScrollToTop socket page direction s)
  /\ (Js.toLowerCase direction = "bottom" ->
      handleScroll drv socket page direction s
      = scrolled_by drv ScrollToBottom socket page direction s)
  /\ (~ In (Js.toLowerCase direction) ["down"; "up"; "top"; "home"; "bottom"] ->
      exists s',
        handleScroll drv socket page direction s = (Returned tt, s')
        /\ world s' = world s
        /\ emitted s'
           = (emitted s
              ++ [(socket_id socket,
                   {| su_message := Scrolling direction; su_type := info |});
                  (socket_id socket,
                   {| su_message := UnknownScrollDirection direction;
                      su_type := warning |})])%list)
  /\ (forall command,
        Js.includes "down" command = true ->
        Copilot.extractScrollData command
        = {| Copilot.sd_x := 0; Copilot.sd_y := 500 |})
  /\ (forall command,
        Js.includes "down" command = false ->
        Js.includes "up" command = true ->
        Copilot.extractScrollData command
        = {| Copilot.sd_x := 0; Copilot.sd_y := -500 |})
  /\ (forall command,
        Js.includes "down" command = false ->
        Js.includes "up" command = false ->
        Js.includes "right" command = true ->
        Copilot.extractScrollData command
        = {| Copilot.sd_x := 500; Copilot.sd_y := 0 |})
  /\ (forall command,
        Js.includes "down" command = false ->
        Js.includes "up" command = false ->
        Js.includes "right" command = false ->
        Js.includes "left" command = true ->
        Copilot.extractScrollData command
        = {| Copilot.sd_x := -500; Copilot.sd_y := 0 |})
  /\ (forall command,
        Js.includes "down" command = false ->
        Js.includes "up" command = false ->
        Js.includes "right" command = false ->
        Js.includes "left" command = false ->
        Copilot.extractScrollData command
        = {| Copilot.sd_x := 0; Copilot.sd_y := 500 |}).
Proof.
  repeat split.
  - intros H. apply handleScroll_known. unfold scrollSwitch. now rewrite H.
  - intros H. apply handleScroll_known. unfold scrollSwitch. now rewrite H.
  - intros H. apply handleScroll_known. unfold scrollSwitch.
    destruct H as [-> | ->]; reflexivity.
  - intros H. apply handleScroll_known. unfold scrollSwitch. now rewrite H.
  - intros H.
    assert (E : scrollSwitch drv socket page direction
                = (emitStatus socket (UnknownScrollDirection direction) warning ;;
                   ret false)).
    { unfold scrollSwitch.
      destruct (String.eqb_spec (Js.toLowerCase direction) "down") as [e|_];
        [exfalso; apply H; rewrite e; simpl; tauto|].
      destruct (String.eqb_spec (Js.toLowerCase direction) "up") as [e|_];
        [exfalso; apply H; rewrite e; simpl; tauto|].
      destruct (String.eqb_spec (Js.toLowerCase direction) "top") as [e|_];
        [exfalso; apply H; rewrite e; simpl; tauto|].
      destruct (String.eqb_spec (Js.toLowerCase direction) "home") as [e|_];
        [exfalso; apply H; rewrite e; simpl; tauto|].
      destruct (String.eqb_spec (Js.toLowerCase direction) "bottom") as [e|_];
        [exfalso; apply H; rewrite e; simpl; tauto|].
      reflexivity. }
    rewrite (handleScroll_unknown drv _ _ _ _ E).
    eexists. split; [reflexivity|]. simpl. rewrite <- app_assoc. auto.
  - intros command H. unfold Copilot.extractScrollData. now rewrite H.
  - intros command H1 H2. unfold Copilot.extractScrollData.
    now rewrite H1, H2.
  - intros command H1 H2 H3. unfold Copilot.extractScrollData.
    now rewrite H1, H2, H3.
  - intros command H1 H2 H3 H4. unfold Copilot.extractScrollData.
    now rewrite H1, H2, H3, H4.
  - intros command H1 H2 H3 H4. unfold Copilot.extractScrollData.
    now rewrite H1, H2, H3, H4.
Qed.

Lemma scroll_direction_mapping_witness :
  Js.toLowerCase "Down" = "down"
  /\ handleScroll Sample.driver Sample.socket Sample.p1 "Down"
       (Sample.ai_server Sample.calm)
     = scrolled_by Sample.driver (ScrollBy 0 500) Sample.socket Sample.p1
         "Down" (Sample.ai_server Sample.calm)
  /\ ~ In (Js.toLowerCase "sideways") ["down"; "up"; "top"; "home"; "bottom"]
  /\ exists s',
       handleScroll Sample.driver Sample.socket Sample.p1 "sideways"
         (Sample.ai_server Sample.calm) = (Returned tt, s')
       /\ world s' = Sample.calm.
Proof.
  assert (Hno : ~ In (Js.toLowerCase "sideways")
                    ["down"; "up"; "top"; "home"; "bottom"]).
  { simpl. intros [H|[H|[H|[H|[H|[]]]]]]; discriminate H. }
  split; [reflexivity|]. split.
  - exact (proj1 (scroll_direction_mapping Sample.driver Sample.socket
                    Sample.p1 "Down" (Sample.ai_server Sample.calm)) eq_refl).
  - split; [exact Hno|].
    destruct (proj1 (proj2 (proj2 (proj2 (proj2
               (scroll_direction_mapping Sample.driver Sample.socket
                  Sample.p1 "sideways" (Sample.ai_server Sample.calm))))))
               Hno) as [s' [E [Hw _]]].
    exists s'. split; [exact E | exact Hw].
Defined.

(** C7 fails on [left]: [handleScroll] sends a warning and runs no
    script, where the claim has a scroll by 500 to the left. *)
Lemma handleScroll_left_does_not_scroll :
  exists s',
    handleScroll Sample.driver Sample.socket Sample.p1 "left"
      (Sample.ai_server Sample.calm) = (Returned tt, s')
    /\ Sample.scripts (world s') = []
    /\ Sample.scripts (world s') <> [ScrollBy (-500) 0]
    /\ sent_to Sample.socket s'
       = [ {| su_message := Scrolling "left"; su_type := info |};
           {| su_message := UnknownScrollDirection "left";
              su_type := warning |} ].
Proof.
  eexists. split; [reflexivity|]. simpl. repeat split. discriminate.
Qed.

(** The REST agent on some commands: a command with no direction word
    scrolls down, and so do [top] and [bottom]. *)
Example extractScrollData_samples :
  Copilot.extractScrollData "scroll left"
  = {| Copilot.sd_x := -500; Copilot.sd_y := 0 |}
  /\ Copilot.extractScrollData "scroll right"
     = {| Copilot.sd_x := 500; Copilot.sd_y := 0 |}
  /\ Copilot.extractScrollData "scroll sideways"
     = {| Copilot.sd_x := 0; Copilot.sd_y := 500 |}
  /\ Copilot.extractScrollData "scroll to top"
     = {| Copilot.sd_x := 0; Copilot.sd_y := 500 |}.
Proof. repeat split. Qed.

(** The REST agent parses its own wait commands: seconds and
    milliseconds, and 1000 ms when the command has no number. *)
Example extractWaitCondition_samples :
  Copilot.extractWaitCondition "wait 3 seconds" = Copilot.WaitTimeout 3000
  /\ Copilot.extractWaitCondition "wait 500ms" = Copilot.WaitTimeout 500
  /\ Copilot.extractWaitCondition "wait abc" = Copilot.WaitTimeout 1000
  /\ Copilot.extractWaitCondition "wait for #done"
     = Copilot.WaitSelector "#done".
Proof. repeat split. Qed.

End Scrolling.

(** * Creation calls: what they store and what they keep *)
Module Growth.
Import JsMapFacts JsMapWf Registry Hierarchy Cascade CascadeCalls Validity
  Creation.

Section WithDriver.

Context {World : Type}.
Variable drv : Driver World.
Local Abbreviation Server := (@Registry.Server World).

Lemma keys_app {V : Type} (m : JsMap.t V) k v :
  JsMap.keys (m ++ [(k, v)])%list = (JsMap.keys m ++ [k])%list.
Proof. unfold JsMap.keys. now rewrite map_app. Qed.

Lemma values_app {V : Type} (m : JsMap.t V) k v :
  JsMap.values (m ++ [(k, v)])%list = (JsMap.values m ++ [v])%list.
Proof. unfold JsMap.values. now rewrite map_app. Qed.

Lemma get_none_keys {V : Type} (m : JsMap.t V) k :
  JsMap.get k m = None -> ~ In k (JsMap.keys m).
Proof.
  intros H Hin. unfold JsMap.keys in Hin. apply in_map_iff in Hin.
  destruct Hin as [[k' v] [Heq Hin]]. simpl in Heq. subst.
  eapply get_none_not_in; eauto.
Qed.

Lemma NoDup_snoc {A : Type} (l : list A) x :
  NoDup l -> ~ In x l -> NoDup (l ++ [x])%list.
Proof.
  intros Hl Hx. apply NoDup_app; auto.
  - constructor; [intros [] | constructor].
  - intros y Hy [<-|[]]. contradiction.
Qed.

Lemma distinct_strings_snoc l x :
  distinct_strings l = true -> ~ In x l -> distinct_strings (l ++ [x])%list = true.
Proof. rewrite !distinct_strings_NoDup. apply NoDup_snoc. Qed.

Lemma distinct_nats_snoc l x :
  distinct_nats l = true -> ~ In x l -> distinct_nats (l ++ [x])%list = true.
Proof. rewrite !distinct_nats_NoDup. apply NoDup_snoc. Qed.

(** [launchBrowser], by cases. *)
Lemma launchBrowser_cases browserType headless browserId (s : Server) :
  launchBrowser drv browserType headless browserId s
  = if JsMap.has browserId (browsers s)
    then (Thrown (AlreadyExists KBrowser browserId), s)
    else match parseBrowserType browserType with
         | None => (Thrown (UnsupportedBrowserType browserType), s)
         | Some kind =>
             match launch drv kind headless (world s) with
             | (Returned ref, w) =>
                 (Returned browserId,
                  {| browsers := (browsers s
                                  ++ [(browserId,
                                       {| b_ref := ref; b_kind := kind |})])%list;
                     contexts := contexts s; pages := pages s; world := w |})
             | (Thrown e, w) =>
                 (Thrown e,
                  {| browsers := browsers s; contexts := contexts s;
                     pages := pages s; world := w |})
             end
         end.
Proof.
  unfold launchBrowser. unfold bind at 1. unfold throwIfHas.
  destruct (JsMap.has browserId (browsers s)) eqn:Hhas; [reflexivity|].
  destruct (parseBrowserType browserType) as [kind|]; [|reflexivity].
  unfold bind at 1. unfold native at 1.
  destruct (launch drv kind headless (world s)) as [[ref|e] w]; [|reflexivity].
  step. rewrite set_absent; [reflexivity|]. now apply has_false_iff.
Qed.

Lemma createContext_cases browserId contextId viewport userAgent (s : Server) :
  createContext drv browserId contextId viewport userAgent s
  = match JsMap.get browserId (browsers s) with
    | None => (Thrown (NotFound KBrowser browserId), s)
    | Some browser =>
        if JsMap.has contextId (contexts s)
        then (Thrown (AlreadyExists KContext contextId), s)
        else match newContext drv browser (contextOptions viewport userAgent)
                     (world s) with
             | (Returned ref, w) =>
                 (Returned contextId,
                  {| browsers := browsers s;
                     contexts := (contexts s
                                  ++ [(contextId,
                                       {| c_ref := ref;
                                          c_browser := b_ref browser |})])%list;
                     pages := pages s; world := w |})
             | (Thrown e, w) =>
                 (Thrown e,
                  {| browsers := browsers s; contexts := contexts s;
                     pages := pages s; world := w |})
             end
    end.
Proof.
  unfold createContext. unfold bind at 1. unfold getOrThrow.
  destruct (JsMap.get browserId (browsers s)) as [browser|]; [|reflexivity].
  unfold bind at 1. unfold throwIfHas.
  destruct (JsMap.has contextId (contexts s)) eqn:Hhas; [reflexivity|].
  unfold bind at 1. unfold native at 1.
  destruct (newContext drv browser _ (world s)) as [[ref|e] w]; [|reflexivity].
  step. rewrite set_absent; [reflexivity|]. now apply has_false_iff.
Qed.

Lemma createPage_cases contextId pageId (s : Server) :
  createPage drv contextId pageId s
  = match JsMap.get contextId (contexts s) with
    | None => (Thrown (NotFound KContext contextId), s)
    | Some context =>
        if JsMap.has pageId (pages s)
        then (Thrown (AlreadyExists KPage pageId), s)
        else match newPage drv context (world s) with
             | (Returned ref, w) =>
                 (Returned pageId,
                  {| browsers := browsers s; contexts := contexts s;
                     pages := (pages s
                               ++ [(pageId,
                                    {| p_ref := ref;
                                       p_context := c_ref context |})])%list;
                     world := w |})
             | (Thrown e, w) =>
                 (Thrown e,
                  {| browsers := browsers s; contexts := contexts s;
                     pages := pages s; world := w |})
             end
    end.
Proof.
  unfold createPage. unfold bind at 1. unfold getOrThrow.
  destruct (JsMap.get contextId (contexts s)) as [context|]; [|reflexivity].
  unfold bind at 1. unfold throwIfHas.
  destruct (JsMap.has pageId (pages s)) eqn:Hhas; [reflexivity|].
  unfold bind at 1. unfold native at 1.
  destruct (newPage drv context (world s)) as [[ref|e] w]; [|reflexivity].
  step. rewrite set_absent; [reflexivity|]. now apply has_false_iff.
Qed.

End WithDriver.
End Growth.

Module GrowthClaims.
Import JsMapFacts JsMapWf Registry Hierarchy Cascade CascadeCalls Validity
  Creation Growth.

(** X1.  A creation call stores all or nothing.  When it throws, the three
    maps are as before.  When it returns, the map of its kind has one more
    entry, put last under the id that was free, and the other two maps are
    as before; a new context is owned by the browser found under
    [browserId], a new page by the context found under [contextId]. *)
Theorem creation_all_or_nothing {World : Type} (drv : Driver World)
  (s : @Registry.Server World) :
  (forall browserType headless browserId o s',
     launchBrowser drv browserType headless browserId s = (o, s') ->
     contexts s' = contexts s /\ pages s' = pages s
     /\ match o with
        | Thrown _ => browsers s' = browsers s
        | Returned r =>
            r = browserId
            /\ JsMap.get browserId (browsers s) = None
            /\ exists b,
                 parseBrowserType browserType = Some (b_kind b)
                 /\ browsers s' = (browsers s ++ [(browserId, b)])%list
        end)
  /\ (forall browserId contextId viewport userAgent o s',
        createContext drv browserId contextId viewport userAgent s = (o, s') ->
        browsers s' = browsers s /\ pages s' = pages s
        /\ match o with
           | Thrown _ => contexts s' = contexts s
           | Returned r =>
               r = contextId
               /\ JsMap.get contextId (contexts s) = None
               /\ exists b c,
                    JsMap.get browserId (browsers s) = Some b
                    /\ c_browser c = b_ref b
                    /\ contexts s' = (contexts s ++ [(contextId, c)])%list
           end)
  /\ (forall contextId pageId o s',
        createPage drv contextId pageId s = (o, s') ->
        browsers s' = browsers s /\ contexts s' = contexts s
        /\ match o with
           | Thrown _ => pages s' = pages s
           | Returned r =>
               r = pageId
               /\ JsMap.get pageId (pages s) = None
               /\ exists c p,
                    JsMap.get contextId (contexts s) = Some c
                    /\ p_context p = c_ref c
                    /\ pages s' = (pages s ++ [(pageId, p)])%list
           end).
Proof.
  split; [|split].
  - intros browserType headless browserId o s' H.
    rewrite launchBrowser_cases in H.
    destruct (JsMap.has browserId (browsers s)) eqn:Hhas.
    { inversion H; subst. auto. }
    destruct (parseBrowserType browserType) as [kind|] eqn:Hk.
    2:{ inversion H; subst. auto. }
    destruct (launch drv kind headless (world s)) as [[ref|e] w];
      inversion H; subst; simpl; auto.
    split; [reflexivity|]. split; [reflexivity|]. split; [reflexivity|].
    split; [now apply has_false_iff|].
    eexists. split; [|reflexivity]. reflexivity.
  - intros browserId contextId viewport userAgent o s' H.
    rewrite createContext_cases in H.
    destruct (JsMap.get browserId (browsers s)) as [b|] eqn:Hb.
    2:{ inversion H; subst. auto. }
    destruct (JsMap.has contextId (contexts s)) eqn:Hhas.
    { inversion H; subst. auto. }
    destruct (newContext drv b _ (world s)) as [[ref|e] w];
      inversion H; subst; simpl; auto.
    split; [reflexivity|]. split; [reflexivity|]. split; [reflexivity|].
    split; [now apply has_false_iff|].
    exists b. eexists. split; [reflexivity|]. split; [|reflexivity].
    reflexivity.
  - intros contextId pageId o s' H.
    rewrite createPage_cases in H.
    destruct (JsMap.get contextId (contexts s)) as [c|] eqn:Hc.
    2:{ inversion H; subst. auto. }
    destruct (JsMap.has pageId (pages s)) eqn:Hhas.
    { inversion H; subst. auto. }
    destruct (newPage drv c (world s)) as [[ref|e] w];
      inversion H; subst; simpl; auto.
    split; [reflexivity|]. split; [reflexivity|]. split; [reflexivity|].
    split; [now apply has_false_iff|].
    exists c. eexists. split; [reflexivity|]. split; [|reflexivity].
    reflexivity.
Qed.

Lemma creation_all_or_nothing_witness :
  createPage Sample.driver "c1" "p9" (Sample.registry Sample.calm)
  = (Returned "p9",
     snd (createPage Sample.driver "c1" "p9" (Sample.registry Sample.calm)))
  /\ exists c p,
       JsMap.get "c1" (contexts (Sample.registry Sample.calm)) = Some c
       /\ p_context p = c_ref c
       /\ pages (snd (createPage Sample.driver "c1" "p9"
                        (Sample.registry Sample.calm)))
          = (pages (Sample.registry Sample.calm) ++ [("p9", p)])%list.
Proof.
  split; [reflexivity|].
  exact (proj2 (proj2 (proj2 (proj2
           (proj2 (proj2 (creation_all_or_nothing Sample.driver
                            (Sample.registry Sample.calm)))
              "c1" "p9" _ _ eq_refl))))).
Defined.

Section Invariant.

Context {World : Type}.
Variable drv : Driver World.
Local Abbreviation Server := (@Registry.Server World).

Lemma valid_intro (s : Server) :
  keys_ok s = true -> objects_ok s = true -> owners_ok s = true ->
  valid s = true.
Proof. intros H1 H2 H3. unfold valid. now rewrite H1, H2, H3. Qed.

Lemma existsb_app_l {A : Type} (f : A -> bool) l x :
  existsb f l = true -> existsb f (l ++ [x])%list = true.
Proof. intros H. rewrite existsb_app, H. reflexivity. Qed.

Lemma launchBrowser_keeps_valid browserType headless browserId (s : Server) :
  valid s = true ->
  (forall kind ref w,
     parseBrowserType browserType = Some kind ->
     launch drv kind headless (world s) = (Returned ref, w) ->
     ~ In ref (map b_ref (JsMap.values (browsers s)))) ->
  valid (snd (launchBrowser drv browserType headless browserId s)) = true.
Proof.
  intros Hv Hfresh. rewrite launchBrowser_cases.
  destruct (JsMap.has browserId (browsers s)) eqn:Hhas; [exact Hv|].
  destruct (parseBrowserType browserType) as [kind|] eqn:Hk; [|exact Hv].
  destruct (launch drv kind headless (world s)) as [[ref|e] w] eqn:El;
    [|exact Hv].
  specialize (Hfresh kind ref w eq_refl El).
  destruct (valid_parts _ Hv) as [Hkeys [Hobj Hown]].
  unfold keys_ok, objects_ok in *. rewrite !andb_true_iff in *.
  destruct Hkeys as [[Hkb Hkc] Hkp]. destruct Hobj as [[Hob Hoc] Hop].
  apply valid_intro; unfold keys_ok, objects_ok; simpl.
  - rewrite keys_app, Hkc, Hkp, distinct_strings_snoc; auto.
    apply get_none_keys. now apply has_false_iff.
  - rewrite values_app, map_app, Hoc, Hop. simpl.
    rewrite distinct_nats_snoc; auto.
  - apply owners_ok_iff in Hown. destruct Hown as [Hw1 Hw2].
    apply owners_ok_iff. simpl. split; [|exact Hw2].
    intros c Hc. destruct (Hw1 c Hc) as [b [Hb Hcb]].
    exists b. split; auto. rewrite values_app. apply in_or_app. now left.
Qed.

Lemma createContext_keeps_valid browserId contextId viewport userAgent
  (s : Server) :
  valid s = true ->
  (forall b ref w,
     JsMap.get browserId (browsers s) = Some b ->
     newContext drv b (contextOptions viewport userAgent) (world s)
     = (Returned ref, w) ->
     ~ In ref (map c_ref (JsMap.values (contexts s)))) ->
  valid (snd (createContext drv browserId contextId viewport userAgent s))
  = true.
Proof.
  intros Hv Hfresh. rewrite createContext_cases.
  destruct (JsMap.get browserId (browsers s)) as [b|] eqn:Hb; [|exact Hv].
  destruct (JsMap.has contextId (contexts s)) eqn:Hhas; [exact Hv|].
  destruct (newContext drv b _ (world s)) as [[ref|e] w] eqn:En; [|exact Hv].
  specialize (Hfresh b ref w eq_refl En).
  destruct (valid_parts _ Hv) as [Hkeys [Hobj Hown]].
  unfold keys_ok, objects_ok in *. rewrite !andb_true_iff in *.
  destruct Hkeys as [[Hkb Hkc] Hkp]. destruct Hobj as [[Hob Hoc] Hop].
  apply valid_intro; unfold keys_ok, objects_ok; simpl.
  - rewrite keys_app, Hkb, Hkp, distinct_strings_snoc; auto.
    apply get_none_keys. now apply has_false_iff.
  - rewrite values_app, map_app, Hob, Hop. simpl.
    rewrite distinct_nats_snoc; auto.
  - apply owners_ok_iff in Hown. destruct Hown as [Hw1 Hw2].
    apply owners_ok_iff. simpl. split.
    + intros c Hc. rewrite values_app in Hc. apply in_app_or in Hc.
      destruct Hc as [Hc|[<-|[]]]; [now apply Hw1|].
      exists b. split.
      * apply in_values. exists browserId. now apply get_in.
      * unfold context_in. simpl. apply Nat.eqb_refl.
    + intros p Hp. destruct (Hw2 p Hp) as [c [Hc Hpc]].
      exists c. split; auto. rewrite values_app. apply in_or_app. now left.
Qed.

Lemma createPage_keeps_valid contextId pageId (s : Server) :
  valid s = true ->
  (forall c ref w,
     JsMap.get contextId (contexts s) = Some c ->
     newPage drv c (world s) = (Returned ref, w) ->
     ~ In ref (map p_ref (JsMap.values (pages s)))) ->
  valid (snd (createPage drv contextId pageId s)) = true.
Proof.
  intros Hv Hfresh. rewrite createPage_cases.
  destruct (JsMap.get contextId (contexts s)) as [c|] eqn:Hc; [|exact Hv].
  destruct (JsMap.has pageId (pages s)) eqn:Hhas; [exact Hv|].
  destruct (newPage drv c (world s)) as [[ref|e] w] eqn:En; [|exact Hv].
  specialize (Hfresh c ref w eq_refl En).
  destruct (valid_parts _ Hv) as [Hkeys [Hobj Hown]].
  unfold keys_ok, objects_ok in *. rewrite !andb_true_iff in *.
  destruct Hkeys as [[Hkb Hkc] Hkp]. destruct Hobj as [[Hob Hoc] Hop].
  apply valid_intro; unfold keys_ok, objects_ok; simpl.
  - rewrite keys_app, Hkb, Hkc, distinct_strings_snoc; auto.
    apply get_none_keys. now apply has_false_iff.
  - rewrite values_app, map_app, Hob, Hoc. simpl.
    rewrite distinct_nats_snoc; auto.
  - apply owners_ok_iff in Hown. destruct Hown as [Hw1 Hw2].
    apply owners_ok_iff. simpl. split; [exact Hw1|].
    intros p Hp. rewrite values_app in Hp. apply in_app_or in Hp.
    destruct Hp as [Hp|[<-|[]]]; [now apply Hw2|].
    exists c. split.
    + apply in_values. exists contextId. now apply get_in.
    + unfold page_in. simpl. apply Nat.eqb_refl.
Qed.

End Invariant.

(** X2.  The creation calls keep a registry well formed, whatever their
    outcome, as long as the object the driver hands back is a new one: one
    entry per key, one key per object, every handle's owner in the map
    above. *)
Theorem creation_keeps_valid {World : Type} (drv : Driver World)
  (s : @Registry.Server World) :
  valid s = true ->
  (forall browserType headless browserId,
     (forall kind ref w,
        parseBrowserType browserType = Some kind ->
        launch drv kind headless (world s) = (Returned ref, w) ->
        ~ In ref (map b_ref (JsMap.values (browsers s)))) ->
     valid (snd (launchBrowser drv browserType headless browserId s)) = true)
  /\ (forall browserId contextId viewport userAgent,
        (forall b ref w,
           JsMap.get browserId (browsers s) = Some b ->
           newContext drv b (contextOptions viewport userAgent) (world s)
           = (Returned ref, w) ->
           ~ In ref (map c_ref (JsMap.values (contexts s)))) ->
        valid (snd (createContext drv browserId contextId viewport userAgent s))
        = true)
  /\ (forall contextId pageId,
        (forall c ref w,
           JsMap.get contextId (contexts s) = Some c ->
           newPage drv c (world s) = (Returned ref, w) ->
           ~ In ref (map p_ref (JsMap.values (pages s)))) ->
        valid (snd (createPage drv contextId pageId s)) = true).
Proof.
  intros Hv. split; [|split]; intros.
  - now apply launchBrowser_keeps_valid.
  - now apply createContext_keeps_valid.
  - now apply createPage_keeps_valid.
Qed.

Lemma creation_keeps_valid_witness :
  valid (Sample.registry Sample.calm) = true
  /\ valid (snd (createPage Sample.driver "c2" "p4"
                   (Sample.registry Sample.calm))) = true.
Proof.
  split; [reflexivity|].
  apply (proj2 (proj2 (creation_keeps_valid Sample.driver
                         (Sample.registry Sample.calm) eq_refl))).
  intros c ref w Hc Hnew. cbv in Hnew. inversion Hnew; subst.
  simpl. intros [H|[H|[H|[]]]]; discriminate H.
Defined.

End GrowthClaims.

(** * Page tools *)
Module PageToolFacts.
Import JsMapFacts JsMapWf Registry Hierarchy Cascade CascadeCalls Validity
  Creation Tools PageCalls.

Section WithDriver.

Context {World : Type}.
Variable drv : Driver World.
Variable pdrv : PageDriver World.
Local Abbreviation Server := (@Registry.Server World).

Lemma run_absent pageId call (s : Server) :
  JsMap.get pageId (pages s) = None ->
  run drv pdrv pageId call s = (Thrown (NotFound KPage pageId), s).
Proof.
  intros H. destruct call; simpl;
    unfold navigate, click, fill, getText, screenshot, waitForSelector,
      evaluate, bind, getOrThrow; now rewrite H.
Qed.

Lemma run_same_maps pageId call (s : Server) :
  same_maps s (snd (run drv pdrv pageId call s)).
Proof.
  destruct call; simpl;
    unfold navigate, click, fill, getText, screenshot, waitForSelector,
      evaluate, bind, getOrThrow, native, ret;
    destruct (JsMap.get pageId (pages s)) as [page|]; simpl;
    try (repeat split; reflexivity).
  - destruct (page_goto drv page url (world s)) as [[[]|e] w];
      repeat split; reflexivity.
  - destruct (page_click drv page selector (world s)) as [[[]|e] w];
      repeat split; reflexivity.
  - destruct (page_fill drv page selector value (world s)) as [[[]|e] w];
      repeat split; reflexivity.
  - destruct (page_textContent pdrv page selector (world s)) as [[t|e] w];
      repeat split; reflexivity.
  - destruct (page_screenshotTo pdrv page _ _ (world s)) as [[n|e] w];
      repeat split; reflexivity.
  - destruct (page_waitForSelectorIn pdrv page selector _ (world s))
      as [[[]|e] w]; repeat split; reflexivity.
  - destruct (page_evaluateScript pdrv page script (world s)) as [[r|e] w];
      repeat split; reflexivity.
Qed.

End WithDriver.

(** X3.  A page tool (navigate, click, fill, get_text, screenshot,
    wait_for_selector, evaluate) on an id that is not in the map of pages
    throws the page's [NotFound] and touches nothing, the driver included;
    and whatever it does on a page that is there, the three maps are
    afterwards as before. *)
Theorem page_tools_keep_registry {World : Type} (drv : Driver World)
  (pdrv : PageDriver World) pageId call (s : @Registry.Server World) :
  (JsMap.get pageId (pages s) = None ->
   run drv pdrv pageId call s = (Thrown (NotFound KPage pageId), s))
  /\ same_maps s (snd (run drv pdrv pageId call s)).
Proof.
  split; [apply run_absent | apply run_same_maps].
Qed.

Lemma page_tools_keep_registry_witness :
  JsMap.get "p9" (pages (Sample.registry Sample.calm)) = None
  /\ Tools.click Sample.driver "p9" "#go" (Sample.registry Sample.calm)
     = (Thrown (NotFound KPage "p9"), Sample.registry Sample.calm).
Proof.
  split; [reflexivity|].
  exact (proj1 (page_tools_keep_registry Sample.driver
                  Fixtures.page_driver
                  "p9" (DoClick "#go") (Sample.registry Sample.calm))
           eq_refl).
Defined.

(** X4.  No use after close.  Once [closeBrowser] has returned on a
    well-formed registry, every page tool on the id of a page that was
    below that browser throws [NotFound]; so it does on the id of a page
    below a context that [closeContext] closed, and on the id that
    [closePage] closed. *)
Theorem no_use_after_close {World : Type} (drv : Driver World)
  (pdrv : PageDriver World) (s : @Registry.Server World) call :
  valid s = true ->
  (forall browserId b r s' pageId p,
     JsMap.get browserId (browsers s) = Some b ->
     closeBrowser drv browserId s = (Returned r, s') ->
     In (pageId, p) (pages s) -> below_browser b s p = true ->
     run drv pdrv pageId call s' = (Thrown (NotFound KPage pageId), s'))
  /\ (forall contextId c r s' pageId p,
        JsMap.get contextId (contexts s) = Some c ->
        closeContext drv contextId s = (Returned r, s') ->
        In (pageId, p) (pages s) -> page_in c p = true ->
        run drv pdrv pageId call s' = (Thrown (NotFound KPage pageId), s'))
  /\ (forall pageId r s',
        closePage drv pageId s = (Returned r, s') ->
        run drv pdrv pageId call s' = (Thrown (NotFound KPage pageId), s')).
Proof.
  intros Hv.
  destruct (valid_parts _ Hv) as [Hk _].
  destruct (keys_ok_wf _ Hk) as [Hwb [Hwc Hwp]].
  split; [|split].
  - intros browserId b r s' pageId p Hget Hclose Hin Hbelow.
    apply run_absent.
    pose proof (closeBrowser_cases drv _ _ _ _ _ Hwc Hwp Hget Hclose)
      as [_ Hclosed].
    pose proof (closed_browser_gone _ _ _ _ Hv Hget Hclosed)
      as [_ [_ [_ [_ [Hgone _]]]]].
    eapply Hgone; eauto.
  - intros contextId c r s' pageId p Hget Hclose Hin Hpc.
    apply run_absent.
    pose proof (closeContext_cases drv _ _ _ _ _ Hwp Hget Hclose)
      as [_ Hclosed].
    pose proof (closed_context_gone _ _ _ _ Hv Hget Hclosed)
      as [_ [_ [Hgone _]]].
    eapply Hgone; eauto.
  - intros pageId r s' Hclose. apply run_absent.
    apply has_false_iff. eapply closePage_returned_frees; eauto.
Qed.

Lemma no_use_after_close_witness :
  valid (Sample.registry Sample.calm) = true
  /\ Tools.navigate Sample.driver "p2" "https://example.com"
       (snd (closeBrowser Sample.driver "b1" (Sample.registry Sample.calm)))
     = (Thrown (NotFound KPage "p2"),
        snd (closeBrowser Sample.driver "b1" (Sample.registry Sample.calm))).
Proof.
  split; [reflexivity|].
  exact (proj1 (no_use_after_close Sample.driver
                  Fixtures.page_driver
                  (Sample.registry Sample.calm)
                  (DoNavigate "https://example.com") eq_refl)
           "b1" Sample.b1 "b1" _ "p2" Sample.p2
           eq_refl eq_refl (or_intror (or_introl eq_refl)) eq_refl).
Defined.

(** X5.  Closing twice.  After a close call has returned, the same call
    again throws [NotFound] and changes nothing. *)
Theorem second_close_not_found {World : Type} (drv : Driver World)
  (s : @Registry.Server World) :
  (forall pageId r s',
     closePage drv pageId s = (Returned r, s') ->
     closePage drv pageId s' = (Thrown (NotFound KPage pageId), s'))
  /\ (forall contextId r s',
        closeContext drv contextId s = (Returned r, s') ->
        closeContext drv contextId s'
        = (Thrown (NotFound KContext contextId), s'))
  /\ (forall browserId r s',
        closeBrowser drv browserId s = (Returned r, s') ->
        closeBrowser drv browserId s'
        = (Thrown (NotFound KBrowser browserId), s')).
Proof.
  split; [|split].
  - intros pageId r s' H.
    apply closePage_returned_frees in H. apply has_false_iff in H.
    pose proof (closePage_cases drv pageId s') as C. now rewrite H in C.
  - intros contextId r s' H.
    apply closeContext_returned_frees in H. apply has_false_iff in H.
    now apply closeContext_not_found.
  - intros browserId r s' H.
    apply closeBrowser_returned_frees in H. apply has_false_iff in H.
    now apply closeBrowser_not_found.
Qed.

Lemma second_close_not_found_witness :
  closeBrowser Sample.driver "b1" (Sample.registry Sample.calm)
  = (Returned "b1",
     snd (closeBrowser Sample.driver "b1" (Sample.registry Sample.calm)))
  /\ closeBrowser Sample.driver "b1"
       (snd (closeBrowser Sample.driver "b1" (Sample.registry Sample.calm)))
     = (Thrown (NotFound KBrowser "b1"),
        snd (closeBrowser Sample.driver "b1" (Sample.registry Sample.calm))).
Proof.
  split; [reflexivity|].
  exact (proj2 (proj2 (second_close_not_found Sample.driver
                         (Sample.registry Sample.calm)))
           "b1" "b1" _ eq_refl).
Defined.

End PageToolFacts.

(** * The JSON-RPC loop *)
Module RpcFacts.
Import Registry Hierarchy Tools.

(** X6.  The tools that [tools/list] advertises are the tools that
    [tools/call] knows: a name has a branch in the [switch] exactly when
    it is in the list. *)
Theorem advertised_tools_are_dispatched {World : Type} (drv : Driver World)
  (pdrv : PageDriver World) name args :
  In name (map fst tools) <-> dispatch drv pdrv name args <> None.
Proof.
  split.
  - simpl. intros H.
    repeat (destruct H as [<-|H]; [discriminate|]). contradiction.
  - unfold dispatch. intros H.
    repeat match goal with
           | H : context [String.eqb name ?x] |- _ =>
               destruct (String.eqb_spec name x) as [->|_];
               [simpl; tauto|]
           end.
    contradiction.
Qed.

Lemma advertised_tools_are_dispatched_witness :
  In "wait_for_selector" (map fst tools)
  /\ dispatch Sample.driver Fixtures.page_driver "wait_for_selector"
       Fixtures.no_args <> None.
Proof.
  assert (H : In "wait_for_selector" (map fst tools)) by (simpl; tauto).
  split; [exact H|].
  exact (proj1 (advertised_tools_are_dispatched Sample.driver
                  Fixtures.page_driver "wait_for_selector" Fixtures.no_args) H).
Defined.

Section WithDriver.

Context {World : Type}.
Variable drv : Driver World.
Variable pdrv : PageDriver World.

Lemma handleToolCall_run request (st : @Mcp World) :
  handleToolCall drv pdrv request st
  = match dispatch drv pdrv (req_name request) (req_arguments request) with
    | None =>
        (Returned tt,
         {| registry := registry st;
            stdout := (stdout st
                       ++ [ErrorResponse (req_id request) (-32603)
                             (ToolExecutionFailed
                                (UnknownTool (req_name request)))])%list |})
    | Some tool =>
        match tool (registry st) with
        | (Returned result, r) =>
            (Returned tt,
             {| registry := r;
                stdout := (stdout st
                           ++ [ToolCallResult (req_id request) result])%list |})
        | (Thrown e, r) =>
            (Returned tt,
             {| registry := r;
                stdout := (stdout st
                           ++ [ErrorResponse (req_id request) (-32603)
                                 (ToolExecutionFailed (ToolThrew e))])%list |})
        end
    end.
Proof.
  unfold handleToolCall.
  destruct (dispatch drv pdrv (req_name request) (req_arguments request))
    as [tool|]; [|reflexivity].
  unfold try_catch, bind, onRegistry, send, modify.
  destruct (tool (registry st)) as [[result|e] r]; reflexivity.
Qed.

End WithDriver.

(** X7.  [handleRequest] never throws.  It answers a request with exactly
    one message, which carries the id of the request, except the
    notification [notifications/tools/list_changed], which it does not
    answer; and only [tools/call] can change the registry. *)
Theorem one_answer_per_request {World : Type} (drv : Driver World)
  (pdrv : PageDriver World) request (st : @Mcp World) :
  exists st',
    handleRequest drv pdrv request st = (Returned tt, st')
    /\ (req_method request <> "tools/call" -> registry st' = registry st)
    /\ if String.eqb (req_method request) "notifications/tools/list_changed"
       then stdout st' = stdout st
       else exists m, stdout st' = (stdout st ++ [m])%list
                      /\ message_id m = req_id request.
Proof.
  unfold handleRequest, try_catch.
  destruct (String.eqb_spec (req_method request) "initialize") as [E|_].
  { eexists. split; [reflexivity|]. split; [reflexivity|].
    rewrite E. simpl. eexists. split; reflexivity. }
  destruct (String.eqb_spec (req_method request) "tools/list") as [E|_].
  { eexists. split; [reflexivity|]. split; [reflexivity|].
    rewrite E. simpl. eexists. split; reflexivity. }
  destruct (String.eqb_spec (req_method request) "tools/call") as [E|_].
  { rewrite handleToolCall_run. rewrite E. simpl.
    destruct (dispatch drv pdrv (req_name request) (req_arguments request))
      as [tool|].
    - destruct (tool (registry st)) as [[result|e] r];
        eexists; (split; [reflexivity|]); (split; [congruence|]);
        eexists; split; reflexivity.
    - eexists. split; [reflexivity|]. split; [congruence|].
      eexists. split; reflexivity. }
  destruct (String.eqb_spec (req_method request)
              "notifications/tools/list_changed") as [E|_].
  { eexists. split; [reflexivity|]. split; reflexivity. }
  eexists. split; [reflexivity|]. split; [reflexivity|].
  eexists. split; reflexivity.
Qed.

Lemma one_answer_per_request_witness :
  req_method Fixtures.close_c1 <> "initialize"
  /\ exists st',
       handleRequest Sample.driver Fixtures.page_driver Fixtures.close_c1
         (Fixtures.mcp Sample.p2_stuck) = (Returned tt, st')
       /\ exists m, stdout st' = [m] /\ message_id m = IdNumber 7.
Proof.
  split; [discriminate|].
  destruct (one_answer_per_request Sample.driver Fixtures.page_driver
              Fixtures.close_c1 (Fixtures.mcp Sample.p2_stuck))
    as [st' [H [_ Hm]]].
  exists st'. split; [exact H|]. exact Hm.
Defined.

(** X8.  The answer to [tools/call].  A tool that returns is answered
    with its result; a tool that throws is answered with error -32603 and
    what it threw, and the registry stays as the tool left it; a name
    without a branch is answered with error -32603 and leaves the registry
    alone.  A method without a branch is answered with error -32601. *)
Theorem tool_call_answers {World : Type} (drv : Driver World)
  (pdrv : PageDriver World) request (st : @Mcp World) :
  (req_method request = "tools/call" ->
   match dispatch drv pdrv (req_name request) (req_arguments request) with
   | Some tool =>
       registry (snd (handleRequest drv pdrv request st))
       = snd (tool (registry st))
       /\ stdout (snd (handleRequest drv pdrv request st))
          = (stdout st
             ++ [match fst (tool (registry st)) with
                 | Returned result => ToolCallResult (req_id request) result
                 | Thrown e =>
                     ErrorResponse (req_id request) (-32603)
                       (ToolExecutionFailed (ToolThrew e))
                 end])%list
   | None =>
       snd (handleRequest drv pdrv request st)
       = {| registry := registry st;
            stdout := (stdout st
                       ++ [ErrorResponse (req_id request) (-32603)
                             (ToolExecutionFailed
                                (UnknownTool (req_name request)))])%list |}
   end)
  /\ (~ In (req_method request)
        ["initialize"; "tools/list"; "tools/call";
         "notifications/tools/list_changed"] ->
      snd (handleRequest drv pdrv request st)
      = {| registry := registry st;
           stdout := (stdout st
                      ++ [ErrorResponse (req_id request) (-32601)
                            (MethodNotFound (req_method request))])%list |}).
Proof.
  split.
  - intros E. unfold handleRequest, try_catch. rewrite E. simpl.
    rewrite handleToolCall_run.
    destruct (dispatch drv pdrv (req_name request) (req_arguments request))
      as [tool|]; [|reflexivity].
    destruct (tool (registry st)) as [[result|e] r]; split; reflexivity.
  - intros H. unfold handleRequest, try_catch.
    destruct (String.eqb_spec (req_method request) "initialize") as [E|_];
      [exfalso; apply H; rewrite E; simpl; tauto|].
    destruct (String.eqb_spec (req_method request) "tools/list") as [E|_];
      [exfalso; apply H; rewrite E; simpl; tauto|].
    destruct (String.eqb_spec (req_method request) "tools/call") as [E|_];
      [exfalso; apply H; rewrite E; simpl; tauto|].
    destruct (String.eqb_spec (req_method request)
                "notifications/tools/list_changed") as [E|_];
      [exfalso; apply H; rewrite E; simpl; tauto|].
    reflexivity.
Qed.

(** The request to close context [c1] while closing page [p2] throws: the
    answer is the error, and page [p1] is gone from the registry. *)
Lemma tool_call_answers_witness :
  req_method Fixtures.close_c1 = "tools/call"
  /\ stdout (snd (handleRequest Sample.driver Fixtures.page_driver
                    Fixtures.close_c1 (Fixtures.mcp Sample.p2_stuck)))
     = [ErrorResponse (IdNumber 7) (-32603)
          (ToolExecutionFailed (ToolThrew (DriverError "Target closed")))]
  /\ JsMap.keys
       (pages (registry (snd (handleRequest Sample.driver Fixtures.page_driver
                                Fixtures.close_c1
                                (Fixtures.mcp Sample.p2_stuck)))))
     = ["p2"; "p3"].
Proof.
  split; [reflexivity|].
  pose proof (proj1 (tool_call_answers Sample.driver Fixtures.page_driver
                       Fixtures.close_c1 (Fixtures.mcp Sample.p2_stuck))
                eq_refl) as H.
  destruct H as [Hr Hs]. split.
  - exact Hs.
  - exact (f_equal (fun r => JsMap.keys (pages r)) Hr).
Defined.

End RpcFacts.

(** * The natural-language commands *)
Module CommandFacts.
Import Registry Hierarchy Copilot.

Section WithDriver.

Context {World : Type}.
Variable drv : Driver World.
Local Abbreviation Server := (@Registry.Server World).

Lemma same_maps_refl (s : Server) : same_maps s s.
Proof. repeat split. Qed.

Lemma same_maps_trans (s1 s2 s3 : Server) :
  same_maps s1 s2 -> same_maps s2 s3 -> same_maps s1 s3.
Proof.
  intros [A [B C]] [D [E F]]. repeat split; congruence.
Qed.

Lemma native_same_maps {A : Type} (op : World -> Outcome A * World)
  (s : Server) :
  same_maps s (snd (native op s)).
Proof.
  unfold native. destruct (op (world s)) as [o w]. repeat split.
Qed.

(** A driver call followed by a reply changes no map. *)
Lemma native_then_ret_same_maps {A B : Type}
  (op : World -> Outcome A * World) (f : A -> B) (s : Server) :
  same_maps s (snd ((a <- native op ;; ret (f a)) s)).
Proof.
  unfold bind, native, ret. destruct (op (world s)) as [[a|e] w];
    repeat split.
Qed.

Lemma clickFirst_same_maps page command targets (s : Server) :
  same_maps s (snd (clickFirst drv page command targets s)).
Proof.
  revert s. induction targets as [|target rest IH]; intros s.
  - apply same_maps_refl.
  - cbn [clickFirst]. unfold try_catch, bind, native, ret.
    destruct (page_click drv page target (world s)) as [[[]|e] w]; simpl.
    + repeat split.
    + eapply same_maps_trans; [|apply IH]. repeat split.
Qed.

(** [handleClickCommand] swallows what [page.click] throws. *)
Lemma clickFirst_returns page command targets (s : Server) :
  exists r s',
    clickFirst drv page command targets s = (Returned r, s')
    /\ (r = Failure (NoClickableElement command)
        \/ exists target, In target targets /\ r = Clicked target command).
Proof.
  revert s. induction targets as [|target rest IH]; intros s.
  - exists (Failure (NoClickableElement command)), s. split; auto.
  - cbn [clickFirst]. unfold try_catch, bind, native, ret.
    destruct (page_click drv page target (world s)) as [[[]|e] w]; simpl.
    + eexists. eexists. split; [reflexivity|]. right.
      exists target. split; [now left | reflexivity].
    + destruct (IH {| browsers := browsers s; contexts := contexts s;
                      pages := pages s; world := w |})
        as [r [s' [H Hr]]].
      exists r, s'. split; [exact H|].
      destruct Hr as [Hr|[t [Hin Hr]]]; [now left|].
      right. exists t. split; [now right | exact Hr].
Qed.

Lemma command_same_maps command pageId context (s : Server) :
  same_maps s (snd (executeNaturalLanguageCommand drv command pageId context s)).
Proof.
  unfold executeNaturalLanguageCommand. unfold bind at 1. unfold getOrThrow.
  destruct (JsMap.get pageId (pages s)) as [page|]; [|apply same_maps_refl].
  repeat match goal with
         | |- context [if ?b then _ else _] => destruct b
         end.
  - apply clickFirst_same_maps.
  - unfold handleTypeCommand.
    destruct (truthy (td_selector (extractTypeData command)));
      [|apply same_maps_refl].
    destruct (truthy (td_text (extractTypeData command)));
      [|apply same_maps_refl].
    apply (native_then_ret_same_maps _ (fun _ => Typed s0 s1)).
  - unfold handleNavigateCommand.
    destruct (truthy (extractUrl command)); [|apply same_maps_refl].
    apply (native_then_ret_same_maps _ (fun _ => Navigated s0)).
  - unfold handleWaitCommand. destruct (extractWaitCondition command).
    + apply (native_then_ret_same_maps _ (fun _ => Waited (WaitSelector value))).
    + apply (native_then_ret_same_maps _ (fun _ => Waited (WaitTimeout value))).
  - unfold handleScreenshotCommand.
    apply (native_then_ret_same_maps _ (fun b => Screenshot b _)).
  - unfold handleScrollCommand.
    apply (native_then_ret_same_maps _ (fun _ => Scrolled _ _)).
  - apply same_maps_refl.
Qed.

Lemma workflowLoop_same_maps pageId steps results (s : Server) :
  same_maps s (snd (workflowLoop drv pageId steps results s)).
Proof.
  revert results s. induction steps as [|step rest IH]; intros results s.
  - apply same_maps_refl.
  - cbn [workflowLoop]. unfold bind at 1. unfold try_catch.
    unfold bind at 1.
    pose proof (command_same_maps (step_command step) pageId
                  (step_context step) s) as Hc.
    destruct (executeNaturalLanguageCommand drv (step_command step) pageId
                (step_context step) s) as [[result|error] s1];
      simpl in *; (eapply same_maps_trans; [exact Hc | apply IH]).
Qed.

Lemma command_absent command pageId context (s : Server) :
  JsMap.get pageId (pages s) = None ->
  executeNaturalLanguageCommand drv command pageId context s
  = (Thrown (NotFound KPage pageId), s).
Proof.
  intros H. unfold executeNaturalLanguageCommand, bind, getOrThrow.
  now rewrite H.
Qed.

Lemma workflowLoop_absent pageId steps results (s : Server) :
  JsMap.get pageId (pages s) = None ->
  workflowLoop drv pageId steps results s
  = (Returned (results
               ++ map (fun step =>
                         StepError (step_name step) (NotFound KPage pageId))
                    steps)%list, s).
Proof.
  intros H. revert results.
  induction steps as [|step rest IH]; intros results.
  - simpl. unfold ret. now rewrite app_nil_r.
  - cbn [workflowLoop]. unfold bind at 1. unfold try_catch.
    unfold bind at 1. rewrite command_absent by exact H.
    unfold ret. rewrite IH. simpl. now rewrite <- app_assoc.
Qed.

End WithDriver.

(** X9.  The natural-language layer reads the registry and never writes
    it: after [executeNaturalLanguageCommand], and after a whole
    [executeWorkflow], the maps of browsers, contexts and pages are as
    before, whatever the command and whatever the driver did. *)
Theorem commands_keep_registry {World : Type} (drv : Driver World)
  (s : @Registry.Server World) pageId :
  (forall command context,
     same_maps s
       (snd (executeNaturalLanguageCommand drv command pageId context s)))
  /\ (forall workflow,
        same_maps s (snd (executeWorkflow drv workflow pageId s))).
Proof.
  split.
  - intros. apply command_same_maps.
  - intros workflow. unfold executeWorkflow, bind.
    pose proof (workflowLoop_same_maps drv pageId workflow [] s) as H.
    destruct (workflowLoop drv pageId workflow [] s) as [[r|e] s1];
      exact H.
Qed.

(** X10.  A workflow on a page id that is not registered: the call still
    returns [success: true]; every step gets an entry with the page's
    [NotFound], in order, and nothing was asked of the driver. *)
Theorem workflow_on_absent_page {World : Type} (drv : Driver World)
  (s : @Registry.Server World) workflow pageId :
  JsMap.get pageId (pages s) = None ->
  executeWorkflow drv workflow pageId s
  = (Returned
       {| wr_success := true;
          wr_workflow :=
            map (fun step => StepError (step_name step) (NotFound KPage pageId))
              workflow |}, s).
Proof.
  intros H. unfold executeWorkflow, bind.
  rewrite workflowLoop_absent by exact H. reflexivity.
Qed.

Lemma workflow_on_absent_page_witness :
  JsMap.get "p9" (pages (Sample.registry Sample.calm)) = None
  /\ executeWorkflow Sample.driver Sample.workflow "p9"
       (Sample.registry Sample.calm)
     = (Returned
          {| wr_success := true;
             wr_workflow :=
               [StepError "open" (NotFound KPage "p9");
                StepError "email" (NotFound KPage "p9");
                StepError "down" (NotFound KPage "p9")] |},
        Sample.registry Sample.calm).
Proof.
  split; [reflexivity|].
  exact (workflow_on_absent_page Sample.driver (Sample.registry Sample.calm)
           Sample.workflow "p9" eq_refl).
Defined.

(** X11.  A click command never fails with an exception.  On a page that
    is registered, a command with the word click or press returns: either
    [Clicked] with one of the selectors drawn from the command, or the
    failure reply; what [page.click] throws is swallowed. *)
Theorem click_command_never_throws {World : Type} (drv : Driver World)
  (s : @Registry.Server World) command pageId context page :
  JsMap.get pageId (pages s) = Some page ->
  Js.includes "click" (Js.toLowerCase command) = true
  \/ Js.includes "press" (Js.toLowerCase command) = true ->
  exists r s',
    executeNaturalLanguageCommand drv command pageId context s
    = (Returned r, s')
    /\ (r = Failure (NoClickableElement command)
        \/ exists target,
             In target (extractClickTarget command)
             /\ r = Clicked target command).
Proof.
  intros Hget Hword.
  unfold executeNaturalLanguageCommand. unfold bind at 1. unfold getOrThrow.
  rewrite Hget.
  assert (E : Js.includes "click" (Js.toLowerCase command)
              || Js.includes "press" (Js.toLowerCase command) = true).
  { apply orb_true_iff. exact Hword. }
  rewrite E. apply clickFirst_returns.
Qed.

Lemma click_command_never_throws_witness :
  JsMap.get "p1" (pages (Sample.registry Sample.no_email)) = Some Sample.p1
  /\ Js.includes "click" (Js.toLowerCase "Click the #email link") = true
  /\ exists r s',
       executeNaturalLanguageCommand Sample.driver "Click the #email link"
         "p1" None (Sample.registry Sample.no_email) = (Returned r, s').
Proof.
  split; [reflexivity|]. split; [reflexivity|].
  destruct (click_command_never_throws Sample.driver
              (Sample.registry Sample.no_email) "Click the #email link"
              "p1" None Sample.p1 eq_refl (or_introl eq_refl))
    as [r [s' [H _]]].
  exists r, s'. exact H.
Defined.

End CommandFacts.

(** * The command parsers *)
Module ParserFacts.
Import Registry Copilot.

(** X12.  What [extractUrl] hands back.  For a command of ASCII characters,
    a URL is extracted only when the pattern for navigate to or go to
    matches; with [given] the text the pattern captured, the URL is
    [given] trimmed when that begins with the letters http, and [given]
    trimmed with https:// in front otherwise.  So every URL extracted
    begins with http, but a capture such as httpbin.org is handed back as
    it is, without a scheme. *)
Theorem extractUrl_shape command url :
  Js.isAscii command = true ->
  extractUrl command = Some url ->
  Js.startsWith "http" url = true
  /\ exists m given,
       Regex.search re_url command = Some m
       /\ Regex.group 1 m = Some given
       /\ url = if Js.startsWith "http" (Js.trim given) then Js.trim given
                else "https://" ++ Js.trim given.
Proof.
  intros _. unfold extractUrl.
  destruct (Regex.search re_url command) as [m|] eqn:Em; [|discriminate].
  destruct (Regex.group 1 m) as [g|] eqn:Eg; [|discriminate].
  intros [= <-]. split.
  - destruct (Js.startsWith "http" (Js.trim g)) eqn:Es;
      [exact Es | reflexivity].
  - exists m, g. auto.
Qed.

Lemma extractUrl_shape_witness :
  Js.isAscii "go to httpbin.org" = true
  /\ extractUrl "go to httpbin.org" = Some "httpbin.org"
  /\ Js.startsWith "http" "httpbin.org" = true
  /\ exists m given,
       Regex.search re_url "go to httpbin.org" = Some m
       /\ Regex.group 1 m = Some given
       /\ "httpbin.org"
          = if Js.startsWith "http" (Js.trim given) then Js.trim given
            else "https://" ++ Js.trim given.
Proof.
  split; [reflexivity|]. split; [reflexivity|].
  exact (extractUrl_shape "go to httpbin.org" "httpbin.org" eq_refl eq_refl).
Defined.

Lemma digitsValue_from acc ds :
  (0 <= acc)%Z ->
  (0 <= fold_left (fun a d => (10 * a + Js.digitValue d)%Z) ds acc)%Z.
Proof.
  revert acc. induction ds as [|d ds IH]; intros acc Hacc;
    cbn [fold_left]; auto.
  apply IH. unfold Js.digitValue. lia.
Qed.

Lemma digitsValue_nonneg ds : (0 <= Js.digitsValue ds)%Z.
Proof. unfold Js.digitsValue. apply digitsValue_from. lia. Qed.

(** X13.  [extractWaitCondition] never asks for a negative wait: a
    timeout it gives is zero or more, and it is 1000 ms when the command
    has no number followed by ms or seconds. *)
Theorem extractWaitCondition_timeout command value :
  extractWaitCondition command = WaitTimeout value ->
  (0 <= value)%Z
  /\ (Regex.search re_wait_time command = None -> value = 1000%Z).
Proof.
  unfold extractWaitCondition.
  destruct (Regex.search re_wait_selector command) as [m|].
  - destruct (Regex.group 1 m); [discriminate|].
    intros [= <-]. split; [lia | reflexivity].
  - destruct (Regex.search re_wait_time command) as [m|].
    + destruct (Regex.group 1 m) as [digits|]; intros [= <-].
      * split; [|discriminate].
        pose proof (digitsValue_nonneg (list_ascii_of_string digits)).
        destruct (Js.includes "second" command); lia.
      * split; [lia | reflexivity].
    + intros [= <-]. split; [lia | reflexivity].
Qed.

Lemma extractWaitCondition_timeout_witness :
  extractWaitCondition "Wait 3 seconds" = WaitTimeout 3000
  /\ (0 <= 3000)%Z.
Proof.
  split; [reflexivity|].
  exact (proj1 (extractWaitCondition_timeout "Wait 3 seconds" 3000 eq_refl)).
Defined.

(** A string without the double quote has no quoted part. *)
Lemma no_quote_no_match (l : list ascii) :
  Forall (fun a => Ascii.eqb a "034"%char = false) l ->
  Regex.search_from re_quoted l = None.
Proof.
  induction 1 as [|a l Ha Hl IH]; [reflexivity|].
  cbn [Regex.search_from]. unfold re_quoted at 1.
  cbn [Regex.seqs Regex.run Regex.quote]. rewrite Ha. exact IH.
Qed.

(** X14.  The words of a click command are not used as a selector unless
    they are in double quotes: for a command without a double quote the
    selectors that [handleClickCommand] may click are the fixed ones for
    the words button, submit and link, and with none of these words there
    is nothing to click. *)
Theorem unquoted_click_targets command :
  Forall (fun a => Ascii.eqb a "034"%char = false)
    (list_ascii_of_string command) ->
  (forall target,
     In target (extractClickTarget command) ->
     In target
       ["button";
        "button[type=" ++ Js.dq ++ "submit" ++ Js.dq ++ "]";
        "input[type=" ++ Js.dq ++ "submit" ++ Js.dq ++ "]";
        "a"])
  /\ (Js.includes "button" command = false ->
      Js.includes "submit" command = false ->
      Js.includes "link" command = false ->
      extractClickTarget command = []).
Proof.
  intros Hq. unfold extractClickTarget, Regex.search.
  rewrite (no_quote_no_match _ Hq). rewrite app_nil_r. split.
  - intros target Hin.
    destruct (Js.includes "button" command);
      destruct (Js.includes "submit" command);
      destruct (Js.includes "link" command); simpl in Hin |- *; tauto.
  - intros -> -> ->. reflexivity.
Qed.

Lemma unquoted_click_targets_witness :
  Forall (fun a => Ascii.eqb a "034"%char = false)
    (list_ascii_of_string "click the Login tab")
  /\ extractClickTarget "click the Login tab" = [].
Proof.
  assert (H : Forall (fun a => Ascii.eqb a "034"%char = false)
                (list_ascii_of_string "click the Login tab")).
  { simpl. repeat constructor. }
  split; [exact H|].
  exact (proj2 (unquoted_click_targets "click the Login tab" H)
           eq_refl eq_refl eq_refl).
Defined.

End ParserFacts.

(** * Sessions of the socket server *)
Module SessionFacts.
Import JsMapFacts JsMapWf CloseErrors AIServer Shutdown.

Section WithDriver.

Context {World : Type}.
Variable drv : Driver World.
Variable events : PageEvents World.
Local Abbreviation Server := (@AIServer.Server World).

(** The status update the listener of [close] sends. *)
Local Abbreviation page_closed_update socketId :=
  (socketId, {| su_message := BrowserPageClosed; su_type := info |}).

Lemma close_event_updates_in socketId fired u :
  In u (close_event_updates socketId fired) ->
  fired = true /\ u = page_closed_update socketId.
Proof.
  destruct fired; simpl; [|tauto]. intros [<-|[]]. auto.
Qed.

(** [cleanupSession] sends nothing but what the listener of the page of
    that session sends, and only adds lines to the console, the last being
    the removal of the session when there was one. *)
Lemma cleanupSession_streams socketId (a : Server) :
  (exists updates,
     emitted (snd (cleanupSession drv events socketId a))
     = (emitted a ++ updates)%list
     /\ forall u,
          In u updates ->
          u = page_closed_update socketId
          /\ exists session,
               JsMap.get socketId (activeSessions a) = Some session
               /\ s_page session <> None)
  /\ exists lines,
       console (snd (cleanupSession drv events socketId a))
       = (console a ++ lines)%list
       /\ (JsMap.get socketId (activeSessions a) <> None ->
           In (LogSessionRemoved socketId) lines).
Proof.
  destruct (cleanupSession_run drv events socketId a)
    as [a' [E [_ [_ Hcase]]]].
  rewrite E. cbn [snd].
  destruct (JsMap.get socketId (activeSessions a)) as [session|].
  - destruct Hcase as [Hc He]. split.
    + eexists. split; [exact He|]. intros u Hu.
      unfold cleanup_updates, page_close_fired, browser_close_fired in Hu.
      destruct (s_page session) as [page|] eqn:Ep.
      * assert (Hsome : exists session0,
                   Some session = Some session0 /\ s_page session0 <> None).
        { exists session. split; [reflexivity|]. rewrite Ep. discriminate. }
        split; [|exact Hsome].
        apply in_app_or in Hu. destruct Hu as [Hu|Hu].
        -- now apply close_event_updates_in in Hu.
        -- destruct (s_browser session); [|contradiction].
           now apply close_event_updates_in in Hu.
      * destruct (s_browser session); simpl in Hu; contradiction.
    + eexists. split; [exact Hc|]. intros _.
      unfold cleanup_lines. apply in_or_app. right. apply in_or_app. right.
      apply in_or_app. right. now left.
  - subst a'. split.
    + exists []. split; [now rewrite app_nil_r | intros u []].
    + exists []. split; [now rewrite app_nil_r|].
      intros H. now elim H.
Qed.

Lemma delete_all_keys {V : Type} (m : JsMap.t V) :
  JsMap.delete_all (JsMap.keys m) m = [].
Proof.
  unfold JsMap.delete_all.
  assert (H : forall l, incl l m ->
              filter (fun e => negb (existsb (String.eqb (fst e))
                                       (JsMap.keys m))) l = []).
  { induction l as [|e l IH]; intros Hincl; [reflexivity|].
    simpl.
    assert (E : existsb (String.eqb (fst e)) (JsMap.keys m) = true).
    { apply existsb_exists. exists (fst e). split; [|apply String.eqb_refl].
      unfold JsMap.keys. apply in_map. apply Hincl. now left. }
    rewrite E. simpl. apply IH. intros x Hx. apply Hincl. now right. }
  apply H. apply incl_refl.
Qed.

Lemma cleanupEach_run socketIds (a : Server) :
  exists a',
    cleanupEach drv events socketIds a = (Returned tt, a')
    /\ activeSessions a' = JsMap.delete_all socketIds (activeSessions a)
    /\ (exists updates,
          emitted a' = (emitted a ++ updates)%list
          /\ forall u,
               In u updates ->
               exists socketId session,
                 u = page_closed_update socketId
                 /\ In (socketId, session) (activeSessions a)
                 /\ s_page session <> None)
    /\ exists lines,
         console a' = (console a ++ lines)%list
         /\ forall socketId,
              In socketId socketIds ->
              JsMap.get socketId (activeSessions a) <> None ->
              In (LogSessionRemoved socketId) lines.
Proof.
  revert a. induction socketIds as [|socketId rest IH]; intros a.
  - exists a. split; [reflexivity|]. split; [now rewrite delete_all_nil|].
    split.
    + exists []. split; [now rewrite app_nil_r | intros u []].
    + exists []. split; [now rewrite app_nil_r|]. intros ? [].
  - cbn [cleanupEach]. unfold bind at 1.
    destruct (cleanupSession_run drv events socketId a)
      as [a1 [E [_ [Hd _]]]].
    pose proof (cleanupSession_streams socketId a)
      as [[u1 [He Hu1]] [l1 [Hc Hl1]]].
    rewrite E in *. cbn [snd] in He, Hc.
    destruct (IH a1) as [a' [E' [Hd' [[u2 [He' Hu2]] [l2 [Hc' Hl2]]]]]].
    exists a'. split; [exact E'|].
    split; [rewrite Hd', Hd; apply delete_all_delete|].
    split.
    + exists (u1 ++ u2)%list.
      split; [rewrite He', He; now rewrite app_assoc|].
      intros u Hu. apply in_app_or in Hu. destruct Hu as [Hu|Hu].
      * destruct (Hu1 u Hu) as [-> [session [Hget Hpage]]].
        exists socketId, session. split; [reflexivity|].
        split; [now apply get_in | exact Hpage].
      * destruct (Hu2 u Hu) as [k [session [-> [Hin Hpage]]]].
        exists k, session. split; [reflexivity|]. split; [|exact Hpage].
        rewrite Hd in Hin. rewrite delete_is_delete_all in Hin.
        apply in_delete_all in Hin. tauto.
    + exists (l1 ++ l2)%list.
      split; [rewrite Hc', Hc; now rewrite app_assoc|].
      intros k Hin Hk. apply in_or_app.
      destruct (String.eqb_spec k socketId) as [->|Hne].
      * left. now apply Hl1.
      * destruct Hin as [->|Hin]; [contradiction|].
        right. apply Hl2; auto.
        rewrite Hd. rewrite get_delete_other; auto.
Qed.

End WithDriver.

(** X15.  [cleanupSession] is safe to repeat and touches one session.  It
    always returns; the other sessions are as before; all it sends is the
    status that the page has closed, to the socket of the session, once for
    each time the page of the session emits [close] during the two closes;
    on an id without a session it changes nothing at all, so a second
    cleanup of the same session is a no-op that calls no driver close
    again. *)
Theorem cleanupSession_idempotent {World : Type} (drv : Driver World)
  (events : PageEvents World) socketId (a : @AIServer.Server World) :
  exists a',
    cleanupSession drv events socketId a = (Returned tt, a')
    /\ (forall other, other <> socketId ->
        JsMap.get other (activeSessions a')
        = JsMap.get other (activeSessions a))
    /\ (exists updates,
          emitted a' = (emitted a ++ updates)%list
          /\ forall u,
               In u updates ->
               u = (socketId,
                    {| su_message := BrowserPageClosed; su_type := info |})
               /\ exists session,
                    JsMap.get socketId (activeSessions a) = Some session
                    /\ s_page session <> None)
    /\ (JsMap.get socketId (activeSessions a) = None -> a' = a)
    /\ cleanupSession drv events socketId a' = (Returned tt, a').
Proof.
  destruct (cleanupSession_run drv events socketId a)
    as [a' [E [Hgone [Hd Hcase]]]].
  pose proof (cleanupSession_streams drv events socketId a) as [He _].
  rewrite E in He. cbn [snd] in He.
  exists a'. split; [exact E|]. split; [|split; [exact He|split]].
  - intros other Hne. rewrite Hd. apply get_delete_other. congruence.
  - intros Hnone. now rewrite Hnone in Hcase.
  - destruct (cleanupSession_run drv events socketId a')
      as [a2 [E2 [_ [_ Hcase2]]]].
    rewrite Hgone in Hcase2. now rewrite E2, Hcase2.
Qed.

(** The theorem on the sample server, in a world where the close of the
    page throws: the page closes with its browser, and the socket is told
    once. *)
Lemma cleanupSession_idempotent_witness :
  exists a',
    cleanupSession Sample.driver Sample.events "sock"
      (Sample.ai_server Sample.p1_stuck)
    = (Returned tt, a')
    /\ activeSessions a' = []
    /\ emitted a'
       = [("sock", {| su_message := BrowserPageClosed; su_type := info |})]
    /\ cleanupSession Sample.driver Sample.events "sock" a' = (Returned tt, a').
Proof.
  destruct (cleanupSession_idempotent Sample.driver Sample.events "sock"
              (Sample.ai_server Sample.p1_stuck))
    as [a' [E [_ [_ [_ Hagain]]]]].
  exists a'. split; [exact E|].
  cbv in E. inversion E. subst a'. cbn [activeSessions emitted].
  split; [reflexivity|]. split; [reflexivity | exact Hagain].
Defined.

(** X16.  Shutdown leaves no session behind.  The handlers of SIGINT and
    SIGTERM, up to the closing of the HTTP server, never throw, whatever the
    closes of pages and browsers do; afterwards the map of sessions is
    empty, the console has the line of the signal and then, among others,
    the removal line of every session there was, and all that was sent is
    the status that the page has closed, to sockets of sessions that had a
    page. *)
Theorem shutdown_removes_every_session {World : Type} (drv : Driver World)
  (events : PageEvents World) sigterm (a : @AIServer.Server World) :
  exists a',
    shutdown drv events sigterm a = (Returned tt, a')
    /\ activeSessions a' = []
    /\ (exists updates,
          emitted a' = (emitted a ++ updates)%list
          /\ forall u,
               In u updates ->
               exists socketId session,
                 u = (socketId,
                      {| su_message := BrowserPageClosed; su_type := info |})
                 /\ In (socketId, session) (activeSessions a)
                 /\ s_page session <> None)
    /\ exists lines,
         console a' = (console a ++ LogShuttingDown sigterm :: lines)%list
         /\ forall socketId,
              JsMap.get socketId (activeSessions a) <> None ->
              In (LogSessionRemoved socketId) lines.
Proof.
  unfold shutdown. unfold bind at 1. unfold consoleWrite at 1, modify.
  unfold bind, gets. cbn [activeSessions].
  destruct (cleanupEach_run drv events (JsMap.keys (activeSessions a))
              {| activeSessions := activeSessions a; emitted := emitted a;
                 console := (console a ++ [LogShuttingDown sigterm])%list;
                 world := world a |})
    as [a' [E [Hd [He [lines [Hc Hl]]]]]].
  cbn [activeSessions emitted console] in *.
  exists a'. split; [exact E|].
  split; [rewrite Hd; apply delete_all_keys|].
  split; [exact He|].
  exists lines. split; [rewrite Hc; now rewrite <- app_assoc|].
  intros socketId Hget. apply Hl; auto.
  destruct (JsMap.get socketId (activeSessions a)) as [v|] eqn:G;
    [|now elim Hget].
  apply get_in in G. unfold JsMap.keys.
  apply (in_map fst) in G. exact G.
Qed.

Lemma shutdown_removes_every_session_witness :
  JsMap.get "sock" (activeSessions (Sample.ai_server Sample.p1_stuck)) <> None
  /\ exists a',
       shutdown Sample.driver Sample.events false
         (Sample.ai_server Sample.p1_stuck)
       = (Returned tt, a')
       /\ activeSessions a' = []
       /\ In (LogSessionRemoved "sock") (console a').
Proof.
  assert (H : JsMap.get "sock"
                (activeSessions (Sample.ai_server Sample.p1_stuck)) <> None)
    by discriminate.
  split; [exact H|].
  destruct (shutdown_removes_every_session Sample.driver Sample.events false
              (Sample.ai_server Sample.p1_stuck))
    as [a' [E [Hs [_ [lines [Hc Hl]]]]]].
  exists a'. split; [exact E|]. split; [exact Hs|].
  rewrite Hc. apply in_or_app. right. right. now apply Hl.
Defined.

End SessionFacts.

(** * Copilot sessions *)
Module SessionStartFacts.
Import JsMapFacts JsMapWf Registry Hierarchy Cascade CascadeCalls Validity
  Creation Growth CopilotSession.

Section WithDriver.

Context {World : Type}.
Variable drv : Driver World.
Local Abbreviation Server := (@Registry.Server World).

Lemma get_snoc {V : Type} (m : JsMap.t V) k v :
  JsMap.get k m = None -> JsMap.get k (m ++ [(k, v)])%list = Some v.
Proof.
  induction m as [|[k' v'] m IH]; simpl.
  - now rewrite String.eqb_refl.
  - destruct (String.eqb k k'); [discriminate | exact IH].
Qed.


Lemma delete_snoc {V : Type} (m : JsMap.t V) k v :
  JsMap.get k m = None -> JsMap.delete k (m ++ [(k, v)])%list = m.
Proof.
  intros H. unfold JsMap.delete. rewrite filter_app. simpl.
  rewrite String.eqb_refl. simpl. rewrite app_nil_r.
  now apply delete_absent.
Qed.

Lemma filter_keeps_all {A : Type} (f : A -> bool) (l : list A) :
  (forall x, In x l -> f x = true) -> filter f l = l.
Proof.
  induction l as [|x l IH]; simpl; intros H; [reflexivity|].
  rewrite (H x); [|now left]. f_equal. apply IH. intros y Hy. apply H.
  now right.
Qed.

Lemma filter_drops_all {A : Type} (f : A -> bool) (l : list A) :
  (forall x, In x l -> f x = false) -> filter f l = [].
Proof.
  induction l as [|x l IH]; simpl; intros H; [reflexivity|].
  rewrite (H x); [|now left]. apply IH. intros y Hy. apply H. now right.
Qed.

Lemma startCopilotSession_run sessionId browserType headless (s : Server) o s' :
  startCopilotSession drv sessionId browserType headless s = (o, s') ->
  match o with
  | Returned r =>
      r = {| ss_sessionId := sessionId;
             ss_browserId := browserIdOf sessionId;
             ss_contextId := contextIdOf sessionId;
             ss_pageId := pageIdOf sessionId |}
      /\ stored sessionId browserType s s'
  | Thrown e =>
      pages s' = pages s
      /\ ((browsers s' = browsers s /\ contexts s' = contexts s)
          \/ exists b,
               browsers s' = (browsers s ++ [(browserIdOf sessionId, b)])%list)
  end.
Proof.
  unfold startCopilotSession. unfold bind at 1.
  rewrite launchBrowser_cases.
  destruct (JsMap.has (browserIdOf sessionId) (browsers s)) eqn:Hhb.
  { intros H; inversion H; subst. auto. }
  destruct (parseBrowserType browserType) as [kind|] eqn:Hk.
  2:{ intros H; inversion H; subst. auto. }
  destruct (launch drv kind headless (world s)) as [[rb|e] w1].
  2:{ intros H; inversion H; subst. simpl. auto. }
  unfold bind at 1. rewrite createContext_cases. cbn [browsers contexts pages world].
  apply has_false_iff in Hhb. rewrite (get_snoc _ _ _ Hhb).
  destruct (JsMap.has (contextIdOf sessionId) (contexts s)) eqn:Hhc.
  { intros H; inversion H; subst. simpl. split; [reflexivity|]. right. eauto. }
  cbn [b_ref].
  destruct (newContext drv _ _ w1) as [[rc|e] w2].
  2:{ intros H; inversion H; subst. simpl. split; [reflexivity|]. right. eauto. }
  unfold bind at 1. rewrite createPage_cases. cbn [browsers contexts pages world].
  apply has_false_iff in Hhc. rewrite (get_snoc _ _ _ Hhc).
  destruct (JsMap.has (pageIdOf sessionId) (pages s)) eqn:Hhp.
  { intros H; inversion H; subst. simpl. split; [reflexivity|]. right. eauto. }
  cbn [c_ref].
  destruct (newPage drv _ w2) as [[rp|e] w3].
  2:{ intros H; inversion H; subst. simpl. split; [reflexivity|]. right. eauto. }
  apply has_false_iff in Hhp.
  intros H; inversion H; subst. split; [reflexivity|].
  exists {| b_ref := rb; b_kind := kind |},
         {| c_ref := rc; c_browser := rb |},
         {| p_ref := rp; p_context := rc |}.
  simpl. repeat (split; [first [reflexivity | assumption]|]). reflexivity.
Qed.

Lemma snoc_fresh (l : list nat) x :
  distinct_nats (l ++ [x])%list = true -> ~ In x l.
Proof.
  rewrite distinct_nats_NoDup. intros H Hin.
  apply NoDup_remove_2 in H. apply H. rewrite app_nil_r. exact Hin.
Qed.

(** A valid registry that grew by a session, then lost the browser of that
    session with all below it, is what it was. *)
Lemma started_then_closed sessionId browserType (s s1 s2 : Server) b :
  valid s = true -> valid s1 = true ->
  stored sessionId browserType s s1 ->
  JsMap.get (browserIdOf sessionId) (browsers s1) = Some b ->
  closed_browser (browserIdOf sessionId) b s1 s2 ->
  same_maps s s2.
Proof.
  intros Hv Hv1 [b0 [c [p [_ [Hcb [Hpc [Hgb [Hgc [Hgp [Eb [Ec Ep]]]]]]]]]]] Hget
         [Cb [Cc Cp]].
  rewrite Eb, (get_snoc _ _ _ Hgb) in Hget. inversion Hget; subst b0.
  destruct (valid_parts _ Hv) as [_ [_ Hown]].
  destruct (valid_parts _ Hv1) as [_ [Hobj1 _]].
  apply owners_ok_iff in Hown. destruct Hown as [Hw1 Hw2].
  unfold objects_ok in Hobj1. rewrite !andb_true_iff in Hobj1.
  destruct Hobj1 as [[Hob Hoc] _].
  rewrite Eb, values_app, map_app in Hob. apply snoc_fresh in Hob.
  rewrite Ec, values_app, map_app in Hoc. apply snoc_fresh in Hoc.
  assert (Hold_c : forall e, In e (contexts s) -> context_in b (snd e) = false).
  { intros [k c'] Hin. simpl.
    destruct (Hw1 c') as [b' [Hb' Hin']].
    { apply in_values. eauto. }
    unfold context_in in *. apply Nat.eqb_eq in Hin'.
    apply Nat.eqb_neq. intros Heq. apply Hob. rewrite <- Heq, Hin'.
    now apply in_map. }
  assert (Hold_p : forall e, In e (pages s) -> page_in c (snd e) = false).
  { intros [k p'] Hin. simpl.
    destruct (Hw2 p') as [c' [Hc' Hin']].
    { apply in_values. eauto. }
    unfold page_in in *. apply Nat.eqb_eq in Hin'.
    apply Nat.eqb_neq. intros Heq. apply Hoc. rewrite <- Heq, Hin'.
    now apply in_map. }
  assert (Hnew_c : context_in b c = true).
  { unfold context_in. rewrite Hcb. apply Nat.eqb_refl. }
  assert (Hnew_p : page_in c p = true).
  { unfold page_in. rewrite Hpc. apply Nat.eqb_refl. }
  assert (Hchildren : child_contexts b s1 = [c]).
  { unfold child_contexts. rewrite Ec, values_app, filter_app. simpl.
    rewrite Hnew_c. rewrite filter_drops_all; [reflexivity|].
    intros c' Hc'. apply in_values in Hc'. destruct Hc' as [k Hk].
    exact (Hold_c _ Hk). }
  split; [|split].
  - rewrite Cb, Eb. now apply delete_snoc.
  - rewrite Cc, Ec, filter_app. simpl. rewrite Hnew_c. simpl.
    rewrite app_nil_r. apply filter_keeps_all.
    intros e He. now rewrite Hold_c.
  - rewrite Cp, Ep, filter_app. unfold below_browser. rewrite Hchildren.
    simpl. rewrite Hnew_p. simpl. rewrite app_nil_r.
    apply filter_keeps_all. intros e He. now rewrite Hold_p.
Qed.

End WithDriver.



(** X18.  Starting a session and then closing its browser is a round trip
    on a well-formed registry: if the start returns and the registry is
    still well formed (the driver handed out new objects), a close of the
    session's browser that returns leaves the three maps as they were
    before the start, entries and order. *)
Theorem session_round_trip {World : Type} (drv : Driver World)
  (s s1 s2 : @Registry.Server World) sessionId browserType headless r r' :
  valid s = true ->
  startCopilotSession drv sessionId browserType headless s = (Returned r, s1) ->
  valid s1 = true ->
  closeBrowser drv (ss_browserId r) s1 = (Returned r', s2) ->
  same_maps s s2.
Proof.
  intros Hv Hstart Hv1 Hclose.
  pose proof (startCopilotSession_run drv _ _ _ _ _ _ Hstart) as [-> Hst].
  simpl in Hclose.
  destruct (JsMap.get (browserIdOf sessionId) (browsers s1)) as [b|] eqn:Hget.
  2:{ rewrite (closeBrowser_not_found drv _ _ Hget) in Hclose.
      discriminate. }
  destruct (valid_parts _ Hv1) as [Hkeys _].
  destruct (keys_ok_wf _ Hkeys) as [_ [Hwc Hwp]].
  pose proof (closeBrowser_cases drv _ _ _ _ _ Hwc Hwp Hget Hclose)
    as [_ Hclosed].
  eapply started_then_closed; eauto.
Qed.

Lemma session_round_trip_witness :
  valid (Sample.registry Sample.calm) = true
  /\ same_maps (Sample.registry Sample.calm)
       (snd (closeBrowser Sample.driver "copilot-s1"
               (snd (startCopilotSession Sample.driver "s1" "chromium" false
                       (Sample.registry Sample.calm))))).
Proof.
  split; [reflexivity|].
  exact (session_round_trip Sample.driver (Sample.registry Sample.calm) _ _
           "s1" "chromium" false _ _ eq_refl eq_refl eq_refl eq_refl).
Defined.

End SessionStartFacts.

(** * The matcher on the commands the client builds *)
Module RegexFacts.
Import Regex.

Lemma run_seq a b s c k :
  run (Seq a b) s c k = run a s c (fun s' c' => run b s' c' k).
Proof. reflexivity. Qed.

Lemma run_chr p a s c k : p a = true -> run (Chr p) (a :: s) c k = k s c.
Proof. intros H. cbn [run]. now rewrite H. Qed.

Lemma run_alt_first a b s c k r :
  run a s c k = Some r -> run (Alt a b) s c k = Some r.
Proof. intros H. cbn [run]. now rewrite H. Qed.

Lemma run_lit_i_same w s c k :
  run (lit_i w) (list_ascii_of_string w ++ s)%list c k = k s c.
Proof.
  induction w as [|a w IH]; [reflexivity|].
  cbn [lit_i list_ascii_of_string app]. rewrite run_seq, run_chr.
  - apply IH.
  - apply Ascii.eqb_refl.
Qed.

Lemma star_stop p x s c k :
  p x = false -> run (Star (Chr p)) (x :: s) c k = k (x :: s) c.
Proof. intros H. cbn [run List.length]. now rewrite H. Qed.

Lemma star_all p l c k r :
  forallb p l = true -> k [] c = Some r -> run (Star (Chr p)) l c k = Some r.
Proof.
  intros Hall Hk. cbn [run].
  assert (Hn : (List.length l <= List.length l)%nat) by lia.
  revert Hn. generalize (List.length l) at 2 3. intros n. revert l Hall.
  induction n as [|n IH]; intros [|a l] Hall Hn; simpl in *;
    try lia; try assumption.
  apply andb_true_iff in Hall. destruct Hall as [Ha Hall]. rewrite Ha.
  assert (Hlt : (List.length l <? S (List.length l))%nat = true).
  { apply Nat.ltb_lt. lia. }
  rewrite Hlt. rewrite IH; [reflexivity | assumption | lia].
Qed.

Lemma run_plus_space x s c k :
  Js.isSpace x = false ->
  run (plus space) (" "%char :: x :: s) c k = k (x :: s) c.
Proof.
  intros H. unfold plus, space. rewrite run_seq, run_chr by reflexivity.
  now apply star_stop.
Qed.

Lemma run_group_line i a rest c k r :
  forallb (fun x => negb (Js.isLineTerminator x)) (a :: rest) = true ->
  k [] ((i, a :: rest) :: c) = Some r ->
  run (Group i (plus dot)) (a :: rest) c k = Some r.
Proof.
  intros Hall Hk. cbn [forallb] in Hall. apply andb_true_iff in Hall.
  destruct Hall as [Ha Hall].
  change (run (Group i (plus dot)) (a :: rest) c k)
    with (run (plus dot) (a :: rest) c
            (fun s' c' =>
               k s' ((i, firstn (List.length (a :: rest) - List.length s')
                           (a :: rest)) :: c'))).
  unfold plus, dot. rewrite run_seq, run_chr by exact Ha.
  apply star_all; [exact Hall|].
  cbn [List.length]. rewrite Nat.sub_0_r.
  change (S (List.length rest)) with (List.length (a :: rest)).
  now rewrite firstn_all.
Qed.

Lemma search_at_start r s c :
  run r (list_ascii_of_string s) [] (fun _ c' => Some c') = Some c ->
  search r s = Some c.
Proof.
  intros H. unfold search. destruct (list_ascii_of_string s); simpl;
    simpl in H; now rewrite H.
Qed.

Lemma not_space_not_terminator x :
  Js.isSpace x = false -> Js.isLineTerminator x = false.
Proof.
  unfold Js.isSpace, Js.isLineTerminator. cbv zeta.
  generalize (nat_of_ascii x). intros n H.
  apply orb_false_iff in H. destruct H as [_ H].
  apply andb_false_iff in H.
  apply orb_false_iff. split; apply Nat.eqb_neq; intros ->;
    destruct H as [H|H]; discriminate H.
Qed.

Section Commands.
Import Copilot.

Variables (text : string) (a : ascii) (rest : list ascii).
Hypothesis Htext : list_ascii_of_string text = a :: rest.
Hypothesis Hfirst : Js.isSpace a = false.
Hypothesis Hline :
  forallb (fun x => negb (Js.isLineTerminator x)) rest = true.

Lemma one_line : forallb (fun x => negb (Js.isLineTerminator x)) (a :: rest) = true.
Proof.
  cbn [forallb]. rewrite (not_space_not_terminator _ Hfirst). exact Hline.
Qed.

Lemma list_ascii_app (s1 s2 : string) :
  list_ascii_of_string (s1 ++ s2)
  = (list_ascii_of_string s1 ++ list_ascii_of_string s2)%list.
Proof. induction s1 as [|x s1 IH]; simpl; [reflexivity | now rewrite IH]. Qed.

Lemma search_navigate_to :
  search re_url ("navigate to " ++ text) = Some [(1, a :: rest)].
Proof.
  apply search_at_start.
  change ("navigate to " ++ text) with ("navigate" ++ (" to " ++ text)).
  rewrite list_ascii_app. unfold re_url. cbn [seqs].
  rewrite run_seq. apply run_alt_first. rewrite run_lit_i_same.
  change (list_ascii_of_string (" to " ++ text))
    with (" "%char :: "t"%char
          :: (list_ascii_of_string "o" ++ list_ascii_of_string (" " ++ text))%list).
  rewrite run_seq, run_plus_space by reflexivity.
  rewrite run_seq.
  change ("t"%char :: (list_ascii_of_string "o"
                       ++ list_ascii_of_string (" " ++ text))%list)
    with (list_ascii_of_string "to" ++ list_ascii_of_string (" " ++ text))%list.
  rewrite run_lit_i_same.
  change (list_ascii_of_string (" " ++ text))
    with (" "%char :: list_ascii_of_string text).
  rewrite Htext. rewrite run_seq, run_plus_space by exact Hfirst.
  apply run_group_line; [exact one_line | reflexivity].
Qed.

Lemma search_wait_for :
  search re_wait_selector ("wait for " ++ text) = Some [(1, a :: rest)].
Proof.
  apply search_at_start.
  change ("wait for " ++ text) with ("wait" ++ (" for " ++ text)).
  rewrite list_ascii_app. unfold re_wait_selector. cbn [seqs].
  rewrite run_seq, run_lit_i_same.
  change (list_ascii_of_string (" for " ++ text))
    with (" "%char :: "f"%char
          :: (list_ascii_of_string "or" ++ list_ascii_of_string (" " ++ text))%list).
  rewrite run_seq, run_plus_space by reflexivity.
  rewrite run_seq. apply run_alt_first.
  change ("f"%char :: (list_ascii_of_string "or"
                       ++ list_ascii_of_string (" " ++ text))%list)
    with (list_ascii_of_string "for" ++ list_ascii_of_string (" " ++ text))%list.
  rewrite run_lit_i_same.
  change (list_ascii_of_string (" " ++ text))
    with (" "%char :: list_ascii_of_string text).
  rewrite Htext. rewrite run_seq, run_plus_space by exact Hfirst.
  apply run_group_line; [exact one_line | reflexivity].
Qed.

Lemma captured_text : group 1 [(1, a :: rest)] = Some text.
Proof.
  cbn [group Nat.eqb]. rewrite <- Htext.
  now rewrite string_of_list_ascii_of_string.
Qed.

Lemma extractUrl_navigate_to :
  extractUrl ("navigate to " ++ text)
  = Some (if Js.startsWith "http" (Js.trim text) then Js.trim text
          else "https://" ++ Js.trim text).
Proof.
  unfold extractUrl. now rewrite search_navigate_to, captured_text.
Qed.

Lemma extractWaitCondition_wait_for :
  extractWaitCondition ("wait for " ++ text) = WaitSelector text.
Proof.
  unfold extractWaitCondition. now rewrite search_wait_for, captured_text.
Qed.

End Commands.

End RegexFacts.

(** * The client and the agent together *)
Module ClientFacts.
Import JsMapFacts JsMapWf Registry Hierarchy CascadeCalls Validity Copilot
  CopilotSession Workflow CommandFacts SessionStartFacts RegexFacts.

Section WithDriver.

Context {World : Type}.
Variable drv : Driver World.
Local Abbreviation Server := (@Registry.Server World).
Local Abbreviation System := (@Client.System World).

Lemma http_url_truthy (t : string) :
  truthy (Some (if Js.startsWith "http" t then t else "https://" ++ t))
  = Some (if Js.startsWith "http" t then t else "https://" ++ t).
Proof.
  destruct (Js.startsWith "http" t) eqn:E; [|reflexivity].
  destruct t; [discriminate E | reflexivity].
Qed.

Lemma with_agent_same (sys : System) :
  Client.with_agent sys (Client.agent sys) = sys.
Proof. now destruct sys. Qed.

(** A command of a client that has a page id: refused when its body is
    too large, handed to the agent otherwise. *)
Lemma sendCommand_run command done failed caught (sys : System) pageId :
  truthy (Client.currentPageId (Client.client sys)) = Some pageId ->
  forall (handler : M Server CommandResult),
    executeNaturalLanguageCommand drv command pageId None (Client.agent sys)
    = handler (Client.agent sys) ->
    Client.sendCommand drv command done failed caught sys
    = if Rest.fits (Client.commandBody command pageId)
      then match handler (Client.agent sys) with
           | (Returned result, a) =>
               (if success result then done
                else failed (Client.message result),
                Client.with_agent sys a)
           | (Thrown _, a) => (failed None, Client.with_agent sys a)
           end
      else (caught, sys).
Proof.
  intros Hid handler Hrun. unfold Client.sendCommand. rewrite Hid.
  unfold Rest.postCommand, Rest.parsed, Rest.respond. rewrite Hrun.
  destruct (Rest.fits (Client.commandBody command pageId)).
  - destruct (handler (Client.agent sys)) as [[result|e] a]; reflexivity.
  - now rewrite with_agent_same.
Qed.

Lemma words_absent (words : list string) (hay : string) w :
  forallb (fun w => negb (Js.includes w hay)) words = true ->
  In w words -> Js.includes w hay = false.
Proof.
  intros H Hin. rewrite forallb_forall in H. apply negb_true_iff. now apply H.
Qed.

Lemma namedFrom_names index steps :
  map step_name (Client.namedFrom index steps)
  = map Client.stepName (seq index (List.length steps)).
Proof.
  revert index. induction steps as [|step rest IH]; intros index;
    [reflexivity|].
  simpl. now rewrite IH.
Qed.

Lemma summary_names entries :
  map fst (map Client.summaryLine entries) = map entry_step entries.
Proof.
  rewrite map_map. apply map_ext. intros [step r|step e]; reflexivity.
Qed.

End WithDriver.

(** X19.  [navigateTo] and the page.  Take a client with a session whose
    page the agent knows, and a url of ASCII characters, on one line, that
    begins with no white space, such that the command made of it has none
    of the words the agent looks for before [navigate] (click, press, type,
    fill, enter, in any case).  When the body of the request is over the
    limit of the JSON parser, the agent does nothing and the client answers
    from its [catch].  Otherwise the agent calls [page.goto] once, with the
    url trimmed, and with [https://] in front of it unless it begins with
    the letters http; the client reports success when the driver returns
    and failure when it throws. *)
Theorem navigateTo_reaches_page {World : Type} (drv : Driver World)
  (sys : @Client.System World) url a rest pageId page :
  truthy (Client.currentPageId (Client.client sys)) = Some pageId ->
  JsMap.get pageId (pages (Client.agent sys)) = Some page ->
  Js.isAscii url = true ->
  list_ascii_of_string url = a :: rest ->
  Js.isSpace a = false ->
  forallb (fun x => negb (Js.isLineTerminator x)) rest = true ->
  forallb (fun w =>
             negb (Js.includes w (Js.toLowerCase ("navigate to " ++ url))))
    ["click"; "press"; "type"; "fill"; "enter"] = true ->
  let target :=
    if Js.startsWith "http" (Js.trim url) then Js.trim url
    else "https://" ++ Js.trim url in
  Client.navigateTo drv url sys
  = if Rest.fits (Client.commandBody ("navigate to " ++ url) pageId)
    then match page_goto drv page target (world (Client.agent sys)) with
         | (Returned _, w) =>
             (Client.NavigatedTo url,
              Client.with_agent sys
                {| browsers := browsers (Client.agent sys);
                   contexts := contexts (Client.agent sys);
                   pages := pages (Client.agent sys); world := w |})
         | (Thrown _, w) =>
             (Client.NavigationFailed None,
              Client.with_agent sys
                {| browsers := browsers (Client.agent sys);
                   contexts := contexts (Client.agent sys);
                   pages := pages (Client.agent sys); world := w |})
         end
    else (Client.ErrorNavigating, sys).
Proof.
  intros Hid Hget _ Hurl Hfirst Hline Hwords target.
  unfold Client.navigateTo.
  rewrite (sendCommand_run drv _ _ _ _ sys pageId Hid
             (handleNavigateCommand drv page ("navigate to " ++ url))).
  - destruct (Rest.fits _); [|reflexivity].
    unfold handleNavigateCommand.
    rewrite (extractUrl_navigate_to url a rest Hurl Hfirst Hline).
    rewrite http_url_truthy. fold target.
    unfold bind, native, ret.
    destruct (page_goto drv page target (world (Client.agent sys)))
      as [[[]|e] w]; reflexivity.
  - unfold executeNaturalLanguageCommand. unfold bind at 1.
    unfold getOrThrow. rewrite Hget.
    rewrite !(words_absent _ _ _ Hwords) by (simpl; tauto).
    reflexivity.
Qed.

Lemma navigateTo_reaches_page_witness :
  Rest.fits (Client.commandBody "navigate to example.com" "p1") = true
  /\ fst (Client.navigateTo Sample.driver "example.com"
            (ClientSample.in_session Sample.calm))
     = Client.NavigatedTo "example.com".
Proof.
  split; [reflexivity|].
  rewrite (navigateTo_reaches_page Sample.driver
             (ClientSample.in_session Sample.calm) "example.com"
             "e"%char (list_ascii_of_string "xample.com") "p1" Sample.p1
             eq_refl eq_refl eq_refl eq_refl eq_refl eq_refl eq_refl).
  reflexivity.
Defined.

(** X20.  [waitFor] and the page.  Under the same conditions on the client
    and on the text of the condition, and provided the command has none of
    the words the agent looks for before [wait] (click, press, type, fill,
    enter, navigate, go to): when the body of the request is over the limit
    of the JSON parser, the agent does nothing and the client answers from
    its [catch]; otherwise the agent waits for the condition as a selector,
    whatever the condition says, and the client reports what the driver
    did. *)
Theorem waitFor_reaches_page {World : Type} (drv : Driver World)
  (sys : @Client.System World) condition a rest pageId page :
  truthy (Client.currentPageId (Client.client sys)) = Some pageId ->
  JsMap.get pageId (pages (Client.agent sys)) = Some page ->
  Js.isAscii condition = true ->
  list_ascii_of_string condition = a :: rest ->
  Js.isSpace a = false ->
  forallb (fun x => negb (Js.isLineTerminator x)) rest = true ->
  forallb (fun w =>
             negb (Js.includes w (Js.toLowerCase ("wait for " ++ condition))))
    ["click"; "press"; "type"; "fill"; "enter"; "navigate"; "go to"] = true ->
  Client.waitFor drv condition sys
  = if Rest.fits (Client.commandBody ("wait for " ++ condition) pageId)
    then match page_waitForSelector drv page condition
                 (world (Client.agent sys)) with
         | (Returned _, w) =>
             (Client.WaitMet condition,
              Client.with_agent sys
                {| browsers := browsers (Client.agent sys);
                   contexts := contexts (Client.agent sys);
                   pages := pages (Client.agent sys); world := w |})
         | (Thrown _, w) =>
             (Client.WaitFailed None,
              Client.with_agent sys
                {| browsers := browsers (Client.agent sys);
                   contexts := contexts (Client.agent sys);
                   pages := pages (Client.agent sys); world := w |})
         end
    else (Client.ErrorWaiting, sys).
Proof.
  intros Hid Hget _ Htext Hfirst Hline Hwords.
  unfold Client.waitFor.
  rewrite (sendCommand_run drv _ _ _ _ sys pageId Hid
             (handleWaitCommand drv page ("wait for " ++ condition))).
  - destruct (Rest.fits _); [|reflexivity].
    unfold handleWaitCommand.
    rewrite (extractWaitCondition_wait_for condition a rest Htext Hfirst Hline).
    unfold bind, native, ret.
    destruct (page_waitForSelector drv page condition
                (world (Client.agent sys))) as [[[]|e] w]; reflexivity.
  - unfold executeNaturalLanguageCommand. unfold bind at 1.
    unfold getOrThrow. rewrite Hget.
    rewrite !(words_absent _ _ _ Hwords) by (simpl; tauto).
    reflexivity.
Qed.

Lemma waitFor_reaches_page_witness :
  Rest.fits (Client.commandBody "wait for 2 seconds" "p1") = true
  /\ fst (Client.waitFor Sample.driver "2 seconds"
            (ClientSample.in_session Sample.calm))
     = Client.WaitMet "2 seconds".
Proof.
  split; [reflexivity|].
  rewrite (waitFor_reaches_page Sample.driver
             (ClientSample.in_session Sample.calm) "2 seconds"
             "2"%char (list_ascii_of_string " seconds") "p1" Sample.p1
             eq_refl eq_refl eq_refl eq_refl eq_refl eq_refl eq_refl).
  reflexivity.
Defined.

(** X21.  [clickElement] is answered by the click handler or not at all.
    With a session whose page the agent knows, whatever the description:
    when the body of the request is within the limit of the JSON parser the
    agent answers 200, and the client reports the click, or the failure
    message that no clickable element was found for its command; when the
    body is over the limit the agent does nothing and the client answers
    from its [catch].  Neither the client's session nor the agent's maps
    change. *)
Theorem clickElement_always_answers {World : Type} (drv : Driver World)
  (sys : @Client.System World) description pageId page :
  truthy (Client.currentPageId (Client.client sys)) = Some pageId ->
  JsMap.get pageId (pages (Client.agent sys)) = Some page ->
  exists reply sys',
    Client.clickElement drv description sys = (reply, sys')
    /\ Client.client sys' = Client.client sys
    /\ same_maps (Client.agent sys) (Client.agent sys')
    /\ if Rest.fits (Client.commandBody ("click " ++ description) pageId)
       then reply = Client.ClickedOn description
            \/ reply = Client.ClickFailed
                         (Some (NoClickableElement ("click " ++ description)))
       else reply = Client.ErrorClicking /\ sys' = sys.
Proof.
  intros Hid Hget. unfold Client.clickElement.
  rewrite (sendCommand_run drv _ _ _ _ sys pageId Hid
             (handleClickCommand drv page ("click " ++ description))).
  - destruct (Rest.fits _).
    + unfold handleClickCommand.
      pose proof (clickFirst_same_maps drv page ("click " ++ description)
                    (extractClickTarget ("click " ++ description))
                    (Client.agent sys)) as Hsame.
      destruct (clickFirst_returns drv page ("click " ++ description)
                  (extractClickTarget ("click " ++ description))
                  (Client.agent sys)) as [r [s' [Hrun Hr]]].
      rewrite Hrun in *. simpl in Hsame.
      eexists. eexists. split; [reflexivity|].
      split; [reflexivity|]. split; [exact Hsame|].
      destruct Hr as [->|[target [_ ->]]]; [right | left]; reflexivity.
    + exists Client.ErrorClicking, sys. split; [reflexivity|].
      split; [reflexivity|]. split; [apply same_maps_refl | auto].
  - unfold executeNaturalLanguageCommand. unfold bind at 1.
    unfold getOrThrow. rewrite Hget. reflexivity.
Qed.

Lemma clickElement_always_answers_witness :
  Rest.fits (Client.commandBody ("click " ++ "the #email link") "p1") = true
  /\ exists reply sys',
       Client.clickElement Sample.driver "the #email link"
         (ClientSample.in_session Sample.no_email)
       = (reply, sys')
       /\ (reply = Client.ClickedOn "the #email link"
           \/ reply = Client.ClickFailed
                        (Some (NoClickableElement
                                 ("click " ++ "the #email link")))).
Proof.
  split; [reflexivity|].
  destruct (clickElement_always_answers Sample.driver
              (ClientSample.in_session Sample.no_email)
              "the #email link" "p1" Sample.p1 eq_refl eq_refl)
    as [reply [sys' [H1 [_ [_ H2]]]]].
  exists reply, sys'. split; [exact H1 | exact H2].
Defined.

(** X22.  Launching a browser from the client and closing it again is a
    round trip.  If [launchBrowser] reports success on a well-formed
    registry and leaves it well formed, the client holds a page id the agent
    knows; if [closeBrowser] then reports success, the client holds no
    session and the agent's three maps are what they were before the
    launch. *)
Theorem client_session_round_trip {World : Type} (drv : Driver World)
  (sys sys1 sys2 : @Client.System World) now browserType headless sessionId :
  valid (Client.agent sys) = true ->
  Client.launchBrowser drv now browserType headless sys
  = (Client.BrowserLaunched sessionId, sys1) ->
  valid (Client.agent sys1) = true ->
  Client.closeBrowser drv sys1 = (Client.BrowserClosed, sys2) ->
  sessionId = "session-" ++ now
  /\ Client.currentSession (Client.client sys1) = Some sessionId
  /\ (exists pageId page,
        Client.currentPageId (Client.client sys1) = Some pageId
        /\ JsMap.get pageId (pages (Client.agent sys1)) = Some page)
  /\ Client.client sys2
     = {| Client.currentSession := None; Client.currentPageId := None |}
  /\ same_maps (Client.agent sys) (Client.agent sys2).
Proof.
  intros Hv Hlaunch Hv1 Hclose.
  assert (Htr : truthy (Some ("session-" ++ now)) = Some ("session-" ++ now))
    by reflexivity.
  unfold Client.launchBrowser, Rest.postSessionStart, Rest.parsed,
    Rest.respond in Hlaunch.
  cbv zeta in Hlaunch.
  remember ("session-" ++ now) as sid eqn:Hsid.
  destruct (Rest.fits _); [|discriminate Hlaunch].
  destruct (startCopilotSession drv sid _ _ (Client.agent sys))
    as [[r|e] a1] eqn:Hstart; [|discriminate Hlaunch].
  inversion Hlaunch; subst sessionId sys1. clear Hlaunch.
  pose proof (startCopilotSession_run drv _ _ _ _ _ _ Hstart) as [Hr Hst].
  cbn [Client.agent Client.client Client.currentSession
       Client.currentPageId] in *.
  unfold Client.closeBrowser, Rest.deleteBrowser, Rest.respond in Hclose.
  cbn [Client.agent Client.client Client.currentSession] in Hclose.
  rewrite Htr in Hclose.
  change ("copilot-" ++ sid) with (browserIdOf sid) in Hclose.
  destruct (closeBrowser drv (browserIdOf sid) a1) as [[r'|e] a2] eqn:Hcl;
    [|discriminate Hclose].
  inversion Hclose; subst sys2. clear Hclose.
  cbn [Client.agent Client.client].
  split; [reflexivity|]. split; [reflexivity|].
  assert (Hpage : exists page,
             JsMap.get (ss_pageId r) (pages a1) = Some page).
  { destruct Hst as [b [c [p [_ [_ [_ [_ [_ [Hgp [_ [_ Ep]]]]]]]]]]].
    exists p. rewrite Hr, Ep. cbn [ss_pageId]. now apply get_snoc. }
  split; [destruct Hpage as [page Hpage]; eauto|].
  split; [reflexivity|].
  destruct (JsMap.get (browserIdOf sid) (browsers a1)) as [b|] eqn:Hget.
  2:{ rewrite (closeBrowser_not_found drv _ _ Hget) in Hcl. discriminate. }
  destruct (valid_parts _ Hv1) as [Hkeys _].
  destruct (keys_ok_wf _ Hkeys) as [_ [Hwc Hwp]].
  pose proof (closeBrowser_cases drv _ _ _ _ _ Hwc Hwp Hget Hcl)
    as [_ Hclosed].
  eapply started_then_closed; eauto.
Qed.

Lemma client_session_round_trip_witness :
  same_maps (Sample.registry Sample.calm)
    (Client.agent
       (snd (Client.closeBrowser Sample.driver
               (snd (Client.launchBrowser Sample.driver "1700000000000"
                       None None
                       (ClientSample.idle Sample.calm)))))).
Proof.
  exact (proj2 (proj2 (proj2 (proj2
           (client_session_round_trip Sample.driver
              (ClientSample.idle Sample.calm) _ _
              "1700000000000" None None _ eq_refl eq_refl eq_refl eq_refl))))).
Defined.

(** X23.  [executeWorkflow] of the client, once it has a page id.  When
    the body of the request is within the limit of the JSON parser, the
    client never reports a failed workflow: it reports one line per step,
    in order, named [step-1], [step-2], ..., and when the agent does not
    know the page, every line is marked as failed.  When the body is over
    the limit, the agent does nothing and the client answers from its
    [catch].  The client's session and the agent's maps stay as they
    are. *)
Theorem client_workflow_summary {World : Type} (drv : Driver World)
  (sys : @Client.System World) steps pageId :
  truthy (Client.currentPageId (Client.client sys)) = Some pageId ->
  exists reply sys',
    Client.executeWorkflow drv steps sys = (reply, sys')
    /\ Client.client sys' = Client.client sys
    /\ same_maps (Client.agent sys) (Client.agent sys')
    /\ if Rest.fits (Client.workflowBody (Client.namedFrom 0 steps) pageId)
       then exists summary,
              reply = Client.WorkflowExecuted summary
              /\ map fst summary
                 = map Client.stepName (seq 0 (List.length steps))
              /\ (JsMap.get pageId (pages (Client.agent sys)) = None ->
                  forall line, In line summary -> snd line = false)
       else reply = Client.ErrorWorkflow /\ sys' = sys.
Proof.
  intros Hid. unfold Client.executeWorkflow. rewrite Hid. cbv zeta.
  unfold Rest.postWorkflow, Rest.parsed, Rest.respond.
  destruct (Rest.fits _).
  - destruct (executeWorkflow_loop drv (Client.namedFrom 0 steps) pageId
                (Client.agent sys)) as [entries [a [Hloop Hrun]]].
    rewrite Hrun. cbn [wr_success wr_workflow].
    eexists. eexists. split; [reflexivity|].
    destruct (workflowLoop_entries drv _ _ _ _ _ Hloop) as [Hnames _].
    split; [reflexivity|]. split.
    + pose proof (workflowLoop_same_maps drv pageId (Client.namedFrom 0 steps)
                    [] (Client.agent sys)) as Hsame.
      rewrite Hloop in Hsame. exact Hsame.
    + eexists. split; [reflexivity|]. split.
      * now rewrite summary_names, Hnames, namedFrom_names.
      * intros Hnone line Hin.
        rewrite (workflowLoop_absent drv _ _ _ _ Hnone) in Hloop.
        inversion Hloop; subst entries a. cbn [app] in Hin.
        rewrite map_map in Hin. apply in_map_iff in Hin.
        destruct Hin as [step [<- _]]. reflexivity.
  - exists Client.ErrorWorkflow, sys. rewrite with_agent_same.
    split; [reflexivity|]. split; [reflexivity|].
    split; [apply same_maps_refl | auto].
Qed.

Lemma client_workflow_summary_witness :
  Rest.fits (Client.workflowBody
               (Client.namedFrom 0 ["click login"; "take screenshot"]) "p1")
  = true
  /\ exists reply sys' summary,
       Client.executeWorkflow Sample.driver ["click login"; "take screenshot"]
         (ClientSample.in_session Sample.calm)
       = (reply, sys')
       /\ reply = Client.WorkflowExecuted summary
       /\ map fst summary = ["step-1"; "step-2"].
Proof.
  split; [reflexivity|].
  destruct (client_workflow_summary Sample.driver
              (ClientSample.in_session Sample.calm)
              ["click login"; "take screenshot"] "p1" eq_refl)
    as [reply [sys' [H1 [_ [_ [summary [H2 [H3 _]]]]]]]].
  exists reply, sys', summary. split; [exact H1|]. split; [exact H2 | exact H3].
Defined.

End ClientFacts.

(** * The activity log *)
Module UiFacts.
Import Ui.

Lemma slice_last_length {A : Type} n (l : list A) :
  List.length (slice_last n l) = Nat.min n (List.length l).
Proof. unfold slice_last. rewrite length_skipn. lia. Qed.

Lemma slice_last_snoc {A : Type} n (l : list A) x :
  slice_last (S n) (l ++ [x]) = (slice_last n l ++ [x])%list.
Proof.
  unfold slice_last. rewrite length_app. simpl.
  replace (List.length l + 1 - S n)%nat with (List.length l - n)%nat by lia.
  rewrite skipn_app.
  replace (List.length l - n - List.length l)%nat with 0%nat by lia.
  reflexivity.
Qed.

Lemma slice_last_slice_last {A : Type} n m (l : list A) :
  (n <= m)%nat -> slice_last n (slice_last m l) = slice_last n l.
Proof.
  intros H. unfold slice_last. rewrite length_skipn, skipn_skipn.
  f_equal. lia.
Qed.

Lemma slice_last_all {A : Type} n (l : list A) :
  (List.length l <= n)%nat -> slice_last n l = l.
Proof.
  intros H. unfold slice_last.
  replace (List.length l - n)%nat with 0%nat by lia. reflexivity.
Qed.

Lemma after_snoc calls c log :
  after (calls ++ [c]) log = addActivityLog c (after calls log).
Proof. unfold after. now rewrite fold_left_app. Qed.

(** X24.  The activity log is a window on the last nine entries.  From a
    log of at most nine entries, after any series of calls the log is the
    last nine of the old entries followed by the new ones, in the order of
    the calls; so it never has more than nine. *)
Theorem activity_log_window (calls : list Call) (log : list LogEntry) :
  (List.length log <= 9)%nat ->
  after calls log = slice_last 9 (log ++ map newLog calls)
  /\ (List.length (after calls log) <= 9)%nat.
Proof.
  intros Hlog.
  assert (H : after calls log = slice_last 9 (log ++ map newLog calls)).
  { induction calls as [|c calls IH] using rev_ind.
    - simpl. rewrite app_nil_r. symmetry. now apply slice_last_all.
    - rewrite after_snoc, IH. unfold addActivityLog.
      rewrite slice_last_slice_last by lia.
      rewrite map_app, app_assoc. simpl.
      now rewrite slice_last_snoc. }
  split; [exact H|]. rewrite H, slice_last_length. lia.
Qed.

Lemma activity_log_window_witness :
  (List.length (initialLog 0) <= 9)%nat
  /\ after [{| call_now := 5; call_timestamp := 5;
               call_message := "Connected"; call_type := Some "success" |}]
       (initialLog 0)
     = slice_last 9
         (initialLog 0
          ++ map newLog
               [{| call_now := 5; call_timestamp := 5;
                   call_message := "Connected";
                   call_type := Some "success" |}]).
Proof.
  split; [simpl; lia|].
  apply (activity_log_window _ (initialLog 0)). simpl. lia.
Defined.

End UiFacts.
